(** * Flow Map Painter: a shallow embedding of [src/__init__.py]

    The add-on is a Blender modal operator.  Its own logic (the stroke
    interpolator in [FlowmapOperator.modal], the direction encoders, the
    handling of the temporary triangulated object, the panel and the
    registration) is embedded here function by function, under the names of
    the source.  Blender itself ([bpy],
    [mathutils], [view3d_utils]) is a collaborator: its data is modelled by
    records, its geometry queries by the fields of the class [Host].

    Python's dynamic behaviour is kept explicit: a call either returns or
    raises ([Res]), a mutation made before an exception survives it (the state
    monad [M] threads the world through both outcomes), and a function that
    falls off its end returns [None].

    Numbers.  The source computes with numpy float64 and Python floats.  The
    arithmetic it uses is collected in the class [Arith]; the definitions are
    generic in it, and so is every theorem that does not depend on what the
    operations compute.  [float64] is IEEE binary64 as the kernel implements
    it: every definition evaluates on it, and the bound on the colour channels
    is proved on it, from the kernel's specification of the operations.
    [ideal], the real numbers extended with the two infinities and NaN, without
    rounding, serves where binary64 computes what the reals do: the difference
    of two equal numbers, a division by zero. *)

From Stdlib Require Import Floats.
From Stdlib Require Import ZArith List Ascii String Bool Lia Reals Lra.
Import ListNotations.

Set Implicit Arguments.

(* ------------------------------------------------------------------ *)
(** ** Outcomes of a Python call *)

Inductive exn : Type :=
| TypeError | AttributeError | IndexError | ValueError
| OverflowError | ZeroDivisionError.

Inductive Res (A : Type) : Type :=
| Ok (a : A)
| Raise (e : exn).
Arguments Ok {A} a.
Arguments Raise {A} e.

(* ------------------------------------------------------------------ *)
(** ** Arithmetic *)

(** What the source asks of its floats: conversion from [int], the four
    operations, [numpy.sqrt] (through [numpy.linalg.norm]), the comparisons
    [==], [>=], [>], [numpy.isnan], and [int(x)], which truncates toward zero
    and raises on an infinity ([OverflowError]) or a NaN ([ValueError]). *)
Class Arith : Type := {
  num : Type;
  of_Z : Z -> num;
  half : num;
  nadd : num -> num -> num;
  nsub : num -> num -> num;
  nmul : num -> num -> num;
  ndiv : num -> num -> num;
  nsqrt : num -> num;
  neqb : num -> num -> bool;
  nleb : num -> num -> bool;
  nltb : num -> num -> bool;
  isnan : num -> bool;
  py_int : num -> Res Z
}.

(** *** IEEE binary64 *)

Definition float_of_Z (z : Z) : float :=
  if (z <? 0)%Z then PrimFloat.opp (PrimFloat.of_uint63 (Uint63.of_Z (- z)))
  else PrimFloat.of_uint63 (Uint63.of_Z z).

Definition float_int (x : float) : Res Z :=
  match Prim2SF x with
  | S754_zero _ => Ok 0%Z
  | S754_infinity _ => Raise OverflowError
  | S754_nan => Raise ValueError
  | S754_finite s m e =>
      let a := if (0 <=? e)%Z then Z.shiftl (Zpos m) e
               else Z.shiftr (Zpos m) (- e) in
      Ok (if s then (- a)%Z else a)
  end.

Definition float64 : Arith := {|
  num := float;
  of_Z := float_of_Z;
  half := 0.5%float;
  nadd := PrimFloat.add;
  nsub := PrimFloat.sub;
  nmul := PrimFloat.mul;
  ndiv := PrimFloat.div;
  nsqrt := PrimFloat.sqrt;
  neqb := PrimFloat.eqb;
  nleb := PrimFloat.leb;
  nltb := PrimFloat.ltb;
  isnan := PrimFloat.is_nan;
  py_int := float_int
|}.

(** *** Extended reals

    [Fin r] is the real [r]; the special values follow the IEEE rules, with
    one zero (no sign of zero) and no overflow. *)

Inductive xreal : Type :=
| Fin (r : R)
| PInf
| NInf
| NaN.

Definition Rsign (r : R) : comparison :=
  match total_order_T r 0 with
  | inleft (left _) => Lt
  | inleft (right _) => Eq
  | inright _ => Gt
  end.

Definition xsign (a : xreal) : option comparison :=
  match a with
  | Fin r => Some (Rsign r)
  | PInf => Some Gt
  | NInf => Some Lt
  | NaN => None
  end.

Definition xinf (c : comparison) : xreal :=
  match c with Gt => PInf | Lt => NInf | Eq => NaN end.

Definition cmul (c d : comparison) : comparison :=
  match c, d with
  | Eq, _ | _, Eq => Eq
  | Gt, Gt | Lt, Lt => Gt
  | _, _ => Lt
  end.

Definition xopp (a : xreal) : xreal :=
  match a with
  | Fin r => Fin (- r)
  | PInf => NInf
  | NInf => PInf
  | NaN => NaN
  end.

Definition xadd (a b : xreal) : xreal :=
  match a, b with
  | NaN, _ | _, NaN => NaN
  | Fin x, Fin y => Fin (x + y)
  | PInf, NInf | NInf, PInf => NaN
  | PInf, _ | _, PInf => PInf
  | NInf, _ | _, NInf => NInf
  end.

Definition xsub (a b : xreal) : xreal := xadd a (xopp b).

Definition xmul (a b : xreal) : xreal :=
  match a, b with
  | Fin x, Fin y => Fin (x * y)
  | _, _ =>
      match xsign a, xsign b with
      | Some c, Some d => xinf (cmul c d)
      | _, _ => NaN
      end
  end.

Definition xdiv (a b : xreal) : xreal :=
  match a, b with
  | NaN, _ | _, NaN => NaN
  | Fin x, Fin y =>
      match Rsign y with
      | Eq => xinf (Rsign x)
      | _ => Fin (x / y)
      end
  | Fin _, _ => Fin 0
  | _, Fin y => xinf (cmul (match a with NInf => Lt | _ => Gt end)
                           (match Rsign y with Lt => Lt | _ => Gt end))
  | _, _ => NaN
  end.

Definition xsqrt (a : xreal) : xreal :=
  match a with
  | Fin x => match Rsign x with Lt => NaN | _ => Fin (sqrt x) end
  | PInf => PInf
  | NInf | NaN => NaN
  end.

Definition xeqb (a b : xreal) : bool :=
  match a, b with
  | Fin x, Fin y => if Req_dec_T x y then true else false
  | PInf, PInf | NInf, NInf => true
  | _, _ => false
  end.

Definition xleb (a b : xreal) : bool :=
  match a, b with
  | NaN, _ | _, NaN => false
  | Fin x, Fin y => if Rle_dec x y then true else false
  | NInf, _ | _, PInf => true
  | _, _ => false
  end.

Definition xltb (a b : xreal) : bool :=
  match a, b with
  | NaN, _ | _, NaN => false
  | Fin x, Fin y => if Rlt_dec x y then true else false
  | PInf, _ | _, NInf => false
  | _, _ => true
  end.

Definition xisnan (a : xreal) : bool :=
  match a with NaN => true | _ => false end.

(** [int(x)] on a real: the integer part of [x], toward zero. *)
Definition Rtrunc (r : R) : Z :=
  if Rle_dec 0 r then Int_part r else (- Int_part (- r))%Z.

Definition xint (a : xreal) : Res Z :=
  match a with
  | Fin r => Ok (Rtrunc r)
  | PInf | NInf => Raise OverflowError
  | NaN => Raise ValueError
  end.

Definition ideal : Arith := {|
  num := xreal;
  of_Z := fun z => Fin (IZR z);
  half := Fin (/ 2);
  nadd := xadd;
  nsub := xsub;
  nmul := xmul;
  ndiv := xdiv;
  nsqrt := xsqrt;
  neqb := xeqb;
  nleb := xleb;
  nltb := xltb;
  isnan := xisnan;
  py_int := xint
|}.

(* ------------------------------------------------------------------ *)
(** ** Queries and commands

    A query reads the state and returns or raises; a command may also change
    the state, and what it changed before raising stays changed. *)

Definition Query (S A : Type) : Type := S -> Res A.
Definition M (S A : Type) : Type := S -> Res A * S.

Definition qret {S A} (a : A) : Query S A := fun _ => Ok a.
Definition qraise {S A} (e : exn) : Query S A := fun _ => Raise e.
Definition qbind {S A B} (c : Query S A) (k : A -> Query S B) : Query S B :=
  fun s => match c s with
           | Ok a => k a s
           | Raise e => Raise e
           end.
Definition ask {S} : Query S S := fun s => Ok s.
Definition qlift {S A} (r : Res A) : Query S A := fun _ => r.

Definition ret {S A} (a : A) : M S A := fun s => (Ok a, s).
Definition raise {S A} (e : exn) : M S A := fun s => (Raise e, s).
Definition bind {S A B} (c : M S A) (k : A -> M S B) : M S B :=
  fun s => match c s with
           | (Ok a, s') => k a s'
           | (Raise e, s') => (Raise e, s')
           end.
Definition get {S} : M S S := fun s => (Ok s, s).
Definition put {S} (s : S) : M S unit := fun _ => (Ok tt, s).
Definition modify {S} (f : S -> S) : M S unit := fun s => (Ok tt, f s).
Definition query {S A} (q : Query S A) : M S A := fun s => (q s, s).
Definition lift {S A} (r : Res A) : M S A := fun s => (r, s).

Declare Scope query_scope.
Delimit Scope query_scope with query.
Declare Scope cmd_scope.
Delimit Scope cmd_scope with cmd.

Notation "x <- c ;; k" := (qbind c (fun x => k))
  (at level 61, c at next level, right associativity) : query_scope.
Notation "' p <- c ;; k" := (qbind c (fun x => let 'p := x in k))
  (at level 61, p pattern, c at next level, right associativity) : query_scope.
Notation "x <- c ;; k" := (bind c (fun x => k))
  (at level 61, c at next level, right associativity) : cmd_scope.
Notation "' p <- c ;; k" := (bind c (fun x => let 'p := x in k))
  (at level 61, p pattern, c at next level, right associativity) : cmd_scope.
Notation "c ;; k" := (bind c (fun _ => k))
  (at level 61, right associativity) : cmd_scope.

(** [xs[i]] on a Python sequence: a negative index counts from the end, an
    index out of range raises [IndexError]. *)
Definition py_index {T} (xs : list T) (i : Z) : Res T :=
  let n := Z.of_nat (List.length xs) in
  let j := if (i <? 0)%Z then (i + n)%Z else i in
  if (j <? 0)%Z then Raise IndexError
  else match nth_error xs (Z.to_nat j) with
       | Some x => Ok x
       | None => Raise IndexError
       end.

(* ------------------------------------------------------------------ *)
(** ** Blender's data, as the add-on reads and writes it *)

Inductive event_type : Type := LEFTMOUSE | MOUSEMOVE | ESC | OTHER_EVENT.
Inductive event_value : Type := PRESS | RELEASE | OTHER_VALUE.
Inductive object_type : Type := MESH | OTHER_OBJECT.
Inductive object_mode : Type := VERTEX_PAINT | TEXTURE_PAINT | OTHER_MODE.
Inductive area_kind : Type := IMAGE_EDITOR | VIEW_3D | OTHER_AREA.
Inductive space_type : Type := uv_space | object_space | world_space.
Inductive status : Type := RUNNING_MODAL | FINISHED | PASS_THROUGH.

(** The two leaf classes of [FlowmapOperator]. *)
Inductive operator : Type := FLOWMAP_OT_image_editor | FLOWMAP_OT_3d_viewport.

Definition temp_mesh_name : string := "FLOWMAP_temp_mesh".
Definition temp_obj_name : string := "FLOWMAP_temp_obj".

Record Brush : Type := {
  use_pressure_strength : bool;
  use_pressure_size : bool
}.

Section Data.
Context {A : Arith}.

Definition vec2 : Type := num * num.
Definition vec3 : Type := num * num * num.

(** A mouse position: [numpy.array([event.mouse_x, event.mouse_y])], two
    integers (before the first sample, the tuple [(0, 0)]). *)
Definition pos : Type := Z * Z.

Record Event : Type := {
  type : event_type;
  value : event_value;
  mouse_x : Z;
  mouse_y : Z;
  mouse_region_x : Z;
  mouse_region_y : Z;
  pressure : num
}.

(** A face: [face.vertices] and [face.loop_indices]. *)
Record Polygon : Type := {
  face_vertices : list Z;
  loop_indices : list Z
}.

(** A mesh datablock: [polygons], [vertices] (each vertex by its [co]) and
    [uv_layers.active], which is [None] on a mesh without UV map, and else
    holds one [uv] per loop. *)
Record Mesh : Type := {
  me_name : string;
  polygons : list Polygon;
  vertices : list vec3;
  uv_layers_active : option (list vec2)
}.

(** An object datablock; [Mx] is the type of [mathutils.Matrix]. *)
Record Object (Mx : Type) : Type := {
  ob_name : string;
  ob_type : object_type;
  ob_data : Mesh;
  matrix_world : Mx;
  modifiers : list (string * string);
  hidden : bool
}.

(** The stroke element handed to [bpy.ops.paint]; the constant entries of
    the dictionary (name, is_start, pen_flip, time, tilts) are left out. *)
Record Stroke : Type := {
  st_location : vec3;
  st_mouse : vec2;
  st_pressure : num;
  st_size : num
}.

Inductive PaintOp : Type :=
| image_paint (stroke : Stroke)
| vertex_paint (stroke : Stroke).

Record UnifiedPaintSettings : Type := {
  color : vec3;
  size : num;
  use_unified_color : bool;
  use_unified_strength : bool;
  use_unified_size : bool
}.

Definition vadd (a b : vec3) : vec3 :=
  let '(a0, a1, a2) := a in let '(b0, b1, b2) := b in
  (nadd a0 b0, nadd a1 b1, nadd a2 b2).

Definition vsub (a b : vec3) : vec3 :=
  let '(a0, a1, a2) := a in let '(b0, b1, b2) := b in
  (nsub a0 b0, nsub a1 b1, nsub a2 b2).

(** [numpy.linalg.norm] of a vector of two and of three floats. *)
Definition norm2 (v : vec2) : num :=
  let '(x, y) := v in nsqrt (nadd (nmul x x) (nmul y y)).

Definition norm3 (v : vec3) : num :=
  let '(x, y, z) := v in
  nsqrt (nadd (nadd (nmul x x) (nmul y y)) (nmul z z)).

(** [True] and [False] where a number is expected. *)
Definition of_bool (b : bool) : num := of_Z (if b then 1 else 0).

(** [a / b] on two Python ints. *)
Definition py_truediv (a b : Z) : Res num :=
  if (b =? 0)%Z then Raise ZeroDivisionError else Ok (ndiv (of_Z a) (of_Z b)).

End Data.

Arguments Object {A} Mx.

(* ------------------------------------------------------------------ *)
(** ** The host

    What the add-on consumes from [mathutils], [view3d_utils], the ray caster
    and the dependency graph.  The two laws are Blender's naming rule for a
    new datablock: the name asked for when it is free, and a free one
    otherwise. *)

Class Host {A : Arith} : Type := {
  Matrix : Type;
  View : Type;
  mat_identity : Matrix;
  (** [matrix @ vector] *)
  matmul : Matrix -> vec3 -> vec3;
  (** [matrix.inverted()], which raises on a singular matrix *)
  inverted : Matrix -> Res Matrix;
  region_2d_to_vector_3d : View -> pos -> vec3;
  region_2d_to_origin_3d : View -> pos -> vec3;
  (** [obj.ray_cast(origin, direction, distance)] *)
  ray_cast : Object Matrix -> vec3 -> vec3 -> num -> bool * vec3 * vec3 * Z;
  (** [mathutils.geometry.barycentric_transform] *)
  barycentric_transform :
    vec3 -> vec3 -> vec3 -> vec3 -> vec3 -> vec3 -> vec3 -> vec3;
  (** the geometry of an object once its modifiers are evaluated *)
  evaluated_mesh : Object Matrix -> Mesh;
  unique_name : list string -> string -> string;
  unique_name_fresh : forall used n, ~ In (unique_name used n) used;
  unique_name_keep : forall used n, ~ In n used -> unique_name used n = n
}.

(* ------------------------------------------------------------------ *)
(** ** The world: [bpy.context], [bpy.data], and the operator instance *)

Section World.
Context {A : Arith} {H : Host}.

Definition Obj : Type := Object Matrix.

(** What the add-on only reads: the view, the active object (which is also
    [bpy.context.object]) and its mode, the area, the scene properties
    registered by [PROPERTIES], the brushes of the two paint modes. *)
Record Context : Type := {
  view : View;
  active_object : Obj;
  mode : object_mode;
  area_x : Z;
  area_y : Z;
  area_type : area_kind;
  flowmap_brush_spacing : num;
  flowmap_trace_distance : num;
  flowmap_space_type : space_type;
  flowmap_object : option Obj;
  vertex_paint_brush : Brush;
  image_paint_brush : Brush
}.

(** [bpy.data.meshes], [bpy.data.objects] and the objects linked to
    [bpy.context.collection]. *)
Record Data : Type := {
  meshes : list Mesh;
  objects : list Obj;
  collection : list string
}.

(** The attributes of the operator instance. *)
Record Self : Type := {
  furthest_position : pos;
  mouse_prev_position : pos;
  pressing : bool;
  cursor : option nat;
  tri_obj : option Obj
}.

(** [draw_handlers]: the registered cursor callbacks, each with its handle,
    the space type it was added to and the position it draws at.  [strokes]:
    the calls made to [bpy.ops.paint], oldest first.  [dots]: the calls made to
    [paint_a_dot], oldest first, each with its [mouse_position] and
    [location]; this trace is not data of the program, it records what the
    interpolator emitted. *)
Record World : Type := {
  context : Context;
  unified_paint_settings : UnifiedPaintSettings;
  data : Data;
  draw_handlers : list (nat * area_kind * pos);
  next_handle : nat;
  strokes : list PaintOp;
  dots : list (vec2 * option vec3);
  self : Self
}.

Definition set_color (c : vec3) (w : World) : World :=
  let u := unified_paint_settings w in
  {| context := context w;
     unified_paint_settings :=
       {| color := c; size := size u;
          use_unified_color := use_unified_color u;
          use_unified_strength := use_unified_strength u;
          use_unified_size := use_unified_size u |};
     data := data w; draw_handlers := draw_handlers w;
     next_handle := next_handle w; strokes := strokes w; dots := dots w;
     self := self w |}.

Definition set_unified (w : World) : World :=
  let u := unified_paint_settings w in
  {| context := context w;
     unified_paint_settings :=
       {| color := color u; size := size u;
          use_unified_color := true;
          use_unified_strength := true;
          use_unified_size := true |};
     data := data w; draw_handlers := draw_handlers w;
     next_handle := next_handle w; strokes := strokes w; dots := dots w;
     self := self w |}.

Definition set_data (d : Data) (w : World) : World :=
  {| context := context w;
     unified_paint_settings := unified_paint_settings w;
     data := d; draw_handlers := draw_handlers w;
     next_handle := next_handle w; strokes := strokes w; dots := dots w;
     self := self w |}.

Definition set_draw_handlers (hs : list (nat * area_kind * pos)) (n : nat)
  (w : World) : World :=
  {| context := context w;
     unified_paint_settings := unified_paint_settings w;
     data := data w; draw_handlers := hs;
     next_handle := n; strokes := strokes w; dots := dots w;
     self := self w |}.

Definition add_stroke (op : PaintOp) (w : World) : World :=
  {| context := context w;
     unified_paint_settings := unified_paint_settings w;
     data := data w; draw_handlers := draw_handlers w;
     next_handle := next_handle w; strokes := strokes w ++ [op];
     dots := dots w; self := self w |}.

Definition add_dot (d : vec2 * option vec3) (w : World) : World :=
  {| context := context w;
     unified_paint_settings := unified_paint_settings w;
     data := data w; draw_handlers := draw_handlers w;
     next_handle := next_handle w; strokes := strokes w;
     dots := dots w ++ [d]; self := self w |}.

Definition set_self (s : Self) (w : World) : World :=
  {| context := context w;
     unified_paint_settings := unified_paint_settings w;
     data := data w; draw_handlers := draw_handlers w;
     next_handle := next_handle w; strokes := strokes w; dots := dots w;
     self := s |}.

Definition set_furthest_position (p : pos) (s : Self) : Self :=
  {| furthest_position := p; mouse_prev_position := mouse_prev_position s;
     pressing := pressing s; cursor := cursor s; tri_obj := tri_obj s |}.

Definition set_mouse_prev_position (p : pos) (s : Self) : Self :=
  {| furthest_position := furthest_position s; mouse_prev_position := p;
     pressing := pressing s; cursor := cursor s; tri_obj := tri_obj s |}.

Definition set_pressing (b : bool) (s : Self) : Self :=
  {| furthest_position := furthest_position s;
     mouse_prev_position := mouse_prev_position s;
     pressing := b; cursor := cursor s; tri_obj := tri_obj s |}.

Definition set_cursor (c : option nat) (s : Self) : Self :=
  {| furthest_position := furthest_position s;
     mouse_prev_position := mouse_prev_position s;
     pressing := pressing s; cursor := c; tri_obj := tri_obj s |}.

Definition set_tri_obj (o : option Obj) (s : Self) : Self :=
  {| furthest_position := furthest_position s;
     mouse_prev_position := mouse_prev_position s;
     pressing := pressing s; cursor := cursor s; tri_obj := o |}.

Definition Cmd (T : Type) : Type := M World T.
Definition Qry (T : Type) : Type := Query World T.

Definition modify_self (f : Self -> Self) : Cmd unit :=
  modify (fun w => set_self (f (self w)) w).

Definition modify_data (f : Data -> Data) : Cmd unit :=
  modify (fun w => set_data (f (data w)) w).

(** *** Collections of [bpy.data] *)

Definition coll_get {T} (name : T -> string) (l : list T) (n : string)
  : option T :=
  find (fun x => String.eqb (name x) n) l.

(** Removal of one datablock, found by its name. *)
Fixpoint coll_remove {T} (name : T -> string) (n : string) (l : list T)
  : list T :=
  match l with
  | [] => []
  | x :: l' => if String.eqb (name x) n then l' else x :: coll_remove name n l'
  end.

Definition uses_mesh (m : Mesh) (o : Obj) : bool :=
  String.eqb (me_name (ob_data o)) (me_name m).

Definition unlink (gone : list string) (c : list string) : list string :=
  filter (fun n => negb (existsb (String.eqb n) gone)) c.

(** [bpy.data.meshes.remove(m)]: with the default [do_unlink=True] Blender
    deletes the objects that use the mesh along with it. *)
Definition meshes_remove (m : Mesh) (d : Data) : Data :=
  let gone := filter (uses_mesh m) (objects d) in
  {| meshes := coll_remove me_name (me_name m) (meshes d);
     objects := filter (fun o => negb (uses_mesh m o)) (objects d);
     collection := unlink (map (@ob_name _ _) gone) (collection d) |}.

(** [bpy.data.objects.remove(o)]. *)
Definition objects_remove (o : Obj) (d : Data) : Data :=
  {| meshes := meshes d;
     objects := coll_remove (@ob_name _ _) (ob_name o) (objects d);
     collection := unlink [ob_name o] (collection d) |}.

Definition rename_mesh (n : string) (m : Mesh) : Mesh :=
  {| me_name := n; polygons := polygons m; vertices := vertices m;
     uv_layers_active := uv_layers_active m |}.

(** A new mesh datablock with the geometry of [m], under the name the host
    gives it. *)
Definition meshes_new (m : Mesh) : Cmd Mesh :=
  (w <- get ;;
   let d := data w in
   let m' := rename_mesh (unique_name (map me_name (meshes d)) (me_name m)) m in
   modify_data (fun d => {| meshes := meshes d ++ [m'];
                            objects := objects d;
                            collection := collection d |}) ;;
   ret m')%cmd.

(** A new object datablock, equal to [o] but for its name. *)
Definition objects_new (o : Obj) : Cmd Obj :=
  (w <- get ;;
   let d := data w in
   let o' := {| ob_name := unique_name (map (@ob_name _ _) (objects d)) (ob_name o);
                ob_type := ob_type o; ob_data := ob_data o;
                matrix_world := matrix_world o; modifiers := modifiers o;
                hidden := hidden o |} in
   modify_data (fun d => {| meshes := meshes d;
                            objects := objects d ++ [o'];
                            collection := collection d |}) ;;
   ret o')%cmd.

(** An assignment to attributes of the object datablock named [n]; the
    updated datablock is returned. *)
Definition objects_update (o : Obj) (f : Obj -> Obj) : Cmd Obj :=
  (modify_data (fun d =>
     {| meshes := meshes d;
        objects := map (fun x => if String.eqb (ob_name x) (ob_name o)
                                 then f x else x) (objects d);
        collection := collection d |}) ;;
   ret (f o))%cmd.

(** [bpy.context.collection.objects.link(o)]. *)
Definition link (o : Obj) : Cmd unit :=
  modify_data (fun d => {| meshes := meshes d; objects := objects d;
                           collection := collection d ++ [ob_name o] |}).

End World.

(* ------------------------------------------------------------------ *)
(** ** The functions of the module *)

Section Functions.
Context {A : Arith} {H : Host}.

(** [lerp(mix, a, b)] *)
Definition lerp (mix a b : num) : num := nadd (nmul (nsub b a) mix) a.

(** [remove_temp_obj()]: each removal is guarded by a lookup; the second
    lookup sees the store as the first removal left it. *)
Definition remove_temp_obj : Cmd unit :=
  (w <- get ;;
   match coll_get me_name (meshes (data w)) temp_mesh_name with
   | Some m => modify_data (meshes_remove m)
   | None => ret tt
   end ;;
   w <- get ;;
   match coll_get (@ob_name _ _) (objects (data w)) temp_obj_name with
   | Some o => modify_data (objects_remove o)
   | None => ret tt
   end)%cmd.

Definition set_ob_data (m : Mesh) (o : Obj) : Obj :=
  {| ob_name := ob_name o; ob_type := ob_type o; ob_data := m;
     matrix_world := matrix_world o; modifiers := modifiers o;
     hidden := hidden o |}.

Definition add_modifier (n k : string) (o : Obj) : Obj :=
  {| ob_name := ob_name o; ob_type := ob_type o; ob_data := ob_data o;
     matrix_world := matrix_world o; modifiers := modifiers o ++ [(n, k)];
     hidden := hidden o |}.

Definition set_matrix_world (m : Matrix) (o : Obj) : Obj :=
  {| ob_name := ob_name o; ob_type := ob_type o; ob_data := ob_data o;
     matrix_world := m; modifiers := modifiers o; hidden := hidden o |}.

Definition hide_set (b : bool) (o : Obj) : Obj :=
  {| ob_name := ob_name o; ob_type := ob_type o; ob_data := ob_data o;
     matrix_world := matrix_world o; modifiers := modifiers o; hidden := b |}.

(** [triangulate_object(template_ob)].  The module-level name [tri_obj] the
    source also binds is read nowhere and is not modelled. *)
Definition triangulate_object (template_ob : Obj) : Cmd Obj :=
  (remove_temp_obj ;;
   ob <- objects_new template_ob ;;
   me <- meshes_new (ob_data ob) ;;
   ob <- objects_update ob (set_ob_data me) ;;
   ob <- objects_update ob (add_modifier "triangulate" "TRIANGULATE") ;;
   link ob ;;
   mesh_from_eval <- meshes_new (evaluated_mesh ob) ;;
   ob <- objects_update ob (set_ob_data mesh_from_eval) ;;
   tri_obj <- objects_new {| ob_name := temp_obj_name; ob_type := MESH;
                             ob_data := mesh_from_eval;
                             matrix_world := mat_identity;
                             modifiers := []; hidden := false |} ;;
   link tri_obj ;;
   tri_obj <- objects_update tri_obj
                (set_matrix_world (matrix_world template_ob)) ;;
   modify_data (objects_remove ob) ;;
   tri_obj <- objects_update tri_obj (hide_set true) ;;
   ret tri_obj)%cmd.

(** [obj_ray_cast(context, area_pos, obj, matrix)]: the hit as
    [(location, normal, face_index)], or [(None, None, None)]. *)
Definition obj_ray_cast (area_pos : pos) (obj : option Obj) (matrix : Matrix)
  : Qry (option (vec3 * vec3 * Z)) :=
  (w <- ask ;;
   let coord := area_pos in
   let view_vector := region_2d_to_vector_3d (view (context w)) coord in
   let ray_origin := region_2d_to_origin_3d (view (context w)) coord in
   let ray_target := vadd ray_origin view_vector in
   matrix_inv <- qlift (inverted matrix) ;;
   let ray_origin_obj := matmul matrix_inv ray_origin in
   let ray_target_obj := matmul matrix_inv ray_target in
   let ray_direction_obj := vsub ray_target_obj ray_origin_obj in
   match obj with
   | None => qraise AttributeError
   | Some o =>
       let '(success, location, normal, face_index) :=
         ray_cast o ray_origin_obj ray_direction_obj
           (flowmap_trace_distance (context w)) in
       if success then qret (Some (location, normal, face_index))
       else qret None
   end)%query.

(** What [line_trace_for_pos] hands back: a pair, or the bare [None] of a
    function that ends without [return]. *)
Inductive trace_result : Type :=
| PyNone
| PyPair (hit hit_world : option vec3).

(** [a, b = r] *)
Definition unpack2 (r : trace_result) : Res (option vec3 * option vec3) :=
  match r with
  | PyNone => Raise TypeError
  | PyPair a b => Ok (a, b)
  end.

(** [line_trace_for_pos(context, area_pos, tri_obj)] *)
Definition line_trace_for_pos (area_pos : pos) (tri_obj : option Obj)
  : Qry trace_result :=
  (w <- ask ;;
   let obj := active_object (context w) in
   let matrix := matrix_world obj in
   match ob_type obj with
   | MESH =>
       r <- obj_ray_cast area_pos tri_obj matrix ;;
       match r with
       | Some (hit, normal, face_index) =>
           qret (PyPair (Some hit) (Some (matmul matrix hit)))
       | None => qret (PyPair None None)
       end
   | OTHER_OBJECT => qret PyNone
   end)%query.

(** The loop of [pos_to_uv_co] over [zip(face.vertices, face.loop_indices)]:
    it reads the active UV layer first, then the vertex. *)
Fixpoint face_corners (obj : Obj) (matrix_world : Matrix)
  (corners : list (Z * Z)) (face_verts uv_verts : list vec3)
  : Res (list vec3 * list vec3) :=
  match corners with
  | [] => Ok (face_verts, uv_verts)
  | (vert_idx, loop_idx) :: rest =>
      match uv_layers_active (ob_data obj) with
      | None => Raise AttributeError
      | Some uv_data =>
          match py_index uv_data loop_idx with
          | Raise e => Raise e
          | Ok (u, v) =>
              match py_index (vertices (ob_data obj)) vert_idx with
              | Raise e => Raise e
              | Ok co =>
                  face_corners obj matrix_world rest
                    (face_verts ++ [matmul matrix_world co])
                    (uv_verts ++ [(u, v, of_Z 0)])
              end
          end
      end
  end.

Definition rbind {T U} (r : Res T) (k : T -> Res U) : Res U :=
  match r with
  | Ok a => k a
  | Raise e => Raise e
  end.

(** [pos_to_uv_co(obj, matrix_world, world_pos, face_index)] *)
Definition pos_to_uv_co (obj : option Obj) (matrix_world : Matrix)
  (world_pos : vec3) (face_index : Z) : Res vec3 :=
  match obj with
  | None => Raise AttributeError
  | Some obj =>
      rbind (py_index (polygons (ob_data obj)) face_index) (fun face =>
      rbind (face_corners obj matrix_world
               (combine (face_vertices face) (loop_indices face)) [] [])
            (fun '(face_verts, uv_verts) =>
      rbind (py_index face_verts 0) (fun a1 =>
      rbind (py_index face_verts 1) (fun a2 =>
      rbind (py_index face_verts 2) (fun a3 =>
      rbind (py_index uv_verts 0) (fun b1 =>
      rbind (py_index uv_verts 1) (fun b2 =>
      rbind (py_index uv_verts 2) (fun b3 =>
      Ok (barycentric_transform world_pos a1 a2 a3 b1 b2 b3)))))))))
  end.

(** [line_trace_for_uv(context, area_pos, tri_obj)]: [(uv_co, hit)] *)
Definition line_trace_for_uv (area_pos : pos) (tri_obj : option Obj)
  : Qry (option vec3 * option vec3) :=
  (w <- ask ;;
   let obj := active_object (context w) in
   let matrix := matrix_world obj in
   match ob_type obj with
   | MESH =>
       r <- obj_ray_cast area_pos tri_obj matrix ;;
       match r with
       | Some (hit, normal, face_index) =>
           let hit_world := matmul matrix hit in
           uv_co <- qlift (pos_to_uv_co tri_obj (matrix_world obj)
                             hit_world face_index) ;;
           qret (Some uv_co, Some hit)
       | None => qret (None, None)
       end
   | OTHER_OBJECT => qret (None, None)
   end)%query.

(** [(unit + 1) * 0.5], on one channel. *)
Definition color_range (unit : num) : num := nmul (nadd unit (of_Z 1)) half.

(** The tail of [get_uv_space_direction_color], from the two UV positions
    on: [None] when the norm of their difference is zero. *)
Definition direction_color2 (uv_pos uv_prev_pos : vec2) : option vec3 :=
  let uv_direction_vector :=
    (nsub (fst uv_pos) (fst uv_prev_pos), nsub (snd uv_pos) (snd uv_prev_pos)) in
  let norm_factor := norm2 uv_direction_vector in
  if neqb norm_factor (of_Z 0) then None
  else
    let '(d0, d1) := uv_direction_vector in
    Some (color_range (ndiv d0 norm_factor),
          color_range (ndiv d1 norm_factor), of_Z 0).

(** [get_uv_space_direction_color(context, area_pos, area_prev_pos, tri_obj)] *)
Definition get_uv_space_direction_color (area_pos area_prev_pos : pos)
  (tri_obj : option Obj) : Qry (option vec3 * option vec3) :=
  ('(uv_pos, hit_world) <- line_trace_for_uv area_pos tri_obj ;;
   '(uv_prev_pos, _) <- line_trace_for_uv area_prev_pos tri_obj ;;
   match uv_pos, uv_prev_pos with
   | Some (p0, p1, _), Some (q0, q1, _) =>
       match direction_color2 (p0, p1) (q0, q1) with
       | None => qret (None, None)
       | Some direction_color => qret (Some direction_color, hit_world)
       end
   | _, _ => qret (None, None)
   end)%query.

(** The tail shared by the two 3D encoders, from the two positions on. *)
Definition direction_color3 (pos prev_pos : vec3) : option vec3 :=
  let world_direction_vector := vsub pos prev_pos in
  let norm_factor := norm3 world_direction_vector in
  if neqb norm_factor (of_Z 0) then None
  else
    let '(d0, d1, d2) := world_direction_vector in
    Some (color_range (ndiv d0 norm_factor),
          color_range (ndiv d1 norm_factor),
          color_range (ndiv d2 norm_factor)).

(** [get_obj_space_direction_color(context, area_pos, area_prev_pos, tri_obj)] *)
Definition get_obj_space_direction_color (area_pos area_prev_pos : pos)
  (tri_obj : option Obj) : Qry (option vec3 * option vec3) :=
  (w <- ask ;;
   r <- line_trace_for_pos area_pos tri_obj ;;
   '(location, hit_world) <- qlift (unpack2 r) ;;
   r' <- line_trace_for_pos area_prev_pos tri_obj ;;
   '(_, prev_hit_world) <- qlift (unpack2 r') ;;
   match hit_world, prev_hit_world with
   | Some hit_world, Some prev_hit_world =>
       let obj := match flowmap_object (context w) with
                  | None => active_object (context w)
                  | Some o => o
                  end in
       matrix <- qlift (inverted (matrix_world obj)) ;;
       let hit_obj := matmul matrix hit_world in
       let prev_hit_obj := matmul matrix prev_hit_world in
       match direction_color3 hit_obj prev_hit_obj with
       | None => qret (None, None)
       | Some direction_color => qret (Some direction_color, location)
       end
   | _, _ => qret (None, None)
   end)%query.

(** [get_world_space_direction_color(context, area_pos, area_prev_pos, tri_obj)] *)
Definition get_world_space_direction_color (area_pos area_prev_pos : pos)
  (tri_obj : option Obj) : Qry (option vec3 * option vec3) :=
  (r <- line_trace_for_pos area_pos tri_obj ;;
   '(location, hit_world) <- qlift (unpack2 r) ;;
   r' <- line_trace_for_pos area_prev_pos tri_obj ;;
   '(_, prev_hit_world) <- qlift (unpack2 r') ;;
   match hit_world, prev_hit_world with
   | Some hit_world, Some prev_hit_world =>
       match direction_color3 hit_world prev_hit_world with
       | None => qret (None, None)
       | Some direction_color => qret (Some direction_color, location)
       end
   | _, _ => qret (None, None)
   end)%query.

(** [paint_a_dot(mouse_position, event, location=None)] *)
Definition paint_a_dot (mouse_position : vec2) (event : Event)
  (location : option vec3) : Cmd unit :=
  (modify (add_dot (mouse_position, location)) ;;
   w <- get ;;
   let c := context w in
   let brush :=
     match mode c with
     | VERTEX_PAINT => Some (vertex_paint_brush c)
     | TEXTURE_PAINT => Some (image_paint_brush c)
     | OTHER_MODE => None
     end in
   match brush with
   | None => ret tt
   | Some brush =>
       let ups := unified_paint_settings w in
       let pressure0 := of_bool (use_unified_strength ups) in
       let pressure1 :=
         if use_pressure_strength brush then nmul pressure0 (pressure event)
         else pressure0 in
       let size1 :=
         if use_pressure_size brush then nmul (size ups) (pressure event)
         else size ups in
       let stroke :=
         {| st_location := match location with
                           | Some l => l
                           | None => (of_Z 0, of_Z 0, of_Z 0)
                           end;
            st_mouse := (nsub (fst mouse_position) (of_Z (area_x c)),
                         nsub (snd mouse_position) (of_Z (area_y c)));
            st_pressure := pressure1;
            st_size := size1 |} in
       match mode c, location with
       | TEXTURE_PAINT, _ => modify (add_stroke (image_paint stroke))
       | VERTEX_PAINT, Some _ => modify (add_stroke (vertex_paint stroke))
       | _, _ => ret tt
       end
   end)%cmd.

(** [get_cursor_target()]: the space type of the area, [None] for an area
    that is neither the image editor nor the 3D view. *)
Definition get_cursor_target (w : World) : option area_kind :=
  match area_type (context w) with
  | IMAGE_EDITOR => Some IMAGE_EDITOR
  | VIEW_3D => Some VIEW_3D
  | OTHER_AREA => None
  end.

End Functions.

(* ------------------------------------------------------------------ *)
(** ** The operators *)

Section Operators.
Context {A : Arith} {H : Host}.

(** [clear_cursor(self)] *)
Definition clear_cursor : Cmd unit :=
  (w <- get ;;
   match cursor (self w) with
   | Some handle =>
       match get_cursor_target w with
       | None => raise AttributeError
       | Some _ =>
           modify (fun w =>
             set_draw_handlers
               (filter (fun h => negb (Nat.eqb (fst (fst h)) handle))
                       (draw_handlers w))
               (next_handle w) w) ;;
           modify_self (set_cursor None)
       end
   | None => ret tt
   end)%cmd.

(** [redraw_cursor(self, pos)] *)
Definition redraw_cursor (p : pos) : Cmd unit :=
  (clear_cursor ;;
   w <- get ;;
   match get_cursor_target w with
   | None => raise AttributeError
   | Some target =>
       let handle := next_handle w in
       modify (set_draw_handlers (draw_handlers w ++ [(handle, target, p)])
                                 (S handle)) ;;
       modify_self (set_cursor (Some handle))
   end)%cmd.

(** [startup(self)] and [cleanup(self)]: nothing in the base class, the
    temporary object in the 3D operator. *)
Definition startup (op : operator) : Cmd unit :=
  match op with
  | FLOWMAP_OT_image_editor => ret tt
  | FLOWMAP_OT_3d_viewport =>
      (w <- get ;;
       tri_obj <- triangulate_object (active_object (context w)) ;;
       modify_self (set_tri_obj (Some tri_obj)))%cmd
  end.

Definition cleanup (op : operator) : Cmd unit :=
  match op with
  | FLOWMAP_OT_image_editor => ret tt
  | FLOWMAP_OT_3d_viewport => remove_temp_obj
  end.

(** [get_direction_color(self, context, mouse_position, mouse_prev_position)]
    of the two operators.  The 3D operator reads [self.mouse_prev_position]
    and not its last argument. *)
Definition get_direction_color (op : operator)
  (mouse_position prev_position : pos)
  : Qry (option vec3 * option vec3) :=
  match op with
  | FLOWMAP_OT_image_editor =>
      let d0 := (fst mouse_position - fst prev_position)%Z in
      let d1 := (snd mouse_position - snd prev_position)%Z in
      let norm_factor := norm2 (of_Z d0, of_Z d1) in
      let '(n0, n1) :=
        if neqb norm_factor (of_Z 0) then (of_Z 0, of_Z 0)
        else (ndiv (of_Z d0) norm_factor, ndiv (of_Z d1) norm_factor) in
      qret (Some (color_range n0, color_range n1, of_Z 0), None)
  | FLOWMAP_OT_3d_viewport =>
      (w <- ask ;;
       let c := context w in
       let prev := mouse_prev_position (self w) in
       let area_pos :=
         (fst mouse_position - area_x c, snd mouse_position - area_y c)%Z in
       let area_prev_pos := (fst prev - area_x c, snd prev - area_y c)%Z in
       match flowmap_space_type c with
       | uv_space =>
           get_uv_space_direction_color area_pos area_prev_pos
             (tri_obj (self w))
       | object_space =>
           get_obj_space_direction_color area_pos area_prev_pos
             (tri_obj (self w))
       | world_space =>
           get_world_space_direction_color area_pos area_prev_pos
             (tri_obj (self w))
       end)%query
  end.

(** The [while substep_count > 0] loop of [modal]. *)
Fixpoint substeps (substeps_int : Z) (substep_count : nat)
  (prev_position mouse_position : pos) (event : Event)
  (location : option vec3) : Cmd unit :=
  match substep_count with
  | O => ret tt
  | S k =>
      (q <- lift (py_truediv 1 substeps_int) ;;
       let lerp_mix := nmul q (of_Z (Z.of_nat substep_count)) in
       let lerp_paint_position :=
         (lerp lerp_mix (of_Z (fst prev_position))
                        (of_Z (fst mouse_position)),
          lerp lerp_mix (of_Z (snd prev_position))
                        (of_Z (snd mouse_position))) in
       paint_a_dot lerp_paint_position event location ;;
       substeps substeps_int k prev_position mouse_position event
                location)%cmd
  end.

Definition any_isnan (c : vec3) : bool :=
  let '(c0, c1, c2) := c in isnan c0 || isnan c1 || isnan c2.

(** The guard of [modal] on the brush colour: [direction_color] is written
    to [unified_paint_settings.color] unless it is [None] or holds a NaN. *)
Definition set_brush_color (direction_color : option vec3) : Cmd unit :=
  match direction_color with
  | Some c => if any_isnan c then ret tt else modify (set_color c)
  | None => ret tt
  end.

(** The block of [modal] under [if self.pressing:]. *)
Definition paint_dots (distance spacing : num) (mouse_position : pos)
  (event : Event) (location : option vec3) : Cmd unit :=
  (w <- get ;;
   if pressing (self w) then
     let substeps_float := ndiv distance spacing in
     substeps_int <- lift (py_int substeps_float) ;;
     if nltb (nmul (of_Z 2) spacing) distance then
       substeps substeps_int (Z.to_nat substeps_int)
         (mouse_prev_position (self w)) mouse_position event location
     else
       paint_a_dot (of_Z (fst mouse_position), of_Z (snd mouse_position))
         event location
   else ret tt)%cmd.

(** [distance = numpy.linalg.norm(self.furthest_position - mouse_position)] *)
Definition distance_to (furthest mouse_position : pos) : num :=
  norm2 (of_Z (fst furthest - fst mouse_position),
         of_Z (snd furthest - snd mouse_position)).

(** The block of [modal] under [if distance >= flowmap_brush_spacing:]. *)
Definition commit_sample (op : operator) (distance spacing : num)
  (mouse_position : pos) (event : Event) : Cmd unit :=
  (modify_self (set_furthest_position mouse_position) ;;
   w <- get ;;
   ' (direction_color, location) <-
     query (get_direction_color op mouse_position
              (mouse_prev_position (self w))) ;;
   set_brush_color direction_color ;;
   paint_dots distance spacing mouse_position event location ;;
   modify_self (set_mouse_prev_position mouse_position))%cmd.

(** The branch of [modal] for [MOUSEMOVE], and for a [LEFTMOUSE] event that
    is neither a press nor a release. *)
Definition position_update (op : operator) (event : Event) : Cmd status :=
  (let mouse_position := (mouse_x event, mouse_y event) in
   w <- get ;;
   let spacing := flowmap_brush_spacing (context w) in
   let distance := distance_to (furthest_position (self w)) mouse_position in
   (if nleb spacing distance then
      commit_sample op distance spacing mouse_position event
    else ret tt) ;;
   redraw_cursor (mouse_region_x event, mouse_region_y event) ;;
   ret RUNNING_MODAL)%cmd.

(** [modal(self, context, event)] *)
Definition modal (op : operator) (event : Event) : Cmd status :=
  match type event, value event with
  | LEFTMOUSE, PRESS =>
      (modify_self (set_furthest_position (mouse_x event, mouse_y event)) ;;
       modify_self (set_pressing true) ;;
       ret RUNNING_MODAL)%cmd
  | LEFTMOUSE, RELEASE =>
      (modify_self (set_pressing false) ;;
       ret RUNNING_MODAL)%cmd
  | MOUSEMOVE, _ | LEFTMOUSE, _ => position_update op event
  | ESC, _ =>
      (modify (set_color (half, half, half)) ;;
       clear_cursor ;;
       cleanup op ;;
       ret FINISHED)%cmd
  | OTHER_EVENT, _ => ret PASS_THROUGH
  end.

(** [invoke(self, context, event)]; the registration of the modal handler
    and the window cursor are left to the host. *)
Definition invoke (op : operator) (event : Event) : Cmd status :=
  (modify_self (set_pressing false) ;;
   modify set_unified ;;
   startup op ;;
   ret RUNNING_MODAL)%cmd.

(** A session after [invoke]: the events the host delivers, in order, until
    one raises or [modal] returns [FINISHED]. *)
Fixpoint run (op : operator) (events : list Event) : Cmd status :=
  match events with
  | [] => ret RUNNING_MODAL
  | e :: rest =>
      (r <- modal op e ;;
       match r with
       | FINISHED => ret FINISHED
       | _ => run op rest
       end)%cmd
  end.

End Operators.

(* ------------------------------------------------------------------ *)
(** ** The panel *)

(** A decimal literal of the source: [digits] times ten to the minus
    [places] ([0.55] is [55] with two places). *)
Record decimal : Type := { digits : Z; places : nat }.

(** The layout elements [FlowmapPanel.draw] builds, under the names it binds
    them to, and the calls it makes on them, in order. *)
Inductive ui_element : Type :=
| layout | split1 | split2 | column1 | column2 | column3
| splitexit | splitcol1 | splitcol2 | txt1 | txt2.

Inductive ui_call : Type :=
| ui_split (parent new : ui_element) (factor : decimal)
| ui_column (parent new : ui_element)
| ui_row (parent new : ui_element)
| ui_label (on : ui_element) (text icon : option string)
| ui_prop (on : ui_element) (property : string) (slider : bool)
| ui_prop_search (on : ui_element) (property search_property : string)
| ui_operator (on : ui_element) (idname text icon : string)
| ui_separator (on : ui_element)
| ui_set_active (on : ui_element) (active : bool).

Section Panel.
Context {A : Arith} {H : Host}.

(** [FlowmapPanel.draw(self, context)] *)
Definition draw (c : Context) : list ui_call :=
  let in_view_3d (calls : list ui_call) : list ui_call :=
    match area_type c with VIEW_3D => calls | _ => [] end in
  [ ui_split layout split1 {| digits := 55; places := 2 |};
    ui_split split1 split2 {| digits := 15; places := 2 |};
    ui_column split2 column1;
    ui_column split2 column2;
    ui_column split1 column3 ]
  ++ in_view_3d
       ([ ui_label column1 None (Some "ORIENTATION_GLOBAL"%string);
          ui_label column2 (Some "Space Type"%string) None;
          ui_prop column3 "flowmap_space_type" false ]
        ++ match flowmap_space_type c with
           | object_space =>
               [ ui_label column1 (Some EmptyString) None;
                 ui_label column2 (Some "Object"%string) None;
                 ui_prop_search column3 "flowmap_object" "objects" ]
           | _ => []
           end)
  ++ [ ui_label column1 None (Some "ONIONSKIN_ON"%string);
       ui_label column2 (Some "Brush Spacing"%string) None;
       ui_prop column3 "flowmap_brush_spacing" true ]
  ++ in_view_3d
       [ ui_label column1 None (Some "CON_TRACKTO"%string);
         ui_label column2 (Some "Trace Distance"%string) None;
         ui_prop column3 "flowmap_trace_distance" true ]
  ++ [ ui_separator layout;
       ui_split layout splitexit {| digits := 78; places := 3 |};
       ui_column splitexit splitcol1;
       ui_column splitexit splitcol2;
       ui_label splitcol1 None (Some "EVENT_ESC"%string);
       ui_row splitcol2 txt1;
       ui_set_active txt1 false;
       ui_label txt1 (Some "press ESC to Exit"%string) None;
       ui_label splitcol1 (Some EmptyString) None;
       ui_row splitcol2 txt2;
       ui_set_active txt2 false;
       ui_label txt2 (Some "Flowmap painting mode"%string) None;
       ui_separator layout ]
  ++ match area_type c with
     | IMAGE_EDITOR =>
         [ ui_operator layout "flowmap.image_editor" "Start Flowmap Mode"
             "ANIM_DATA" ]
     | _ => []
     end
  ++ match area_type c with
     | VIEW_3D =>
         [ ui_operator layout "flowmap.3d_viewport" "Start Flowmap Mode"
             "ANIM_DATA" ]
     | _ => []
     end
  ++ [ ui_separator layout ].

End Panel.

(** The widgets a list of calls puts on the element [el]. *)
Definition widgets_on (el : ui_element) (calls : list ui_call)
  : list ui_call :=
  filter (fun u => match u with
                   | ui_label on _ _ | ui_prop on _ _ | ui_prop_search on _ _
                   | ui_operator on _ _ _ =>
                       match on, el with
                       | column1, column1 | column2, column2
                       | column3, column3 | layout, layout => true
                       | _, _ => false
                       end
                   | _ => false
                   end) calls.

(** The scene properties and the operators a list of calls shows. *)
Definition shown_properties (calls : list ui_call) : list string :=
  flat_map (fun u => match u with
                     | ui_prop _ n _ | ui_prop_search _ n _ => [n]
                     | _ => []
                     end) calls.

Definition shown_operators (calls : list ui_call) : list string :=
  flat_map (fun u => match u with
                     | ui_operator _ idname _ _ => [idname]
                     | _ => []
                     end) calls.

(** The three panels: [bl_space_type] and [bl_context]. *)
Inductive panel : Type :=
| FLOWMAP_PT_image_paint | FLOWMAP_PT_texture_paint | FLOWMAP_PT_vertex_paint.

Definition bl_space_type (p : panel) : area_kind :=
  match p with
  | FLOWMAP_PT_image_paint => IMAGE_EDITOR
  | FLOWMAP_PT_texture_paint | FLOWMAP_PT_vertex_paint => VIEW_3D
  end.

Definition bl_context (p : panel) : string :=
  match p with
  | FLOWMAP_PT_image_paint => ".imagepaint_2d"
  | FLOWMAP_PT_texture_paint => "imagepaint"
  | FLOWMAP_PT_vertex_paint => "vertexpaint"
  end.

(** [bl_idname] of the two operators. *)
Definition bl_idname (op : operator) : string :=
  match op with
  | FLOWMAP_OT_image_editor => "flowmap.image_editor"
  | FLOWMAP_OT_3d_viewport => "flowmap.3d_viewport"
  end.

(* ------------------------------------------------------------------ *)
(** ** Registration *)

(** The entries of [PROPERTIES]; the [name] and [description] texts are
    left out. *)
Inductive property : Type :=
| FloatProperty (default min : decimal) (soft_min soft_max : option decimal)
    (subtype unit : option string)
| EnumProperty (items : list (string * string * string * Z)) (default : Z)
| PointerProperty (type : string).

Definition PROPERTIES : list (string * property) :=
  [ ("flowmap_brush_spacing",
     FloatProperty {| digits := 20; places := 0 |}
                   {| digits := 0; places := 0 |}
                   (Some {| digits := 1; places := 1 |})
                   (Some {| digits := 100; places := 0 |})
                   (Some "PIXEL") None);
    ("flowmap_trace_distance",
     FloatProperty {| digits := 1000; places := 0 |}
                   {| digits := 0; places := 0 |}
                   None
                   (Some {| digits := 10000; places := 0 |})
                   None (Some "LENGTH"));
    ("flowmap_space_type",
     EnumProperty [ ("uv_space", "UV Space", "UV", 0);
                    ("object_space", "Object Space", "OBJECT_DATAMODE", 1);
                    ("world_space", "World Space", "WORLD_DATA", 2) ]%Z 0);
    ("flowmap_object", PointerProperty "Object") ]%string.

Inductive addon_class : Type :=
| operator_class (op : operator)
| panel_class (p : panel).

Definition CLASSES : list addon_class :=
  [ operator_class FLOWMAP_OT_image_editor;
    operator_class FLOWMAP_OT_3d_viewport;
    panel_class FLOWMAP_PT_image_paint;
    panel_class FLOWMAP_PT_texture_paint;
    panel_class FLOWMAP_PT_vertex_paint ].

(** What registration changes: the attributes set on [bpy.types.Scene] and
    the classes registered with Blender. *)
Record Registry : Type := {
  scene_attrs : list (string * property);
  registered : list addon_class
}.

(** [bpy.utils.register_class] and [bpy.utils.unregister_class].  Of the
    host only the successful cases are fixed: a class that is not registered
    is added, a registered one is removed.  What the host raises otherwise is
    left to it. *)
Definition class_eqb (a b : addon_class) : bool :=
  match a, b with
  | operator_class FLOWMAP_OT_image_editor,
    operator_class FLOWMAP_OT_image_editor
  | operator_class FLOWMAP_OT_3d_viewport,
    operator_class FLOWMAP_OT_3d_viewport
  | panel_class FLOWMAP_PT_image_paint, panel_class FLOWMAP_PT_image_paint
  | panel_class FLOWMAP_PT_texture_paint, panel_class FLOWMAP_PT_texture_paint
  | panel_class FLOWMAP_PT_vertex_paint, panel_class FLOWMAP_PT_vertex_paint
      => true
  | _, _ => false
  end.

Class Registrar : Type := {
  register_class : addon_class -> list addon_class -> Res (list addon_class);
  unregister_class : addon_class -> list addon_class -> Res (list addon_class);
  register_class_new :
    forall c cs, ~ In c cs -> register_class c cs = Ok (cs ++ [c]);
  unregister_class_old :
    forall c cs, In c cs ->
    unregister_class c cs = Ok (filter (fun x => negb (class_eqb x c)) cs)
}.

Section Registration.
Context {R : Registrar}.

(** [setattr(cls, name, value)] and [delattr(cls, name)] on the attributes
    of a class: the first overwrites, the second raises [AttributeError] on
    a name that is not set. *)
Fixpoint py_setattr (n : string) (v : property)
  (attrs : list (string * property)) : list (string * property) :=
  match attrs with
  | [] => [(n, v)]
  | (k, x) :: rest =>
      if String.eqb k n then (n, v) :: rest else (k, x) :: py_setattr n v rest
  end.

Definition py_delattr (n : string) (attrs : list (string * property))
  : Res (list (string * property)) :=
  if existsb (fun kv => String.eqb (fst kv) n) attrs
  then Ok (filter (fun kv => negb (String.eqb (fst kv) n)) attrs)
  else Raise AttributeError.

(** A [for] loop over a list. *)
Fixpoint for_each {S T} (l : list T) (body : T -> M S unit) : M S unit :=
  match l with
  | [] => ret tt
  | x :: rest => (body x ;; for_each rest body)%cmd
  end.

Definition update_attrs (f : list (string * property)
                             -> Res (list (string * property)))
  : M Registry unit :=
  fun r => match f (scene_attrs r) with
           | Ok a => (Ok tt, {| scene_attrs := a; registered := registered r |})
           | Raise e => (Raise e, r)
           end.

Definition update_classes (f : list addon_class -> Res (list addon_class))
  : M Registry unit :=
  fun r => match f (registered r) with
           | Ok cs => (Ok tt, {| scene_attrs := scene_attrs r;
                                 registered := cs |})
           | Raise e => (Raise e, r)
           end.

(** [register()] *)
Definition register : M Registry unit :=
  (for_each PROPERTIES (fun '(prop_name, prop_value) =>
     update_attrs (fun a => Ok (py_setattr prop_name prop_value a))) ;;
   for_each CLASSES (fun type => update_classes (register_class type)))%cmd.

(** [unregister()] *)
Definition unregister : M Registry unit :=
  (for_each PROPERTIES (fun '(prop_name, prop_value) =>
     update_attrs (py_delattr prop_name)) ;;
   for_each CLASSES (fun type => update_classes (unregister_class type)))%cmd.

End Registration.

(* ------------------------------------------------------------------ *)
(** ** A small host, to run the model on

    An orthographic view straight down the z axis onto an object lying in the
    plane [z = 0]: the pixel [(x, y)] is the point [(x, y, 0)] of the object,
    every object with a face is hit on its face 0, matrices are the identity,
    and the UV coordinates of a hit are its [x] and [y].  A new datablock whose
    name is taken gets a longer one. *)

Fixpoint pad (n : nat) : string :=
  match n with
  | O => EmptyString
  | S k => String "_"%char (pad k)
  end.

Definition total_length (used : list string) : nat :=
  fold_right (fun s a => String.length s + a) 0 used.

Definition toy_unique_name (used : list string) (n : string) : string :=
  if existsb (String.eqb n) used then n ++ pad (S (total_length used)) else n.

Definition toy_host (A : Arith) : Host.
Proof.
  refine
    {| Matrix := unit;
       View := unit;
       mat_identity := tt;
       matmul := fun _ v => v;
       inverted := fun m => Ok m;
       region_2d_to_vector_3d := fun _ _ => (of_Z 0, of_Z 0, of_Z (-1));
       region_2d_to_origin_3d := fun _ p => (of_Z (fst p), of_Z (snd p), of_Z 1);
       ray_cast := fun o origin _ _ =>
         match polygons (ob_data o) with
         | [] => (false, (of_Z 0, of_Z 0, of_Z 0), (of_Z 0, of_Z 0, of_Z 0),
                  (-1)%Z)
         | _ :: _ => (true, (fst (fst origin), snd (fst origin), of_Z 0),
                      (of_Z 0, of_Z 0, of_Z 1), 0%Z)
         end;
       barycentric_transform := fun p _ _ _ _ _ _ => p;
       evaluated_mesh := fun o => ob_data o;
       unique_name := toy_unique_name |}.
  - intros used n. unfold toy_unique_name.
    destruct (existsb (String.eqb n) used) eqn:E.
    + intro Hin.
      assert (Hlen : forall s, In s used -> String.length s <= total_length used).
      { clear. induction used as [|u used IH]; simpl; intros s Hs; [easy|].
        destruct Hs as [->|Hs]; [lia|]. specialize (IH s Hs). lia. }
      apply Hlen in Hin.
      assert (Happ : forall a b, String.length (a ++ b)
                                 = String.length a + String.length b).
      { clear. induction a as [|c a IH]; simpl; intros b; [easy|].
        now rewrite IH. }
      assert (Hpad : forall k, String.length (pad k) = k).
      { clear. induction k as [|k IH]; simpl; [easy|]. now rewrite IH. }
      rewrite Happ, Hpad in Hin. lia.
    + intro Hin.
      assert (existsb (String.eqb n) used = true) as E'.
      { apply existsb_exists. exists n. split; [easy|]. apply String.eqb_refl. }
      congruence.
  - intros used n Hn. unfold toy_unique_name.
    destruct (existsb (String.eqb n) used) eqn:E; [|easy].
    apply existsb_exists in E. destruct E as [x [Hx Hxn]].
    apply String.eqb_eq in Hxn. subst x. contradiction.
Defined.

Section Samples.
Context {A : Arith}.
#[local] Existing Instance toy_host.

Definition no_pressure : Brush :=
  {| use_pressure_strength := false; use_pressure_size := false |}.

(** A unit square made of two triangles. *)
Definition quad (name : string) (uv : option (list vec2)) : Mesh :=
  {| me_name := name;
     polygons := [ {| face_vertices := [0; 1; 2]%Z; loop_indices := [0; 1; 2]%Z |};
                   {| face_vertices := [0; 2; 3]%Z; loop_indices := [3; 4; 5]%Z |} ];
     vertices := [ (of_Z 0, of_Z 0, of_Z 0); (of_Z 1, of_Z 0, of_Z 0);
                   (of_Z 1, of_Z 1, of_Z 0); (of_Z 0, of_Z 1, of_Z 0) ];
     uv_layers_active := uv |}.

Definition quad_uv : list vec2 :=
  [ (of_Z 0, of_Z 0); (of_Z 1, of_Z 0); (of_Z 1, of_Z 1);
    (of_Z 0, of_Z 0); (of_Z 1, of_Z 1); (of_Z 0, of_Z 1) ].

Definition sample_object (name : string) (ty : object_type) (m : Mesh)
  : @Obj A (toy_host A) :=
  {| ob_name := name; ob_type := ty; ob_data := m; matrix_world := tt;
     modifiers := []; hidden := false |}.

(** A world in which the active object is [o]; nothing is pressed, no cursor
    is drawn, the brush is black. *)
Definition sample_world (o : @Obj A (toy_host A)) (area : area_kind)
  (m : object_mode) (spacing : num) (space : space_type)
  (t : option (@Obj A (toy_host A))) : @World A (toy_host A) :=
  {| context := {| view := tt; active_object := o; mode := m;
                   area_x := 0; area_y := 0; area_type := area;
                   flowmap_brush_spacing := spacing;
                   flowmap_trace_distance := of_Z 1000;
                   flowmap_space_type := space;
                   flowmap_object := None;
                   vertex_paint_brush := no_pressure;
                   image_paint_brush := no_pressure |};
     unified_paint_settings :=
       {| color := (of_Z 0, of_Z 0, of_Z 0); size := of_Z 50;
          use_unified_color := true; use_unified_strength := true;
          use_unified_size := true |};
     data := {| meshes := [ob_data o]; objects := [o];
                collection := [ob_name o] |};
     draw_handlers := []; next_handle := 0;
     strokes := []; dots := [];
     self := {| furthest_position := (0, 0)%Z;
                mouse_prev_position := (0, 0)%Z;
                pressing := false; cursor := None; tri_obj := t |} |}.

Definition mouse (ty : event_type) (v : event_value) (x y : Z) : Event :=
  {| type := ty; value := v; mouse_x := x; mouse_y := y;
     mouse_region_x := x; mouse_region_y := y; pressure := of_Z 1 |}.

End Samples.

(** The same host with matrices that have no inverse: [inverted] raises
    [ValueError], as [mathutils] does on a singular matrix. *)
Definition singular_host (A : Arith) : Host :=
  {| Matrix := unit;
     View := unit;
     mat_identity := tt;
     matmul := fun _ v => v;
     inverted := fun _ => Raise ValueError;
     region_2d_to_vector_3d := fun _ _ => (of_Z 0, of_Z 0, of_Z (-1));
     region_2d_to_origin_3d := fun _ p => (of_Z (fst p), of_Z (snd p), of_Z 1);
     ray_cast := fun o origin _ _ =>
       (false, (of_Z 0, of_Z 0, of_Z 0), (of_Z 0, of_Z 0, of_Z 0), (-1)%Z);
     barycentric_transform := fun p _ _ _ _ _ _ => p;
     evaluated_mesh := fun o => ob_data o;
     unique_name := toy_unique_name;
     unique_name_fresh := @unique_name_fresh A (toy_host A);
     unique_name_keep := @unique_name_keep A (toy_host A) |}.

Section SingularSamples.
Context (A : Arith).
#[local] Existing Instance singular_host.

(** A world on that host: a mesh object in the 3D view. *)
Definition singular_world : World :=
  let o : Obj :=
           {| ob_name := "Plane"%string; ob_type := MESH;
              ob_data := quad "PlaneMesh" (Some quad_uv);
              matrix_world := tt; modifiers := []; hidden := false |} in
  {| context := {| view := tt; active_object := o; mode := TEXTURE_PAINT;
                   area_x := 0; area_y := 0; area_type := VIEW_3D;
                   flowmap_brush_spacing := of_Z 10;
                   flowmap_trace_distance := of_Z 1000;
                   flowmap_space_type := world_space;
                   flowmap_object := None;
                   vertex_paint_brush := no_pressure;
                   image_paint_brush := no_pressure |};
     unified_paint_settings :=
       {| color := (of_Z 0, of_Z 0, of_Z 0); size := of_Z 50;
          use_unified_color := true; use_unified_strength := true;
          use_unified_size := true |};
     data := {| meshes := [ob_data o]; objects := [o];
                collection := [ob_name o] |};
     draw_handlers := []; next_handle := 0;
     strokes := []; dots := [];
     self := {| furthest_position := (0, 0)%Z;
                mouse_prev_position := (0, 0)%Z;
                pressing := false; cursor := None; tri_obj := Some o |} |}.

End SingularSamples.

(** A registrar that refuses a class it has, or has not, with
    [ValueError]. *)
Definition toy_registrar : Registrar.
Proof.
  refine
    {| register_class := fun c cs =>
         if existsb (class_eqb c) cs then Raise ValueError else Ok (cs ++ [c]);
       unregister_class := fun c cs =>
         if existsb (class_eqb c) cs
         then Ok (filter (fun x => negb (class_eqb x c)) cs)
         else Raise ValueError |}.
  - intros c cs Hn. destruct (existsb (class_eqb c) cs) eqn:E; [|reflexivity].
    apply existsb_exists in E. destruct E as (x & Hx & E).
    assert (c = x)
      by (destruct c as [[]|[]], x as [[]|[]]; try discriminate; reflexivity).
    subst x. contradiction.
  - intros c cs Hin. destruct (existsb (class_eqb c) cs) eqn:E; [reflexivity|].
    assert (E' : existsb (class_eqb c) cs = true).
    { apply existsb_exists. exists c. split; [exact Hin|].
      destruct c as [[]|[]]; reflexivity. }
    congruence.
Defined.

(* ------------------------------------------------------------------ *)
(** ** Vocabulary of the statements *)

(** A position update: the events that reach the third branch of [modal]. *)
Definition is_position_update {A : Arith} (e : Event) : bool :=
  match type e, value e with
  | MOUSEMOVE, _ => true
  | LEFTMOUSE, OTHER_VALUE => true
  | _, _ => false
  end.

Definition brush_color {A : Arith} {H : Host} (w : World) : vec3 :=
  color (unified_paint_settings w).

(** The colour the guard of [modal] leaves in the brush, given the old
    colour and what [get_direction_color] did. *)
Definition guarded_color {A : Arith} (old : vec3)
  (r : Res (option vec3 * option vec3)) : vec3 :=
  match r with
  | Ok (Some c, _) => if any_isnan c then old else c
  | _ => old
  end.

(** A command that leaves the observation [f] of the world as it was,
    whether it returns or raises. *)
Definition preserves {A : Arith} {H : Host} {X T : Type}
  (f : World -> X) (c : Cmd T) : Prop :=
  forall w, f (snd (c w)) = f w.

(** What a stroke shows of the world. *)
Definition stroke_view {A : Arith} {H : Host} (w : World)
  : list (vec2 * option vec3) * list PaintOp * Context * pos :=
  (dots w, strokes w, context w, furthest_position (self w)).

(** Of the comparisons, the one law the interpolator leans on: [a < b]
    rules out [b <= a] (the reals have it, and so has binary64, NaN
    included). *)
Definition lt_excludes_ge (A : Arith) : Prop :=
  forall a b : num, nltb a b = true -> nleb b a = false.

(** [distance < spacing_threshold] for the event [e], the distance taken
    from the position [from]. *)
Definition below_spacing {A : Arith} {H : Host} (w : World) (from : pos)
  (e : Event) : bool :=
  nltb (distance_to from (mouse_x e, mouse_y e))
       (flowmap_brush_spacing (context w)).

(** Consecutive distances below the spacing: each event measured from the
    event before it, the first one from [start]. *)
Fixpoint consecutive_below {A : Arith} {H : Host} (w : World) (start : pos)
  (events : list Event) : bool :=
  match events with
  | [] => true
  | e :: rest =>
      below_spacing w start e
      && consecutive_below w (mouse_x e, mouse_y e) rest
  end.

(** *** The interpolated dots *)



(** *** Channels and unit vectors *)

(** [lo <= x <= hi], with the comparisons of the arithmetic: a NaN is in no
    range. *)
Definition in_range {A : Arith} (lo hi x : num) : bool :=
  nleb lo x && nleb x hi.

(** A colour channel, in [0, 1]; a component of a unit vector, in [-1, 1]. *)
Definition is_channel {A : Arith} (c : num) : bool :=
  in_range (of_Z 0) (of_Z 1) c.

Definition is_unit_component {A : Arith} (u : num) : bool :=
  in_range (of_Z (-1)) (of_Z 1) u.



(** The channel [c] encodes the component [u]: it is [(u + 1) * 0.5], and it
    lies in [0, 1] when [u] lies in [-1, 1]. *)
Definition encodes {A : Arith} (u c : num) : Prop :=
  c = color_range u
  /\ (is_unit_component u = true -> is_channel c = true).

(** *** On binary64 *)

(** The shape of a rounded result: the sign is kept, the exponent is the
    canonical one of the input, or one more when the mantissa rounds up to
    a power of two. *)
Definition rounded_shape (s : bool) (E : Z) (r : spec_float) : Prop :=
  match r with
  | S754_zero s' => s' = s
  | S754_infinity s' => s' = s /\ (971 <= E)%Z
  | S754_finite s' m' e' =>
      s' = s
      /\ (e' = E \/ (e' = (E + 1)%Z /\ m' = 4503599627370496%positive))
  | S754_nan => False
  end.

(** A binary64 value between zero and [2 ^ (B + 52)], in canonical form. *)
Definition sf_upto (B : Z) (x : spec_float) : Prop :=
  match x with
  | S754_zero _ => True
  | S754_finite false m e =>
      (e < B)%Z \/ (e = B /\ m = 4503599627370496%positive)
  | _ => False
  end.

(** 1 and 0.5, as the kernel's specification has them. *)
Definition sf_one : spec_float := S754_finite false 4503599627370496 (-52)%Z.
Definition sf_half : spec_float := S754_finite false 4503599627370496 (-53)%Z.

(** *** On the reals *)

Definition dist_R (p q : pos) : R :=
  sqrt (IZR (fst p - fst q) * IZR (fst p - fst q)
        + IZR (snd p - snd q) * IZR (snd p - snd q)).

(** A result that hands the caller no colour it will use: an exception,
    [(None, None)], or a colour [modal] discards for its NaN. *)
Definition no_usable_color
  (r : Res (option (@vec3 ideal) * option (@vec3 ideal))) : Prop :=
  match r with
  | Ok (Some c, _) => any_isnan (A:=ideal) c = true
  | Ok (None, loc) => loc = None
  | Raise _ => True
  end.

(** *** Temporary data *)

Definition is_temp_mesh {A : Arith} (m : Mesh) : bool :=
  String.eqb (me_name m) temp_mesh_name.

(** The meshes of [bpy.data] that [remove_temp_obj] does not look for. *)
Definition other_meshes {A : Arith} {H : Host} (w : World) : list Mesh :=
  filter (fun m => negb (is_temp_mesh m)) (meshes (data w)).

(** Blender keeps the names of the datablocks of one kind distinct. *)
Definition unique_names {A : Arith} {H : Host} (d : Data) : Prop :=
  NoDup (map me_name (meshes d)) /\ NoDup (map (@ob_name _ _) (objects d)).

Definition is_temp_obj {A : Arith} {H : Host} (o : Obj) : bool :=
  String.eqb (ob_name o) temp_obj_name.

(** The objects of [bpy.data] named FLOWMAP_temp_obj, and the others. *)
Definition temp_objects {A : Arith} {H : Host} (w : World) : list Obj :=
  filter is_temp_obj (objects (data w)).

Definition other_objects {A : Arith} {H : Host} (w : World) : list Obj :=
  filter (fun o => negb (is_temp_obj o)) (objects (data w)).

(** Repeated startups of the 3D operator, each one after a cleanup
    ([true]) or without one ([false]). *)
Fixpoint restarts {A : Arith} {H : Host} (cleanups : list bool) : Cmd unit :=
  match cleanups with
  | [] => ret tt
  | c :: rest =>
      ((if c then cleanup FLOWMAP_OT_3d_viewport else ret tt) ;;
       startup FLOWMAP_OT_3d_viewport ;;
       restarts rest)%cmd
  end.

(** *** Events and anchors *)

(** What has been painted, and whether the button is held. *)
Definition paint_view {A : Arith} {H : Host} (w : World)
  : list (vec2 * option vec3) * list PaintOp * bool :=
  (dots w, strokes w, pressing (self w)).

Definition is_press {A : Arith} (e : Event) : bool :=
  match type e, value e with
  | LEFTMOUSE, PRESS => true
  | _, _ => false
  end.

(** The answer [modal] gives to an event of each type, when it returns. *)
Definition answer (t : event_type) : status :=
  match t with
  | ESC => FINISHED
  | OTHER_EVENT => PASS_THROUGH
  | LEFTMOUSE | MOUSEMOVE => RUNNING_MODAL
  end.

(** [distance >= flowmap_brush_spacing] for the event [e]: the sample is
    taken. *)
Definition reaches_spacing {A : Arith} {H : Host} (w : World) (e : Event)
  : bool :=
  nleb (flowmap_brush_spacing (context w))
       (distance_to (furthest_position (self w)) (mouse_x e, mouse_y e)).

(** The two positions [modal] measures and interpolates from. *)
Definition anchors {A : Arith} {H : Host} (w : World) : pos * pos :=
  (furthest_position (self w), mouse_prev_position (self w)).

(** *** The cursor's draw handler *)

Definition handle_of (h : nat * area_kind * pos) : nat := fst (fst h).

(** The handles registered with the host are distinct and older than the
    next one, and the operator's cursor, if it has one, is registered. *)
Definition handlers_ok {A : Arith} {H : Host} (w : World) : Prop :=
  NoDup (map handle_of (draw_handlers w))
  /\ (forall h, In h (draw_handlers w) -> handle_of h < next_handle w)
  /\ (forall c, cursor (self w) = Some c ->
                In c (map handle_of (draw_handlers w))).

(** The draw handlers that are the operator's cursor, and the others. *)
Definition own_handlers {A : Arith} {H : Host} (w : World)
  : list (nat * area_kind * pos) :=
  match cursor (self w) with
  | Some c => filter (fun h => Nat.eqb (handle_of h) c) (draw_handlers w)
  | None => []
  end.

Definition foreign_handlers {A : Arith} {H : Host} (w : World)
  : list (nat * area_kind * pos) :=
  match cursor (self w) with
  | Some c => filter (fun h => negb (Nat.eqb (handle_of h) c)) (draw_handlers w)
  | None => draw_handlers w
  end.

Definition cursor_view {A : Arith} {H : Host} (w : World)
  : list (nat * area_kind * pos) * nat * option nat * Context :=
  (draw_handlers w, next_handle w, cursor (self w), context w).

(** *** Dots and paint calls *)

(** The stroke element [paint_a_dot] builds for the dot [d] in the world
    [w]. *)
Definition stroke_for {A : Arith} {H : Host} (w : World) (e : Event)
  (d : vec2 * option vec3) : Stroke :=
  let c := context w in
  let ups := unified_paint_settings w in
  let brush := match mode c with
               | VERTEX_PAINT => vertex_paint_brush c
               | _ => image_paint_brush c
               end in
  {| st_location := match snd d with
                    | Some l => l
                    | None => (of_Z 0, of_Z 0, of_Z 0)
                    end;
     st_mouse := (nsub (fst (fst d)) (of_Z (area_x c)),
                  nsub (snd (fst d)) (of_Z (area_y c)));
     st_pressure := if use_pressure_strength brush
                    then nmul (of_bool (use_unified_strength ups)) (pressure e)
                    else of_bool (use_unified_strength ups);
     st_size := if use_pressure_size brush
                then nmul (size ups) (pressure e)
                else size ups |}.

(** The calls to [bpy.ops.paint] for one dot: an [image_paint] in texture
    paint mode, a [vertex_paint] in vertex paint mode when the dot has a
    location, none otherwise. *)
Definition paint_calls {A : Arith} {H : Host} (w : World) (e : Event)
  (d : vec2 * option vec3) : list PaintOp :=
  match mode (context w), snd d with
  | TEXTURE_PAINT, _ => [image_paint (stroke_for w e d)]
  | VERTEX_PAINT, Some _ => [vertex_paint (stroke_for w e d)]
  | _, _ => []
  end.

Definition has_location {A : Arith} (d : vec2 * option vec3) : bool :=
  match snd d with Some _ => true | None => false end.

(** What [paint_a_dot] reads of the world. *)
Definition paint_settings {A : Arith} {H : Host} (w : World)
  : Context * num * bool :=
  (context w, size (unified_paint_settings w),
   use_unified_strength (unified_paint_settings w)).

(** The world [w] continues [w0]: same settings, more dots, and for each
    new dot its paint calls. *)
Definition continues {A : Arith} {H : Host} (e : Event) (w0 w : World)
  : Prop :=
  paint_settings w = paint_settings w0
  /\ exists new, dots w = dots w0 ++ new
                 /\ strokes w = strokes w0 ++ flat_map (paint_calls w0 e) new.

Definition paint_trace {A : Arith} {H : Host} (w : World)
  : Context * num * bool * list (vec2 * option vec3) * list PaintOp :=
  (paint_settings w, dots w, strokes w).

(** The world [w] has the dots of [w0] and then some, each without a
    location. *)
Definition adds_bare_dots {A : Arith} {H : Host} (w0 w : World) : Prop :=
  exists new, dots w = dots w0 ++ new /\ Forall (fun d => snd d = None) new.

(** The unified paint settings the add-on switches on, and the brush size. *)
Definition unified_flags {A : Arith} {H : Host} (w : World)
  : bool * bool * bool :=
  let u := unified_paint_settings w in
  (use_unified_color u, use_unified_strength u, use_unified_size u).

Definition brush_size {A : Arith} {H : Host} (w : World) : num :=
  size (unified_paint_settings w).

(** *** Traces and encoders *)

(** [uv_coords.to_3d()] *)
Definition to_3d {A : Arith} (uv : vec2) : vec3 := (fst uv, snd uv, of_Z 0).

(** The corner [(vert_idx, loop_idx)] of a face resolves to [r]: the UV
    the layer [uvs] holds for the loop, the coordinates the mesh holds for
    the vertex. *)
Definition resolves {A : Arith} {H : Host} (obj : Obj) (uvs : list vec2)
  (corner : Z * Z) (r : vec2 * vec3) : Prop :=
  py_index uvs (snd corner) = Ok (fst r)
  /\ py_index (vertices (ob_data obj)) (fst corner) = Ok (snd r).

(** Two meshes with the same geometry and UV map, whatever their names. *)
Definition same_geometry {A : Arith} (m m' : Mesh) : Prop :=
  polygons m = polygons m' /\ vertices m = vertices m'
  /\ uv_layers_active m = uv_layers_active m'.

(** The names set on a class. *)
Definition keys (attrs : list (string * property)) : list string :=
  map fst attrs.

(** *** Sample worlds, on the small host *)

Section SampleWorlds.
Context (A : Arith).
#[local] Existing Instance toy_host.

Definition plane : Obj :=
  sample_object "Plane" MESH (quad "PlaneMesh" (Some quad_uv)).

(** The same square without a UV map. *)
Definition bare_plane : Obj :=
  sample_object "Plane" MESH (quad "PlaneMesh" None).

(** The image editor, brush spacing 10, the button held since a press at
    the origin. *)
Definition image_stroke : World :=
  let w := sample_world plane IMAGE_EDITOR TEXTURE_PAINT (of_Z 10) uv_space
             None in
  set_self (set_pressing true (self w)) w.

(** The 3D view before the tool starts, [o] the active object. *)
Definition viewport (o : Obj) (space : space_type) : World :=
  sample_world o VIEW_3D TEXTURE_PAINT (of_Z 10) space None.

End SampleWorlds.

(* ------------------------------------------------------------------ *)
(** * Theorems *)

(** ** Commands that leave an observation alone *)

Section Frames.
Context {A : Arith} {H : Host}.
Variables (X : Type) (f : World -> X).

Lemma preserves_ret T (a : T) : preserves f (ret a).
Proof. intros w. reflexivity. Qed.

Lemma preserves_raise T e : preserves f (raise (A:=T) e).
Proof. intros w. reflexivity. Qed.

Lemma preserves_get : preserves f get.
Proof. intros w. reflexivity. Qed.

Lemma preserves_lift T (r : Res T) : preserves f (lift r).
Proof. intros w. reflexivity. Qed.

Lemma preserves_query T (q : Qry T) : preserves f (query q).
Proof. intros w. reflexivity. Qed.

Lemma preserves_bind T U (c : Cmd T) (k : T -> Cmd U) :
  preserves f c -> (forall a, preserves f (k a)) -> preserves f (bind c k).
Proof.
  intros Hc Hk w. unfold bind. specialize (Hc w).
  destruct (c w) as [[a|e] w']; simpl in *.
  - rewrite Hk. exact Hc.
  - exact Hc.
Qed.

Lemma preserves_modify (g : World -> World) :
  (forall w, f (g w) = f w) -> preserves f (modify g).
Proof. intros Hg w. apply Hg. Qed.

(** What follows a command does not matter to [f] when it preserves [f]. *)
Lemma bind_preserved T U (c : Cmd T) (k : T -> Cmd U) w :
  (forall a, preserves f (k a)) ->
  f (snd (bind c k w)) = f (snd (c w)).
Proof.
  intros Hk. unfold bind. destruct (c w) as [[a|e] w']; simpl; [apply Hk|easy].
Qed.

End Frames.

Create HintDb frames.

Ltac frame_step :=
  match goal with
  | |- preserves _ (bind _ _) => apply preserves_bind
  | |- preserves _ (ret _) => apply preserves_ret
  | |- preserves _ (raise _) => apply preserves_raise
  | |- preserves _ get => apply preserves_get
  | |- preserves _ (lift _) => apply preserves_lift
  | |- preserves _ (query _) => apply preserves_query
  | |- preserves _ (modify _) => apply preserves_modify; intros; reflexivity
  | |- preserves _ (modify_self _) =>
      apply preserves_modify; intros; reflexivity
  | |- preserves _ (modify_data _) =>
      apply preserves_modify; intros; reflexivity
  | |- preserves _ (match ?x with _ => _ end) => destruct x
  | |- preserves _ (if ?b then _ else _) => destruct b
  | |- forall _, _ => intro
  | |- preserves _ _ => solve [auto with frames]
  end.

Ltac frame := repeat frame_step.

Section Structure.
Context {A : Arith} {H : Host}.

Lemma modal_position_update (op : operator) (e : Event) :
  is_position_update e = true -> modal op e = position_update op e.
Proof.
  unfold is_position_update, modal.
  destruct (type e), (value e); intros E; try discriminate; reflexivity.
Qed.

Lemma paint_a_dot_color p e l : preserves brush_color (paint_a_dot p e l).
Proof. unfold paint_a_dot. frame. Qed.

Lemma paint_a_dot_dots p e l w :
  fst (paint_a_dot p e l w) = Ok tt
  /\ dots (snd (paint_a_dot p e l w)) = dots w ++ [(p, l)].
Proof.
  unfold paint_a_dot, bind, modify, get. cbn [fst snd].
  destruct (mode (context (add_dot (p, l) w))); cbn; try (split; reflexivity).
  destruct l; cbn; split; reflexivity.
Qed.

#[local] Hint Resolve paint_a_dot_color : frames.

Lemma substeps_color n k prev m e l :
  preserves brush_color (substeps n k prev m e l).
Proof. induction k as [|k IH]; cbn [substeps]; frame. Qed.

#[local] Hint Resolve substeps_color : frames.

Lemma paint_dots_color d s m e l : preserves brush_color (paint_dots d s m e l).
Proof. unfold paint_dots. frame. Qed.

Lemma clear_cursor_color : preserves brush_color clear_cursor.
Proof. unfold clear_cursor. frame. Qed.

#[local] Hint Resolve paint_dots_color clear_cursor_color : frames.

Lemma redraw_cursor_color p : preserves brush_color (redraw_cursor p).
Proof. unfold redraw_cursor. frame. Qed.

Lemma redraw_cursor_view p : preserves stroke_view (redraw_cursor p).
Proof. unfold redraw_cursor, clear_cursor. frame. Qed.

Lemma redraw_cursor_dots p : preserves dots (redraw_cursor p).
Proof. unfold redraw_cursor, clear_cursor. frame. Qed.

Lemma remove_temp_obj_color : preserves brush_color remove_temp_obj.
Proof. unfold remove_temp_obj. frame. Qed.

#[local] Hint Resolve redraw_cursor_color remove_temp_obj_color : frames.

Lemma cleanup_color op : preserves brush_color (cleanup op).
Proof. unfold cleanup. frame. Qed.

Lemma set_brush_color_spec dc w :
  set_brush_color dc w
  = (Ok tt, match dc with
            | Some c => if any_isnan c then w else set_color c w
            | None => w
            end).
Proof.
  unfold set_brush_color. destruct dc as [c|]; [|reflexivity].
  destruct (any_isnan c); reflexivity.
Qed.

(** The image editor's encoder always returns a colour, and no location. *)
Lemma image_editor_returns p q w :
  exists c,
    get_direction_color FLOWMAP_OT_image_editor p q w = Ok (Some c, None).
Proof.
  unfold get_direction_color. destruct (neqb _ _); eexists; reflexivity.
Qed.

(** [modal] never answers [FINISHED] to a position update. *)
Lemma position_update_status op e w :
  fst (position_update op e w) <> Ok FINISHED.
Proof.
  unfold position_update, bind, get, ret. cbn.
  match goal with
  | |- context [let (_, _) := ?T in _] => destruct T as [[[]|ex] w1]
  end; cbn; [|congruence].
  destruct (redraw_cursor _ w1) as [[[]|ex] w2]; cbn; congruence.
Qed.

End Structure.

#[export] Hint Resolve paint_a_dot_color substeps_color paint_dots_color
  clear_cursor_color redraw_cursor_color remove_temp_obj_color cleanup_color
  : frames.

(** ** The button release, and the object that is not a mesh *)

Section Events.
Context {A : Arith} {H : Host}.

(** C8.  On a button-release event ([LEFTMOUSE], [RELEASE]) [modal] returns
    [RUNNING_MODAL] and changes nothing in the world but [self.pressing],
    which it sets to [False]: [furthest_position] and [mouse_prev_position]
    keep their values. *)
Theorem release_changes_only_pressing (op : operator) (e : Event) (w : World) :
  type e = LEFTMOUSE -> value e = RELEASE ->
  modal op e w = (Ok RUNNING_MODAL, set_self (set_pressing false (self w)) w)
  /\ pressing (self (snd (modal op e w))) = false
  /\ furthest_position (self (snd (modal op e w)))
     = furthest_position (self w)
  /\ mouse_prev_position (self (snd (modal op e w)))
     = mouse_prev_position (self w).
Proof.
  intros Ht Hv.
  assert (E : modal op e w
              = (Ok RUNNING_MODAL, set_self (set_pressing false (self w)) w)).
  { unfold modal. rewrite Ht, Hv. reflexivity. }
  rewrite E. repeat split.
Qed.

Lemma line_trace_for_pos_non_mesh (p : pos) (t : option Obj) (w : World) :
  ob_type (active_object (context w)) = OTHER_OBJECT ->
  line_trace_for_pos p t w = Ok PyNone.
Proof.
  intros Hty. unfold line_trace_for_pos, qbind, ask. rewrite Hty. reflexivity.
Qed.

(** C10.  When the active object is not a mesh, [line_trace_for_pos] returns
    the bare [None], which is not the pair [(None, None)]; unpacking it into
    two names raises [TypeError], and so the object-space and the world-space
    colour computations raise it, called directly or through
    [get_direction_color] of the 3D operator. *)
Theorem non_mesh_trace_is_bare_none (area_pos area_prev_pos : pos)
  (t : option Obj) (w : World) :
  ob_type (active_object (context w)) = OTHER_OBJECT ->
  line_trace_for_pos area_pos t w = Ok PyNone
  /\ PyNone <> PyPair None None
  /\ unpack2 PyNone = Raise TypeError
  /\ get_obj_space_direction_color area_pos area_prev_pos t w = Raise TypeError
  /\ get_world_space_direction_color area_pos area_prev_pos t w
     = Raise TypeError
  /\ (forall p q,
        flowmap_space_type (context w) <> uv_space ->
        get_direction_color FLOWMAP_OT_3d_viewport p q w = Raise TypeError).
Proof.
  intros Hty.
  assert (Hobj : forall a b u,
            get_obj_space_direction_color a b u w = Raise TypeError).
  { intros a b u. unfold get_obj_space_direction_color, qbind, ask.
    rewrite line_trace_for_pos_non_mesh by exact Hty. reflexivity. }
  assert (Hworld : forall a b u,
            get_world_space_direction_color a b u w = Raise TypeError).
  { intros a b u. unfold get_world_space_direction_color, qbind.
    rewrite line_trace_for_pos_non_mesh by exact Hty. reflexivity. }
  split; [now apply line_trace_for_pos_non_mesh|].
  split; [discriminate|].
  split; [reflexivity|].
  split; [apply Hobj|].
  split; [apply Hworld|].
  intros p q Hsp. unfold get_direction_color, qbind, ask.
  destruct (flowmap_space_type (context w)); [congruence|apply Hobj|apply Hworld].
Qed.

End Events.

(** ** The guard on the brush colour *)

Section NanGuard.
Context {A : Arith} {H : Host}.

Lemma commit_sample_color op d s m e w :
  brush_color (snd (commit_sample op d s m e w))
  = guarded_color (brush_color w)
      (get_direction_color op m (mouse_prev_position (self w))
         (set_self (set_furthest_position m (self w)) w)).
Proof.
  unfold commit_sample.
  unfold bind at 1. cbn [modify_self modify fst snd].
  unfold bind at 1. cbn [get fst snd].
  unfold bind at 1. unfold query at 1.
  cbn [self set_self mouse_prev_position set_furthest_position].
  destruct (get_direction_color op m (mouse_prev_position (self w))
              (set_self (set_furthest_position m (self w)) w))
    as [[dc loc]|ex]; cbn [guarded_color fst snd]; [|reflexivity].
  rewrite bind_preserved by (intro; frame).
  rewrite set_brush_color_spec. cbn [snd].
  destruct dc as [c|]; [|reflexivity].
  destruct (any_isnan c); reflexivity.
Qed.

Lemma position_update_color op e w :
  brush_color (snd (position_update op e w))
  = if nleb (flowmap_brush_spacing (context w))
            (distance_to (furthest_position (self w)) (mouse_x e, mouse_y e))
    then guarded_color (brush_color w)
           (get_direction_color op (mouse_x e, mouse_y e)
              (mouse_prev_position (self w))
              (set_self (set_furthest_position (mouse_x e, mouse_y e) (self w))
                        w))
    else brush_color w.
Proof.
  unfold position_update.
  unfold bind at 1. cbn [get].
  rewrite bind_preserved by (intro; frame).
  destruct (nleb _ _).
  - apply commit_sample_color.
  - reflexivity.
Qed.

Lemma guarded_color_nan_free old r :
  any_isnan old = false -> any_isnan (guarded_color old r) = false.
Proof.
  intros Hold. unfold guarded_color.
  destruct r as [[[c|] loc]|ex]; try exact Hold.
  destruct (any_isnan c) eqn:E; [exact Hold|exact E].
Qed.

Lemma modal_nan_free op e w :
  isnan half = false ->
  any_isnan (brush_color w) = false ->
  any_isnan (brush_color (snd (modal op e w))) = false.
Proof.
  intros Hhalf Hw.
  destruct (is_position_update e) eqn:Hpu.
  - rewrite modal_position_update by exact Hpu.
    rewrite position_update_color.
    destruct (nleb _ _); [now apply guarded_color_nan_free|exact Hw].
  - unfold modal. unfold is_position_update in Hpu.
    destruct (type e), (value e); try discriminate; try exact Hw.
    all: rewrite bind_preserved by (intro; frame); cbn [modify snd];
      unfold brush_color, any_isnan; cbn; now rewrite Hhalf.
Qed.

(** C4.  On a position update the brush colour after [modal] is the
    direction colour when [distance >= spacing], the colour is not [None]
    and none of its channels is NaN, and is the colour before in every other
    case (the call raises included).  Hence, 0.5 being no NaN, a brush colour
    free of NaN stays free of NaN through any sequence of events. *)
Theorem nan_never_reaches_brush_color (op : operator) :
  isnan half = false ->
  (forall e w,
      is_position_update e = true ->
      brush_color (snd (modal op e w))
      = if nleb (flowmap_brush_spacing (context w))
                (distance_to (furthest_position (self w))
                             (mouse_x e, mouse_y e))
        then guarded_color (brush_color w)
               (get_direction_color op (mouse_x e, mouse_y e)
                  (mouse_prev_position (self w))
                  (set_self (set_furthest_position (mouse_x e, mouse_y e)
                                                   (self w)) w))
        else brush_color w)
  /\ (forall old r,
         guarded_color old r = old
         \/ (any_isnan (guarded_color old r) = false
             /\ exists loc, r = Ok (Some (guarded_color old r), loc)))
  /\ (forall events w,
         any_isnan (brush_color w) = false ->
         any_isnan (brush_color (snd (run op events w))) = false).
Proof.
  intros Hhalf. split; [|split].
  - intros e w Hpu. rewrite modal_position_update by exact Hpu.
    apply position_update_color.
  - intros old r. unfold guarded_color.
    destruct r as [[[c|] loc]|ex]; try (left; reflexivity).
    destruct (any_isnan c) eqn:E; [left; reflexivity|].
    right. split; [exact E|]. now exists loc.
  - induction events as [|e rest IH]; intros w Hw; [exact Hw|].
    cbn [run]. unfold bind.
    pose proof (modal_nan_free op e w Hhalf Hw) as Hm.
    destruct (modal op e w) as [[r|ex] w']; cbn [snd] in *; [|exact Hm].
    destruct r; try (apply IH; exact Hm). exact Hm.
Qed.

End NanGuard.

(** ** The UV lookup *)

Section UV.
Context {A : Arith} {H : Host}.

Lemma face_corners_no_uv (obj : Obj) mw corners fv uv :
  uv_layers_active (ob_data obj) = None ->
  corners <> [] ->
  face_corners obj mw corners fv uv = Raise AttributeError.
Proof.
  intros Hno Hne. destruct corners as [|[vi li] rest]; [congruence|].
  cbn [face_corners]. now rewrite Hno.
Qed.

Lemma pos_to_uv_co_no_uv (obj : Obj) mw wp fi :
  uv_layers_active (ob_data obj) = None ->
  exists e, pos_to_uv_co (Some obj) mw wp fi = Raise e.
Proof.
  intros Hno. unfold pos_to_uv_co, rbind.
  destruct (py_index (polygons (ob_data obj)) fi) as [face|e]; [|now exists e].
  destruct (combine (face_vertices face) (loop_indices face)) as [|c rest] eqn:E.
  - exists IndexError. reflexivity.
  - exists AttributeError.
    rewrite face_corners_no_uv; [reflexivity|exact Hno|discriminate].
Qed.

Lemma pos_to_uv_co_no_uv_corner (obj : Obj) mw wp fi face :
  uv_layers_active (ob_data obj) = None ->
  py_index (polygons (ob_data obj)) fi = Ok face ->
  combine (face_vertices face) (loop_indices face) <> [] ->
  pos_to_uv_co (Some obj) mw wp fi = Raise AttributeError.
Proof.
  intros Hno Hf Hc. unfold pos_to_uv_co, rbind. rewrite Hf.
  now rewrite face_corners_no_uv.
Qed.

(** C6, as amended.  On a mesh without active UV layer the UV lookup of a
    surface hit never returns a value, [None] included: it raises, and with
    [AttributeError] when the hit face has a corner, the layer being read
    first.  The exception goes through [line_trace_for_uv] and the UV-space
    encoder.  [line_trace_for_uv] answers [None] for the UV only when the
    active object is not a mesh or the ray misses. *)
Theorem uv_lookup_without_layer_raises (t : Obj) (w : World)
  (area_pos area_prev_pos : pos) :
  uv_layers_active (ob_data t) = None ->
  (forall mw wp fi, exists e, pos_to_uv_co (Some t) mw wp fi = Raise e)
  /\ (forall mw wp fi face,
        py_index (polygons (ob_data t)) fi = Ok face ->
        combine (face_vertices face) (loop_indices face) <> [] ->
        pos_to_uv_co (Some t) mw wp fi = Raise AttributeError)
  /\ (forall hit,
        ob_type (active_object (context w)) = MESH ->
        obj_ray_cast area_pos (Some t)
          (matrix_world (active_object (context w))) w = Ok (Some hit) ->
        exists e,
          line_trace_for_uv area_pos (Some t) w = Raise e
          /\ get_uv_space_direction_color area_pos area_prev_pos (Some t) w
             = Raise e)
  /\ (forall h,
        line_trace_for_uv area_pos (Some t) w = Ok (None, h) ->
        ob_type (active_object (context w)) = OTHER_OBJECT
        \/ obj_ray_cast area_pos (Some t)
             (matrix_world (active_object (context w))) w = Ok None).
Proof.
  intros Hno. repeat split.
  - intros mw wp fi. now apply pos_to_uv_co_no_uv.
  - intros mw wp fi face. now apply pos_to_uv_co_no_uv_corner.
  - intros [[hit normal] fi] Hty Hray.
    destruct (pos_to_uv_co_no_uv t (matrix_world (active_object (context w)))
                (matmul (matrix_world (active_object (context w))) hit) fi Hno)
      as [e He].
    exists e.
    assert (Hl : line_trace_for_uv area_pos (Some t) w = Raise e).
    { unfold line_trace_for_uv, qbind, ask, qlift. rewrite Hty, Hray, He.
      reflexivity. }
    split; [exact Hl|].
    unfold get_uv_space_direction_color, qbind. now rewrite Hl.
  - intros h Hl. unfold line_trace_for_uv, qbind, ask, qlift in Hl.
    destruct (ob_type (active_object (context w))); [|now left].
    right.
    destruct (obj_ray_cast area_pos (Some t) _ w) as [[[[hit normal] fi]|]|e];
      [|reflexivity|discriminate].
    destruct (pos_to_uv_co _ _ _ _); discriminate.
Qed.

End UV.

(** ** Arithmetic on the extended reals *)

Section IdealArith.
Open Scope R_scope.

Lemma Rsign_pos r : 0 < r -> Rsign r = Gt.
Proof.
  intros Hr. unfold Rsign. destruct (total_order_T r 0) as [[Hlt|Heq]|Hgt];
    try reflexivity; lra.
Qed.

Lemma Rsign_zero : Rsign 0 = Eq.
Proof.
  unfold Rsign. destruct (total_order_T 0 0) as [[Hlt|Heq]|Hgt];
    try reflexivity; lra.
Qed.

Lemma Rsign_nonneg r : 0 <= r -> Rsign r <> Lt.
Proof.
  intros Hr. unfold Rsign. destruct (total_order_T r 0) as [[Hlt|Heq]|Hgt];
    try discriminate; lra.
Qed.

Lemma xsqrt_Fin r : 0 <= r -> xsqrt (Fin r) = Fin (sqrt r).
Proof.
  intros Hr. unfold xsqrt. pose proof (Rsign_nonneg Hr).
  destruct (Rsign r); congruence.
Qed.

Lemma xeqb_Fin x y : xeqb (Fin x) (Fin y) = true <-> x = y.
Proof. unfold xeqb. destruct (Req_dec_T x y); split; intros; congruence. Qed.

Lemma xleb_Fin x y : xleb (Fin x) (Fin y) = true <-> x <= y.
Proof. unfold xleb. destruct (Rle_dec x y); split; intros; congruence. Qed.

Lemma norm2_Fin a b :
  norm2 (A:=ideal) (Fin a, Fin b) = Fin (sqrt (a * a + b * b)).
Proof. simpl. apply xsqrt_Fin. nra. Qed.

Lemma norm3_Fin a b c :
  norm3 (A:=ideal) (Fin a, Fin b, Fin c)
  = Fin (sqrt (a * a + b * b + c * c)).
Proof. simpl. apply xsqrt_Fin. nra. Qed.

End IdealArith.

(** ** Rounding on binary64

    The kernel's specification rounds a mantissa and an exponent to the
    format.  What the colour channels need of it is where the result can
    lie: its sign, and how large its exponent can be. *)

Section Binary64.
Open Scope Z_scope.

Lemma fexp_eq e : fexp prec emax e = Z.max (e - 53) (-1074).
Proof. reflexivity. Qed.

Lemma digits2_pos_bounds p :
  2 ^ (Zpos (digits2_pos p) - 1) <= Zpos p < 2 ^ Zpos (digits2_pos p).
Proof.
  induction p as [p IH|p IH|]; cbn [digits2_pos].
  - rewrite Pos2Z.inj_succ.
    replace (Z.succ (Zpos (digits2_pos p)) - 1) with (Z.succ (Zpos (digits2_pos p) - 1)) by lia.
    rewrite !Z.pow_succ_r by lia. lia.
  - rewrite Pos2Z.inj_succ.
    replace (Z.succ (Zpos (digits2_pos p)) - 1) with (Z.succ (Zpos (digits2_pos p) - 1)) by lia.
    rewrite !Z.pow_succ_r by lia. lia.
  - cbn. lia.
Qed.

Lemma digits2_pos_le p k : 0 <= k -> Zpos p < 2 ^ k -> Zpos (digits2_pos p) <= k.
Proof.
  intros Hk Hp. destruct (digits2_pos_bounds p) as [Hl _].
  destruct (Z_le_gt_dec (Zpos (digits2_pos p)) k) as [|Hgt]; [assumption|].
  assert (2 ^ k <= 2 ^ (Zpos (digits2_pos p) - 1)) by (apply Z.pow_le_mono_r; lia).
  lia.
Qed.

Lemma shr_1_m mrs : 0 <= shr_m mrs ->
  0 <= shr_m (shr_1 mrs) /\ shr_m (shr_1 mrs) = shr_m mrs / 2.
Proof.
  destruct mrs as [m r s]. cbn [shr_m]. intros Hm.
  rewrite <- Z.div2_div.
  destruct m as [|[p|p|]|p]; cbn; try lia.
Qed.

Lemma pow2_xI n : 2 ^ Zpos n~1 = 2 * (2 ^ Zpos n * 2 ^ Zpos n).
Proof.
  rewrite (Pos2Z.inj_xI n).
  replace (2 * Zpos n + 1) with (1 + (Zpos n + Zpos n)) by lia.
  rewrite (Z.pow_add_r 2 1 (Zpos n + Zpos n)), (Z.pow_add_r 2 (Zpos n) (Zpos n))
    by lia.
  reflexivity.
Qed.

Lemma pow2_xO n : 2 ^ Zpos n~0 = 2 ^ Zpos n * 2 ^ Zpos n.
Proof.
  rewrite (Pos2Z.inj_xO n).
  replace (2 * Zpos n) with (Zpos n + Zpos n) by lia.
  rewrite (Z.pow_add_r 2 (Zpos n) (Zpos n)) by lia. reflexivity.
Qed.

Lemma pow2_pos k : 0 <= k -> 0 < 2 ^ k.
Proof. intros. apply Z.pow_pos_nonneg; lia. Qed.

Lemma iter_pos_shr_m n : forall mrs, 0 <= shr_m mrs ->
  0 <= shr_m (SpecFloat.iter_pos shr_1 n mrs)
  /\ shr_m (SpecFloat.iter_pos shr_1 n mrs) = shr_m mrs / 2 ^ Zpos n.
Proof.
  induction n as [n IH|n IH|]; intros mrs Hm; cbn [SpecFloat.iter_pos].
  - destruct (@shr_1_m mrs Hm) as [H1 E1].
    destruct (IH _ H1) as [H2 E2]. destruct (IH _ H2) as [H3 E3].
    split; [exact H3|]. rewrite E3, E2, E1.
    pose proof (@pow2_pos (Zpos n) ltac:(lia)) as Hp.
    rewrite !Z.div_div by lia.
    rewrite pow2_xI. reflexivity.
  - destruct (IH _ Hm) as [H2 E2]. destruct (IH _ H2) as [H3 E3].
    split; [exact H3|]. rewrite E3, E2.
    pose proof (@pow2_pos (Zpos n) ltac:(lia)) as Hp.
    rewrite !Z.div_div by lia.
    rewrite pow2_xO. reflexivity.
  - destruct (@shr_1_m mrs Hm) as [H1 E1]. split; [exact H1|].
    rewrite E1. reflexivity.
Qed.

Lemma shr_m_of_loc m l : shr_m (shr_record_of_loc m l) = m.
Proof. destruct l as [|[]]; reflexivity. Qed.

Lemma shr_fexp_first p e l :
  exists mrs,
    shr_fexp prec emax (Zpos p) e l
    = (mrs, Z.max (fexp prec emax (Zpos (digits2_pos p) + e)) e)
    /\ 0 <= shr_m mrs < 9007199254740992.
Proof.
  unfold shr_fexp. cbn [Zdigits2].
  pose proof (digits2_pos_bounds p) as [Hlo Hhi].
  set (d := Zpos (digits2_pos p)) in *.
  rewrite fexp_eq. change 9007199254740992 with (2 ^ 53).
  assert (Hsmall : d <= 53 -> Zpos p < 2 ^ 53).
  { intros Hd. assert (2 ^ d <= 2 ^ 53) by (apply Z.pow_le_mono_r; lia). lia. }
  destruct (Z.max (d + e - 53) (-1074) - e) as [|n|n] eqn:En; cbn [shr].
  - exists (shr_record_of_loc (Zpos p) l). split; [f_equal; lia|].
    rewrite shr_m_of_loc. split; [lia|]. apply Hsmall. lia.
  - exists (SpecFloat.iter_pos shr_1 n (shr_record_of_loc (Zpos p) l)).
    split; [f_equal; lia|].
    destruct (@iter_pos_shr_m n (shr_record_of_loc (Zpos p) l)) as [H0 E].
    { rewrite shr_m_of_loc. lia. }
    rewrite shr_m_of_loc in E. split; [exact H0|]. rewrite E.
    apply Z.div_lt_upper_bound; [apply pow2_pos; lia|].
    rewrite <- Z.pow_add_r by lia.
    assert (2 ^ d <= 2 ^ (Zpos n + 53)) by (apply Z.pow_le_mono_r; lia). lia.
  - exists (shr_record_of_loc (Zpos p) l). split; [f_equal; lia|].
    rewrite shr_m_of_loc. split; [lia|]. apply Hsmall. lia.
Qed.

Lemma Zdigits2_small m : 0 <= m < 9007199254740992 -> 0 <= Zdigits2 m <= 53.
Proof.
  intros Hm. destruct m as [|p|p]; cbn [Zdigits2]; try lia.
  split; [lia|]. apply digits2_pos_le; [lia|]. change (2 ^ 53) with 9007199254740992. lia.
Qed.

Lemma shr_fexp_second m E :
  0 <= m <= 9007199254740992 -> -1074 <= E ->
  (m < 9007199254740992
   /\ shr_fexp prec emax m E loc_Exact = (Build_shr_record m false false, E))
  \/ (m = 9007199254740992
      /\ shr_fexp prec emax m E loc_Exact
         = (Build_shr_record 4503599627370496 false false, E + 1)).
Proof.
  intros Hm HE. destruct (Z.eq_dec m 9007199254740992) as [->|Hne].
  - right. split; [reflexivity|]. unfold shr_fexp. cbn [Zdigits2 digits2_pos Pos.succ].
    rewrite fexp_eq.
    replace (Z.max (54 + E - 53) (-1074) - E) with 1 by lia.
    cbn. f_equal.
  - left. split; [lia|]. unfold shr_fexp.
    pose proof (@Zdigits2_small m ltac:(lia)) as Hd.
    rewrite fexp_eq.
    destruct (Z.max (Zdigits2 m + E - 53) (-1074) - E) as [|n|n] eqn:En;
      cbn [shr shr_record_of_loc]; try reflexivity.
    lia.
Qed.

Lemma binary_round_aux_shape s p e l :
  rounded_shape s (Z.max (fexp prec emax (Zpos (digits2_pos p) + e)) e)
    (binary_round_aux prec emax s (Zpos p) e l).
Proof.
  unfold binary_round_aux.
  destruct (shr_fexp_first p e l) as (mrs & -> & Hm).
  set (E := Z.max (fexp prec emax (Zpos (digits2_pos p) + e)) e).
  assert (HE : -1074 <= E) by (unfold E; rewrite fexp_eq; lia).
  set (m1 := round_nearest_even (shr_m mrs) (loc_of_shr_record mrs)).
  assert (Hm1 : 0 <= m1 <= 9007199254740992).
  { unfold m1, round_nearest_even.
    destruct (loc_of_shr_record mrs) as [|[]]; try lia.
    destruct (Z.even (shr_m mrs)); lia. }
  destruct (@shr_fexp_second m1 E Hm1 HE) as [[Hlt ->]|[-> ->]]; cbn [shr_m].
  - destruct m1 as [|q|q]; cbn; [reflexivity| |lia].
    destruct (Z.leb_spec E 971); cbn; [auto|]. split; [reflexivity|lia].
  - change (emax - prec) with 971.
    destruct (Z.leb_spec (E + 1) 971); cbn; [auto|]. split; [reflexivity|lia].
Qed.

Lemma iter_xO_digits p d :
  digits2_pos (Pos.iter xO p d) = (digits2_pos p + d)%positive.
Proof.
  induction d as [|d IH] using Pos.peano_ind.
  - cbn. lia.
  - rewrite Pos.iter_succ. cbn [digits2_pos]. rewrite IH. lia.
Qed.

Lemma iter_xO_value p d : Zpos (Pos.iter xO p d) = Zpos p * 2 ^ Zpos d.
Proof.
  induction d as [|d IH] using Pos.peano_ind.
  - cbn. lia.
  - rewrite Pos.iter_succ, Pos2Z.inj_xO, IH, Pos2Z.inj_succ, Z.pow_succ_r by lia.
    lia.
Qed.

Lemma binary_round_shape s p e :
  rounded_shape s (fexp prec emax (Zpos (digits2_pos p) + e))
    (binary_round prec emax s p e).
Proof.
  unfold binary_round, shl_align.
  set (E := fexp prec emax (Zpos (digits2_pos p) + e)).
  destruct (E - e) as [|n|n] eqn:En.
  - pose proof (binary_round_aux_shape s p e loc_Exact) as Hs.
    fold E in Hs. replace (Z.max E e) with E in Hs by lia. exact Hs.
  - pose proof (binary_round_aux_shape s p e loc_Exact) as Hs.
    fold E in Hs. replace (Z.max E e) with E in Hs by lia. exact Hs.
  - pose proof (binary_round_aux_shape s (Pos.iter xO p n) E loc_Exact) as Hs.
    rewrite iter_xO_digits, Pos2Z.inj_add in Hs.
    replace (Zpos (digits2_pos p) + Zpos n + E)
      with (Zpos (digits2_pos p) + e) in Hs by lia.
    fold E in Hs. replace (Z.max E E) with E in Hs by lia. exact Hs.
Qed.

Lemma rounded_upto E B r :
  rounded_shape false E r -> E < B -> B <= 971 -> sf_upto B r.
Proof.
  destruct r as [s'|s'| |s' m' e']; cbn; try tauto.
  - intros [_ H] ? ?. lia.
  - intros [-> H] ? ?. lia.
Qed.

Lemma bounded_digits m e :
  SpecFloat.bounded prec emax m e = true ->
  Zpos (digits2_pos m) <= 53 /\ -1074 <= e
  /\ (-1074 < e -> Zpos (digits2_pos m) = 53).
Proof.
  unfold SpecFloat.bounded, canonical_mantissa. rewrite fexp_eq.
  intros Hb. apply andb_true_iff in Hb. destruct Hb as [Hc _].
  apply Z.eqb_eq in Hc. lia.
Qed.

(** [x + 1] for [-1 < x < 1]: between 0 and 2. *)
Lemma SFadd_one_upto s m e :
  SpecFloat.bounded prec emax m e = true -> e <= -53 ->
  sf_upto (-51) (SFadd prec emax (S754_finite s m e) sf_one).
Proof.
  intros Hb He. destruct (@bounded_digits m e Hb) as (Hd & Hmin & _).
  destruct (digits2_pos_bounds m) as [_ Hhi].
  assert (Hm : Zpos m < 2 ^ 53).
  { assert (2 ^ Zpos (digits2_pos m) <= 2 ^ 53) by (apply Z.pow_le_mono_r; lia).
    lia. }
  unfold SFadd, sf_one. rewrite Z.min_l by lia.
  unfold shl_align. rewrite Z.sub_diag.
  destruct (e - -52) as [|n|n] eqn:En; try lia.
  cbn [fst]. rewrite iter_xO_value.
  change (Zpos 4503599627370496) with (2 ^ 52).
  rewrite <- Z.pow_add_r by lia.
  replace (52 + Zpos n) with (- e) by lia.
  assert (Hp : 2 ^ 53 <= 2 ^ (- e)) by (apply Z.pow_le_mono_r; lia).
  assert (Hq : 2 ^ (1 - e) = 2 * 2 ^ (- e)).
  { replace (1 - e) with (Z.succ (- e)) by lia. apply Z.pow_succ_r. lia. }
  set (M := cond_Zopp s (Zpos m) + cond_Zopp false (2 ^ (- e))).
  assert (HM : 0 < M < 2 ^ (1 - e)).
  { unfold M, cond_Zopp. destruct s; lia. }
  destruct M as [|P|P]; try lia. cbn [binary_normalize].
  apply rounded_upto with (E := fexp prec emax (Zpos (digits2_pos P) + e));
    [apply binary_round_shape| |lia].
  pose proof (@digits2_pos_le P (1 - e) ltac:(lia) (proj2 HM)).
  rewrite fexp_eq. lia.
Qed.

(** [y * 0.5] for [0 <= y <= 2]: between 0 and 1. *)
Lemma SFmul_half_upto y :
  valid_binary y = true -> sf_upto (-51) y ->
  sf_upto (-52) (SFmul prec emax y sf_half).
Proof.
  destruct y as [s|s| |s m e]; cbn [sf_upto].
  - intros _ _. exact I.
  - intros _ [].
  - intros _ [].
  - destruct s; [intros _ []|]. cbn [valid_binary]. intros Hb [He|[-> ->]].
    + destruct (@bounded_digits m e Hb) as (Hd & Hmin & _).
      unfold SFmul, sf_half. cbn [xorb].
      apply rounded_upto
        with (E := Z.max (fexp prec emax
                            (Zpos (digits2_pos (m * 4503599627370496)) + (e + -53)))
                         (e + -53));
        [apply binary_round_aux_shape| |lia].
      destruct (digits2_pos_bounds m) as [_ Hhi].
      assert (Hm : Zpos (m * 4503599627370496) < 2 ^ 53 * 2 ^ 52).
      { rewrite Pos2Z.inj_mul.
        change (Zpos 4503599627370496) with (2 ^ 52).
        assert (2 ^ Zpos (digits2_pos m) <= 2 ^ 53)
          by (apply Z.pow_le_mono_r; lia).
        apply Z.mul_lt_mono_pos_r; [reflexivity|lia]. }
      rewrite <- Z.pow_add_r in Hm by lia.
      pose proof (@digits2_pos_le _ (53 + 52) ltac:(lia) Hm).
      rewrite fexp_eq. lia.
    + right. split; reflexivity.
Qed.

Lemma SFleb_finite_pos m1 e1 m2 e2 :
  SFleb (S754_finite false m1 e1) (S754_finite false m2 e2) = true <->
  e1 < e2 \/ (e1 = e2 /\ Zpos m1 <= Zpos m2).
Proof.
  unfold SFleb, SFcompare.
  change (Pos.compare_cont Eq m1 m2) with (Z.compare (Zpos m1) (Zpos m2)).
  destruct (Z.compare_spec e1 e2) as [E|E|E];
    [destruct (Z.compare_spec (Zpos m1) (Zpos m2)) as [E'|E'|E']| |];
    split; intros H; try discriminate; try reflexivity; try lia;
    exfalso; lia.
Qed.

Lemma SFleb_finite_neg m1 e1 m2 e2 :
  SFleb (S754_finite true m1 e1) (S754_finite true m2 e2) = true <->
  e2 < e1 \/ (e1 = e2 /\ Zpos m2 <= Zpos m1).
Proof.
  unfold SFleb, SFcompare.
  change (Pos.compare_cont Eq m1 m2) with (Z.compare (Zpos m1) (Zpos m2)).
  destruct (Z.compare_spec e1 e2) as [E|E|E];
    [destruct (Z.compare_spec (Zpos m1) (Zpos m2)) as [E'|E'|E']| |];
    cbn [CompOpp]; split; intros H; try discriminate; try reflexivity;
    try lia; exfalso; lia.
Qed.

Lemma unit_sf s m e :
  SpecFloat.bounded prec emax m e = true ->
  SFleb (S754_finite true 4503599627370496 (-52)) (S754_finite s m e) = true ->
  SFleb (S754_finite s m e) sf_one = true ->
  e <= -53 \/ (e = -52 /\ m = 4503599627370496%positive).
Proof.
  intros Hb Hlo Hhi. destruct (@bounded_digits m e Hb) as (Hd & Hmin & Hn).
  destruct (digits2_pos_bounds m) as [Hl _].
  assert (Hcmp : e < -52 \/ (e = -52 /\ Zpos m <= 4503599627370496)).
  { destruct s.
    - apply SFleb_finite_neg in Hlo. clear - Hlo. lia.
    - apply SFleb_finite_pos in Hhi. exact Hhi. }
  clear Hlo Hhi.
  destruct Hcmp as [|[-> Hm]]; [left; lia|]. right. split; [reflexivity|].
  rewrite Hn in Hl by lia. change (2 ^ (53 - 1)) with 4503599627370496 in Hl.
  apply Pos2Z.inj. lia.
Qed.

Lemma upto_one_leb c :
  sf_upto (-52) c ->
  SFleb (S754_zero false) c = true /\ SFleb c sf_one = true.
Proof.
  destruct c as [s|s| |s m e]; cbn [sf_upto].
  - intros _. destruct s; split; reflexivity.
  - intros [].
  - intros [].
  - destruct s; [intros []|]. intros H. split; [reflexivity|].
    apply SFleb_finite_pos. destruct H as [H|[-> ->]]; [now left|right].
    split; [reflexivity|]. apply Z.le_refl.
Qed.

Lemma Prim2SF_constants :
  Prim2SF 1 = sf_one /\ Prim2SF 0.5 = sf_half
  /\ Prim2SF 0 = S754_zero false
  /\ Prim2SF (-1) = S754_finite true 4503599627370496 (-52).
Proof. vm_compute. repeat split. Qed.

Theorem color_range_in_unit (u : float) :
  (-1 <=? u)%float = true -> (u <=? 1)%float = true ->
  (0 <=? (u + 1) * 0.5)%float = true /\ ((u + 1) * 0.5 <=? 1)%float = true.
Proof.
  destruct Prim2SF_constants as (E1 & Eh & E0 & Em).
  rewrite !leb_spec, mul_spec, add_spec, E1, Eh, E0, Em.
  pose proof (Prim2SF_valid u) as Hv.
  pose proof (Prim2SF_valid (u + 1)) as Hv1. rewrite add_spec, E1 in Hv1.
  destruct (Prim2SF u) as [s|s| |s m e]; intros Hlo Hhi.
  - apply upto_one_leb.
    destruct s; vm_compute; first [left; reflexivity|right; split; reflexivity].
  - destruct s; discriminate.
  - discriminate.
  - apply upto_one_leb. apply SFmul_half_upto; [exact Hv1|].
    destruct (@unit_sf s m e Hv Hlo Hhi) as [He|[-> ->]].
    + now apply SFadd_one_upto.
    + destruct s; vm_compute;
        first [exact I|left; reflexivity|right; split; reflexivity].
Qed.

End Binary64.

(** ** The channels of a direction colour *)

Section ColourSources.
Context {A : Arith} {H : Host}.




End ColourSources.

Section Channels.
#[local] Existing Instance float64.
Context {H : Host}.

Lemma color_range_is_channel (u : float) :
  is_unit_component u = true -> is_channel (color_range u) = true.
Proof.
  unfold is_unit_component, is_channel, in_range. intros Hu.
  apply andb_true_iff in Hu. destruct Hu as [Hlo Hhi].
  destruct (@color_range_in_unit u Hlo Hhi) as [H0 H1].
  apply andb_true_iff. split; assumption.
Qed.

Lemma encodes_color_range (u : float) : encodes u (color_range u).
Proof. split; [reflexivity|apply color_range_is_channel]. Qed.


End Channels.


(** ** Coincident positions *)

Section Coincident.
#[local] Existing Instance ideal.
Context {H : Host}.
Open Scope R_scope.

Lemma direction_color2_same_Fin (x y : R) :
  direction_color2 (Fin x, Fin y) (Fin x, Fin y) = None.
Proof.
  unfold direction_color2. cbn [fst snd nsub ideal xsub xopp xadd].
  rewrite norm2_Fin. cbn [neqb of_Z ideal].
  replace (sqrt _) with 0.
  - destruct (xeqb_Fin 0 0) as [_ ->]; reflexivity.
  - replace ((x + - x) * (x + - x) + (y + - y) * (y + - y)) with 0 by ring.
    symmetry. apply sqrt_0.
Qed.

Lemma direction_color3_same_Fin (x y z : R) :
  direction_color3 (Fin x, Fin y, Fin z) (Fin x, Fin y, Fin z) = None.
Proof.
  unfold direction_color3. cbn [vsub nsub ideal xsub xopp xadd].
  rewrite norm3_Fin. cbn [neqb of_Z ideal].
  replace (sqrt _) with 0.
  - destruct (xeqb_Fin 0 0) as [_ ->]; reflexivity.
  - replace ((x + - x) * (x + - x) + (y + - y) * (y + - y)
             + (z + - z) * (z + - z)) with 0 by ring.
    symmetry. apply sqrt_0.
Qed.

Lemma direction_color2_same (p : vec2) :
  match direction_color2 p p with
  | None => True
  | Some c => any_isnan c = true
  end.
Proof.
  destruct p as [[x| | |] [y| | |]];
    first [ rewrite direction_color2_same_Fin; exact I
          | cbn; reflexivity ].
Qed.

Lemma direction_color3_same (p : vec3) :
  match direction_color3 p p with
  | None => True
  | Some c => any_isnan c = true
  end.
Proof.
  destruct p as [[[x| | |] [y| | |]] [z| | |]];
    first [ rewrite direction_color3_same_Fin; exact I
          | cbn; reflexivity ].
Qed.

Lemma uv_same a t w :
  no_usable_color (get_uv_space_direction_color a a t w).
Proof.
  unfold get_uv_space_direction_color, qbind.
  destruct (line_trace_for_uv a t w) as [[uv hit]|ex] eqn:E; [|exact I].
  rewrite E.
  destruct uv as [[[p0 p1] p2]|]; [|cbn; reflexivity].
  pose proof (direction_color2_same (p0, p1)) as Hs.
  destruct (direction_color2 (p0, p1) (p0, p1)); cbn; [exact Hs|reflexivity].
Qed.

Lemma world_same a t w :
  no_usable_color (get_world_space_direction_color a a t w).
Proof.
  unfold get_world_space_direction_color, qbind, qlift.
  destruct (line_trace_for_pos a t w) as [r|ex] eqn:E; [|exact I].
  destruct (unpack2 r) as [[loc hw]|ex] eqn:E2; [|exact I].
  rewrite E, E2.
  destruct hw as [hw|]; [|cbn; reflexivity].
  pose proof (direction_color3_same hw) as Hs.
  destruct (direction_color3 hw hw); cbn; [exact Hs|reflexivity].
Qed.

Lemma obj_same a t w :
  no_usable_color (get_obj_space_direction_color a a t w).
Proof.
  unfold get_obj_space_direction_color, qbind, qlift, ask.
  destruct (line_trace_for_pos a t w) as [r|ex] eqn:E; [|exact I].
  destruct (unpack2 r) as [[loc hw]|ex] eqn:E2; [|exact I].
  rewrite E, E2.
  destruct hw as [hw|]; [|cbn; reflexivity].
  destruct (inverted _) as [mx|ex]; [|exact I].
  pose proof (direction_color3_same (matmul mx hw)) as Hs.
  destruct (direction_color3 (matmul mx hw) (matmul mx hw)); cbn;
    [exact Hs|reflexivity].
Qed.

Lemma screen_same p w :
  get_direction_color FLOWMAP_OT_image_editor p p w
  = Ok (Some (Fin (/ 2), Fin (/ 2), Fin 0), None).
Proof.
  unfold get_direction_color. rewrite !Z.sub_diag.
  cbn [of_Z ideal]. rewrite norm2_Fin. cbn [neqb ideal].
  replace (sqrt _) with 0
    by (replace (0 * 0 + 0 * 0) with 0 by ring; symmetry; apply sqrt_0).
  destruct (xeqb_Fin 0 0) as [_ ->]; [|reflexivity].
  unfold qret, color_range. cbn [nadd nmul half of_Z ideal xadd xmul].
  replace ((0 + 1) * / 2) with (/ 2) by lra. reflexivity.
Qed.

(** C2, as amended.  With the current position equal to the previous one,
    the screen-space encoder does return a colour, the neutral
    (0.5, 0.5, 0).  The UV-, object- and world-space encoders return none
    when the positions are real (the norm is then zero); on any positions
    they hand the caller no colour it will use: they raise, return
    [(None, None)], or return a colour with a NaN channel, which [modal]
    discards. *)
Theorem coincident_positions_give_no_direction :
  (forall p w,
      get_direction_color FLOWMAP_OT_image_editor p p w
      = Ok (Some (Fin (/ 2), Fin (/ 2), Fin 0), None))
  /\ (forall x y : R,
        direction_color2 (Fin x, Fin y) (Fin x, Fin y) = None)
  /\ (forall x y z : R,
        direction_color3 (Fin x, Fin y, Fin z) (Fin x, Fin y, Fin z) = None)
  /\ (forall a t w, no_usable_color (get_uv_space_direction_color a a t w))
  /\ (forall a t w, no_usable_color (get_obj_space_direction_color a a t w))
  /\ (forall a t w, no_usable_color (get_world_space_direction_color a a t w))
  /\ (forall p w,
        mouse_prev_position (self w) = p ->
        no_usable_color (get_direction_color FLOWMAP_OT_3d_viewport p p w)).
Proof.
  split; [exact screen_same|].
  split; [exact direction_color2_same_Fin|].
  split; [exact direction_color3_same_Fin|].
  split; [exact uv_same|].
  split; [exact obj_same|].
  split; [exact world_same|].
  intros p w Hp. unfold get_direction_color, qbind, ask. rewrite Hp.
  destruct (flowmap_space_type (context w));
    [apply uv_same|apply obj_same|apply world_same].
Qed.

End Coincident.

(** ** The stroke interpolator *)

Section Interpolator.
Context {A : Arith} {H : Host}.







End Interpolator.

(** ** Slow movements *)

Lemma ideal_lt_excludes_ge : lt_excludes_ge ideal.
Proof.
  intros a b. cbn [nltb nleb ideal].
  destruct a as [x| | |], b as [y| | |]; cbn; try congruence.
  destruct (Rlt_dec x y), (Rle_dec y x); try congruence. lra.
Qed.

Lemma SFcompare_Lt_swap (x y : spec_float) :
  SFcompare x y = Some Lt -> SFcompare y x = Some Gt.
Proof.
  destruct x as [sx|sx| |sx mx ex], y as [sy|sy| |sy my ey]; cbn;
    try discriminate;
    repeat match goal with b : bool |- _ => destruct b end;
    try discriminate; try reflexivity.
  all: change (Pos.compare_cont Eq my mx) with (Pos.compare my mx);
    change (Pos.compare_cont Eq mx my) with (Pos.compare mx my);
    rewrite (Z.compare_antisym ex ey), (Pos.compare_antisym mx my);
    destruct (ex ?= ey)%Z; cbn; try discriminate; try reflexivity;
    destruct (mx ?= my)%positive; cbn; try discriminate; reflexivity.
Qed.

Lemma float64_lt_excludes_ge : lt_excludes_ge float64.
Proof.
  intros a b. cbn [nltb nleb float64].
  rewrite ltb_spec, leb_spec. unfold SFltb, SFleb.
  destruct (SFcompare (Prim2SF a) (Prim2SF b)) as [[| |]|] eqn:E;
    try discriminate.
  intros _. now rewrite (SFcompare_Lt_swap _ _ E).
Qed.

Section Slow.
Context {A : Arith} {H : Host}.

Lemma slow_update_view op e w :
  lt_excludes_ge A ->
  is_position_update e = true ->
  below_spacing w (furthest_position (self w)) e = true ->
  stroke_view (snd (modal op e w)) = stroke_view w
  /\ fst (modal op e w) <> Ok FINISHED.
Proof.
  intros Hlaw Hpu Hb. rewrite modal_position_update by exact Hpu.
  split; [|apply position_update_status].
  unfold position_update, below_spacing in *.
  apply Hlaw in Hb.
  unfold bind at 1. cbn [get]. rewrite Hb.
  rewrite bind_preserved by (intro; pose proof redraw_cursor_view; frame).
  reflexivity.
Qed.

(** C5, as amended.  Given a sequence of position updates each of whose
    positions is at a distance below the spacing from [furthest_position]
    as it stands when the sequence starts, no dot is emitted, no stroke is
    painted and [furthest_position] does not change, at any point of the
    sequence.  (Stated for every arithmetic in which [a < b] rules out
    [b <= a].) *)
Theorem slow_moves_emit_nothing (op : operator) (events : list Event)
  (w : World) :
  lt_excludes_ge A ->
  Forall (fun e => is_position_update e = true
                   /\ below_spacing w (furthest_position (self w)) e = true)
         events ->
  forall k, let w' := snd (run op (firstn k events) w) in
            dots w' = dots w
            /\ strokes w' = strokes w
            /\ furthest_position (self w') = furthest_position (self w).
Proof.
  intros Hlaw Hall k.
  assert (Hv : stroke_view (snd (run op (firstn k events) w)) = stroke_view w).
  { revert w Hall k. induction events as [|e rest IH]; intros w Hall k.
    - destruct k; reflexivity.
    - destruct k as [|k]; [reflexivity|].
      inversion Hall as [|? ? [Hpu Hb] Hrest]; subst.
      cbn [firstn run]. unfold bind.
      destruct (slow_update_view op e w Hlaw Hpu Hb) as [Hview Hfin].
      destruct (modal op e w) as [[r|ex] w1]; cbn [fst snd] in *; [|exact Hview].
      assert (Hrest' : Forall (fun e => is_position_update e = true
                 /\ below_spacing w1 (furthest_position (self w1)) e = true) rest).
      { unfold stroke_view in Hview. injection Hview as _ _ Hc Hf.
        unfold below_spacing in *. rewrite Hc, Hf. exact Hrest. }
      destruct r; try congruence; rewrite (IH w1 Hrest' k); exact Hview. }
  unfold stroke_view in Hv. injection Hv as Hd Hs _ Hf. auto.
Qed.

End Slow.

(** ** The temporary data *)

Section TempData.
Context {A : Arith} {H : Host}.

Lemma coll_get_name T (name : T -> string) l n x :
  coll_get name l n = Some x -> name x = n.
Proof.
  unfold coll_get. intros E. apply find_some in E. destruct E as [_ E].
  now apply String.eqb_eq.
Qed.

Lemma coll_remove_other T (name : T -> string) n (keep : T -> bool) l :
  (forall x, name x = n -> keep x = false) ->
  filter keep (coll_remove name n l) = filter keep l.
Proof.
  intros Hk. induction l as [|x l IH]; [reflexivity|].
  cbn [coll_remove]. destruct (String.eqb_spec (name x) n) as [E|E].
  - cbn [filter]. now rewrite (Hk x E).
  - cbn [filter]. now rewrite IH.
Qed.

Lemma remove_temp_obj_spec w :
  fst (remove_temp_obj w) = Ok tt
  /\ other_meshes (snd (remove_temp_obj w)) = other_meshes w
  /\ self (snd (remove_temp_obj w)) = self w
  /\ context (snd (remove_temp_obj w)) = context w.
Proof.
  unfold remove_temp_obj, bind, get, modify_data, modify, ret.
  cbn [fst snd].
  destruct (coll_get me_name (meshes (data w)) temp_mesh_name) as [m|] eqn:Em;
    cbn [fst snd set_data data meshes_remove objects meshes].
  - apply coll_get_name in Em.
    match goal with
    | |- context [coll_get ?f ?l temp_obj_name] =>
        destruct (coll_get f l temp_obj_name)
    end; cbn; (split; [reflexivity|]); (split; [|split; reflexivity]);
      unfold other_meshes; cbn; apply coll_remove_other;
      intros x Hx; unfold is_temp_mesh; rewrite Hx, Em, String.eqb_refl;
      reflexivity.
  - match goal with
    | |- context [coll_get ?f ?l temp_obj_name] =>
        destruct (coll_get f l temp_obj_name)
    end; cbn; repeat split; reflexivity.
Qed.

End TempData.

Section Triangulate.
Context {A : Arith} {H : Host}.

Lemma triangulate_object_spec (t : Obj) (w : World) :
  exists tri w' m1,
    triangulate_object t w = (Ok tri, w')
    /\ meshes (data w')
       = meshes (data (snd (remove_temp_obj w))) ++ [m1; ob_data tri]
    /\ me_name m1 <> me_name (ob_data tri)
    /\ self w' = self w
    /\ context w' = context w.
Proof.
  destruct (remove_temp_obj_spec w) as (Hok & _ & Hself & Hctx).
  unfold triangulate_object. unfold bind at 1.
  destruct (remove_temp_obj w) as [r w1]. cbn [fst snd] in *. subst r.
  cbn -[unique_name String.eqb].
  do 3 eexists.
  split; [reflexivity|].
  cbn -[unique_name String.eqb].
  split; [rewrite <- app_assoc; reflexivity|].
  split; [|split; assumption].
  intros E.
  match type of E with
  | ?n1 = unique_name ?used ?n =>
      apply (@unique_name_fresh _ _ used n); rewrite <- E
  end.
  rewrite map_app. apply in_or_app. right. left. reflexivity.
Qed.

End Triangulate.

Section Startups.
Context {A : Arith} {H : Host}.

Lemma startup_spec (w : World) :
  exists tri w' m1,
    startup FLOWMAP_OT_3d_viewport w = (Ok tt, w')
    /\ tri_obj (self w') = Some tri
    /\ meshes (data w')
       = meshes (data (snd (remove_temp_obj w))) ++ [m1; ob_data tri]
    /\ me_name m1 <> me_name (ob_data tri)
    /\ context w' = context w.
Proof.
  destruct (triangulate_object_spec (active_object (context w)) w)
    as (tri & w1 & m1 & Ht & Hm & Hne & Hs & Hc).
  exists tri, (set_self (set_tri_obj (Some tri) (self w1)) w1), m1.
  unfold startup, bind, get. rewrite Ht. cbn.
  repeat split; assumption.
Qed.

Lemma other_meshes_app (w w' : World) l :
  meshes (data w') = meshes (data w) ++ l ->
  other_meshes w' = other_meshes w ++ filter (fun m => negb (is_temp_mesh m)) l.
Proof. unfold other_meshes. intros ->. apply filter_app. Qed.

Lemma startup_grows (w : World) :
  exists w',
    startup FLOWMAP_OT_3d_viewport w = (Ok tt, w')
    /\ List.length (other_meshes w) + 1 <= List.length (other_meshes w').
Proof.
  destruct (startup_spec w) as (tri & w' & m1 & Hs & _ & Hm & Hne & _).
  exists w'. split; [exact Hs|].
  destruct (remove_temp_obj_spec w) as (_ & Ho & _).
  rewrite (@other_meshes_app (snd (remove_temp_obj w)) w' _ Hm), Ho, length_app.
  apply Nat.add_le_mono_l. cbn [filter]. unfold is_temp_mesh.
  destruct (String.eqb_spec (me_name m1) temp_mesh_name) as [E1|E1];
    destruct (String.eqb_spec (me_name (ob_data tri)) temp_mesh_name) as [E2|E2];
    cbn; try lia.
  congruence.
Qed.

Lemma cleanup_other_meshes op : preserves other_meshes (cleanup op).
Proof.
  intros w. destruct op; [reflexivity|]. cbn [cleanup].
  now destruct (remove_temp_obj_spec w) as (_ & Ho & _).
Qed.

(** C9.  Every startup of the 3D operator leaves in [bpy.data.meshes] at
    least one more mesh that is not named FLOWMAP_temp_mesh, and that
    [remove_temp_obj] therefore never removes: after any number of startups,
    with or without a cleanup before each, the meshes of other names are at
    least as many more as there were startups. *)
Theorem restarts_accumulate_meshes (cleanups : list bool) (w : World) :
  exists w',
    restarts cleanups w = (Ok tt, w')
    /\ List.length (other_meshes w) + List.length cleanups
       <= List.length (other_meshes w').
Proof.
  revert w. induction cleanups as [|c rest IH]; intros w.
  - exists w. split; [reflexivity|]. cbn. lia.
  - assert (Hstart : forall w0,
              other_meshes w0 = other_meshes w ->
              exists w',
                bind (startup FLOWMAP_OT_3d_viewport)
                     (fun _ => restarts rest) w0 = (Ok tt, w')
                /\ List.length (other_meshes w) + List.length (c :: rest)
                   <= List.length (other_meshes w')).
    { intros w0 Ho.
      destruct (startup_grows w0) as (w1 & Hs & Hg).
      destruct (IH w1) as (w2 & Hr & Hl).
      exists w2. unfold bind. rewrite Hs. split; [exact Hr|].
      rewrite Ho in Hg. cbn [List.length]. lia. }
    cbn [restarts]. unfold bind at 1. destruct c.
    + cbn [cleanup]. destruct (remove_temp_obj_spec w) as (Hok & Ho & _).
      destruct (remove_temp_obj w) as [r w0]. cbn [fst snd] in *. subst r.
      apply Hstart. exact Ho.
    + apply Hstart. reflexivity.
Qed.

End Startups.

Section Cancel.
Context {A : Arith} {H : Host}.

Lemma clear_cursor_other_meshes : preserves other_meshes clear_cursor.
Proof. unfold clear_cursor. frame. Qed.

Lemma cancel_other_meshes op e w :
  type e = ESC -> other_meshes (snd (modal op e w)) = other_meshes w.
Proof.
  intros He. unfold modal. rewrite He.
  assert (Hp : preserves other_meshes
                 (modify (set_color (half, half, half)) ;;
                  clear_cursor ;; cleanup op ;; ret FINISHED)%cmd).
  { pose proof clear_cursor_other_meshes. pose proof (cleanup_other_meshes op).
    frame. }
  destruct (value e); apply Hp.
Qed.

(** C7.  After a startup of the 3D operator the triangulated mesh, the data
    of [self.tri_obj], is in [bpy.data.meshes], and the cancel event does not
    remove it (unless the host has named it FLOWMAP_temp_mesh, the one name
    [remove_temp_obj] looks for).  Whatever names the host gives, after the
    startup and the cancel [bpy.data.meshes] holds at least one more mesh of
    another name than before the startup. *)
Theorem cancel_keeps_triangulated_mesh (w : World) (e : Event) :
  type e = ESC ->
  exists tri w1,
    startup FLOWMAP_OT_3d_viewport w = (Ok tt, w1)
    /\ tri_obj (self w1) = Some tri
    /\ In (ob_data tri) (meshes (data w1))
    /\ (me_name (ob_data tri) <> temp_mesh_name ->
        In (ob_data tri)
           (meshes (data (snd (modal FLOWMAP_OT_3d_viewport e w1)))))
    /\ List.length (other_meshes w) + 1
       <= List.length
            (other_meshes (snd (modal FLOWMAP_OT_3d_viewport e w1))).
Proof.
  intros He.
  destruct (startup_spec w) as (tri & w1 & m1 & Hs & Ht & Hm & _ & _).
  exists tri, w1.
  assert (Hin : In (ob_data tri) (meshes (data w1))).
  { rewrite Hm. apply in_or_app. right. right. left. reflexivity. }
  pose proof (cancel_other_meshes FLOWMAP_OT_3d_viewport e w1 He) as Hc.
  repeat split; try assumption.
  - intros Hname.
    assert (Ho : In (ob_data tri) (other_meshes w1)).
    { unfold other_meshes. apply filter_In. split; [exact Hin|].
      unfold is_temp_mesh.
      destruct (String.eqb_spec (me_name (ob_data tri)) temp_mesh_name);
        [contradiction|reflexivity]. }
    rewrite <- Hc in Ho.
    unfold other_meshes in Ho. apply filter_In in Ho. tauto.
  - rewrite Hc. destruct (startup_grows w) as (w' & Hs' & Hg).
    rewrite Hs in Hs'. injection Hs' as <-. exact Hg.
Qed.

End Cancel.

(** ** The datablocks found by name *)

Section Collections.
Variables (T : Type) (name : T -> string).

Lemma coll_get_None l n :
  coll_get name l n = None <-> ~ In n (map name l).
Proof.
  unfold coll_get. split.
  - intros E Hin. apply in_map_iff in Hin. destruct Hin as (x & Hx & Hin).
    apply (find_none _ _ E) in Hin. rewrite Hx, String.eqb_refl in Hin.
    discriminate.
  - intros Hn. induction l as [|x l IH]; [reflexivity|].
    cbn [find]. destruct (String.eqb_spec (name x) n) as [E|E].
    + exfalso. apply Hn. left. exact E.
    + apply IH. intros Hin. apply Hn. right. exact Hin.
Qed.

Lemma coll_remove_names l n x :
  In x (map name (coll_remove name n l)) -> In x (map name l).
Proof.
  induction l as [|y l IH]; [easy|]. cbn [coll_remove].
  destruct (String.eqb (name y) n); cbn [map]; intros Hin.
  - right. exact Hin.
  - destruct Hin as [E|Hin]; [left; exact E|right; now apply IH].
Qed.

Lemma coll_remove_NoDup l n :
  NoDup (map name l) -> NoDup (map name (coll_remove name n l)).
Proof.
  induction l as [|y l IH]; [easy|]. cbn [coll_remove map].
  intros Hnd. inversion Hnd as [|? ? Hy Hl]; subst.
  destruct (String.eqb (name y) n); [exact Hl|].
  cbn [map]. constructor; [|now apply IH].
  intros Hin. apply Hy. now apply coll_remove_names in Hin.
Qed.

Lemma coll_remove_gone l n :
  NoDup (map name l) -> ~ In n (map name (coll_remove name n l)).
Proof.
  induction l as [|y l IH]; [easy|]. cbn [coll_remove map].
  intros Hnd. inversion Hnd as [|? ? Hy Hl]; subst.
  destruct (String.eqb_spec (name y) n) as [E|E].
  - now rewrite <- E.
  - cbn [map]. intros [E'|Hin]; [contradiction|]. now apply IH in Hin.
Qed.

Lemma filter_names (keep : T -> bool) l x :
  In x (map name (filter keep l)) -> In x (map name l).
Proof.
  intros Hin. apply in_map_iff in Hin. destruct Hin as (y & Hy & Hin).
  apply filter_In in Hin. apply in_map_iff. exists y. tauto.
Qed.

Lemma filter_NoDup (keep : T -> bool) l :
  NoDup (map name l) -> NoDup (map name (filter keep l)).
Proof.
  induction l as [|y l IH]; [easy|]. cbn [map filter].
  intros Hnd. inversion Hnd as [|? ? Hy Hl]; subst.
  destruct (keep y); [|now apply IH].
  cbn [map]. constructor; [|now apply IH].
  intros Hin. apply Hy. now apply filter_names in Hin.
Qed.

End Collections.

Section NamedData.
Context {A : Arith} {H : Host}.

Lemma remove_temp_obj_clears (w : World) :
  unique_names (data w) ->
  exists w',
    remove_temp_obj w = (Ok tt, w')
    /\ coll_get me_name (meshes (data w')) temp_mesh_name = None
    /\ coll_get (@ob_name _ _) (objects (data w')) temp_obj_name = None
    /\ unique_names (data w').
Proof.
  intros [Hm Ho]. unfold remove_temp_obj, bind, get, modify_data, modify, ret.
  cbn [fst snd].
  destruct (coll_get me_name (meshes (data w)) temp_mesh_name) as [m|] eqn:Em;
    cbn [fst snd set_data data meshes_remove objects meshes].
  - assert (En : me_name m = temp_mesh_name).
    { unfold coll_get in Em. apply find_some in Em. destruct Em as [_ Em].
      now apply String.eqb_eq. }
    set (os := filter (fun o => negb (uses_mesh m o)) (objects (data w))).
    assert (Hos : NoDup (map (@ob_name _ _) os)) by now apply filter_NoDup.
    assert (Hms : coll_get me_name
                    (coll_remove me_name (me_name m) (meshes (data w)))
                    temp_mesh_name = None).
    { apply coll_get_None. rewrite En. now apply coll_remove_gone. }
    destruct (coll_get (@ob_name _ _) os temp_obj_name) as [o|] eqn:Eo.
    + assert (Eon : ob_name o = temp_obj_name).
      { unfold coll_get in Eo. apply find_some in Eo. destruct Eo as [_ Eo].
        now apply String.eqb_eq. }
      eexists. split; [reflexivity|].
      cbn [data set_data meshes objects objects_remove].
      split; [exact Hms|]. split.
      * apply coll_get_None. rewrite Eon. now apply coll_remove_gone.
      * split; [now apply coll_remove_NoDup|now apply coll_remove_NoDup].
    + eexists. split; [reflexivity|].
      cbn [data set_data meshes objects].
      split; [exact Hms|]. split; [exact Eo|].
      split; [now apply coll_remove_NoDup|exact Hos].
  - destruct (coll_get (@ob_name _ _) (objects (data w)) temp_obj_name)
      as [o|] eqn:Eo.
    + assert (Eon : ob_name o = temp_obj_name).
      { unfold coll_get in Eo. apply find_some in Eo. destruct Eo as [_ Eo].
        now apply String.eqb_eq. }
      eexists. split; [reflexivity|].
      cbn [data set_data meshes objects objects_remove].
      split; [exact Em|]. split.
      * apply coll_get_None. rewrite Eon. now apply coll_remove_gone.
      * split; [exact Hm|now apply coll_remove_NoDup].
    + exists w. split; [reflexivity|]. repeat split; assumption.
Qed.

Lemma remove_temp_obj_nothing (w : World) :
  coll_get me_name (meshes (data w)) temp_mesh_name = None ->
  coll_get (@ob_name _ _) (objects (data w)) temp_obj_name = None ->
  remove_temp_obj w = (Ok tt, w).
Proof.
  intros Em Eo. unfold remove_temp_obj, bind, get, ret. cbn [fst snd].
  rewrite Em. cbn. rewrite Eo. reflexivity.
Qed.

Lemma clear_cursor_spec (w : World) :
  cursor (self w) = None \/ area_type (context w) <> OTHER_AREA ->
  exists w',
    clear_cursor w = (Ok tt, w')
    /\ data w' = data w
    /\ brush_color w' = brush_color w
    /\ cursor (self w') = None.
Proof.
  intros Hc. unfold clear_cursor, bind, get. cbn [fst snd].
  destruct (cursor (self w)) as [h|] eqn:Eh.
  - destruct Hc as [Hc|Hc]; [discriminate|].
    unfold get_cursor_target.
    destruct (area_type (context w)); try contradiction;
      eexists; (split; [reflexivity|]); cbn; repeat split.
  - exists w. repeat split. exact Eh.
Qed.

(** X1.  The part of the cancel that the code does carry out.  On ESC the
    brush colour is (0.5, 0.5, 0.5) whatever else happens.  In a [bpy.data]
    with distinct names, and with a cursor that can be cleared, the 3D
    operator finishes without an exception, and afterwards no mesh is named
    FLOWMAP_temp_mesh, no object is named FLOWMAP_temp_obj, and a further
    [remove_temp_obj] changes nothing. *)
Theorem cancel_resets_color_and_named_temp_data (e : Event) (w : World) :
  type e = ESC ->
  (forall op, brush_color (snd (modal op e w)) = (half, half, half))
  /\ (unique_names (data w) ->
      cursor (self w) = None \/ area_type (context w) <> OTHER_AREA ->
      exists w',
        modal FLOWMAP_OT_3d_viewport e w = (Ok FINISHED, w')
        /\ brush_color w' = (half, half, half)
        /\ coll_get me_name (meshes (data w')) temp_mesh_name = None
        /\ coll_get (@ob_name _ _) (objects (data w')) temp_obj_name = None
        /\ remove_temp_obj w' = (Ok tt, w')).
Proof.
  intros He. split.
  - intros op. unfold modal. rewrite He.
    assert (E : brush_color
                  (snd ((modify (set_color (half, half, half)) ;;
                         clear_cursor ;; cleanup op ;; ret FINISHED)%cmd w))
                = (half, half, half)).
    { rewrite bind_preserved by (intro; frame). reflexivity. }
    destruct (value e); exact E.
  - intros Hu Hc.
    set (w0 := set_color (half, half, half) w).
    destruct (@clear_cursor_spec w0 Hc) as (w1 & Hcl & Hd & Hb & _).
    assert (Hu1 : unique_names (data w1)) by (rewrite Hd; exact Hu).
    destruct (remove_temp_obj_clears w1 Hu1) as (w2 & Hr & Hm & Ho & _).
    exists w2.
    assert (E : (modify (set_color (half, half, half)) ;;
                 clear_cursor ;; cleanup FLOWMAP_OT_3d_viewport ;;
                 ret FINISHED)%cmd w = (Ok FINISHED, w2)).
    { unfold bind at 1. cbn [modify]. fold w0.
      unfold bind at 1. rewrite Hcl.
      unfold bind. cbn [cleanup]. rewrite Hr. reflexivity. }
    split; [unfold modal; rewrite He; destruct (value e); exact E|].
    split.
    { pose proof (remove_temp_obj_color w1) as Hp. rewrite Hr in Hp.
      cbn [snd] in Hp. rewrite Hp, Hb. reflexivity. }
    split; [exact Hm|]. split; [exact Ho|].
    now apply remove_temp_obj_nothing.
Qed.

End NamedData.

(** ** One temporary object *)

Section OneTempObject.
Context {A : Arith} {H : Host}.

Lemma map_upd_other n (f : Obj -> Obj) (l : list Obj) :
  ~ In n (map (@ob_name _ _) l) ->
  map (fun x => if String.eqb (ob_name x) n then f x else x) l = l.
Proof.
  induction l as [|x l IH]; [reflexivity|]. cbn [map]. intros Hn.
  destruct (String.eqb_spec (ob_name x) n) as [E|E].
  - exfalso. apply Hn. left. exact E.
  - rewrite IH; [reflexivity|]. intros Hin. apply Hn. right. exact Hin.
Qed.

Lemma coll_remove_app_first (l r : list Obj) n x :
  ~ In n (map (@ob_name _ _) l) -> ob_name x = n ->
  coll_remove (@ob_name _ _) n (l ++ x :: r) = l ++ r.
Proof.
  induction l as [|y l IH]; cbn [map coll_remove app]; intros Hn Hx.
  - rewrite Hx, String.eqb_refl. reflexivity.
  - destruct (String.eqb_spec (ob_name y) n) as [E|E].
    + exfalso. apply Hn. left. exact E.
    + rewrite IH; [reflexivity| |exact Hx]. intros Hin. apply Hn. now right.
Qed.


Lemma NoDup_snoc (l : list string) x :
  NoDup l -> ~ In x l -> NoDup (l ++ [x]).
Proof.
  induction l as [|y l IH]; cbn [app]; intros Hnd Hx.
  - constructor; [easy|constructor].
  - inversion Hnd as [|? ? Hy Hl]; subst. constructor.
    + intros Hin. apply in_app_or in Hin. destruct Hin as [Hin|[E|[]]].
      * exact (Hy Hin).
      * apply Hx. left. symmetry. exact E.
    + apply IH; [exact Hl|]. intros Hin. apply Hx. right. exact Hin.
Qed.

Lemma filter_all (keep : Obj -> bool) (l : list Obj) :
  (forall x, In x l -> keep x = true) -> filter keep l = l.
Proof.
  induction l as [|x l IH]; [reflexivity|]. intros Hk. cbn [filter].
  rewrite (Hk x (or_introl eq_refl)), IH; [reflexivity|].
  intros y Hy. apply Hk. right. exact Hy.
Qed.

Lemma filter_none (keep : Obj -> bool) (l : list Obj) :
  (forall x, In x l -> keep x = false) -> filter keep l = [].
Proof.
  induction l as [|x l IH]; [reflexivity|]. intros Hk. cbn [filter].
  rewrite (Hk x (or_introl eq_refl)), IH; [reflexivity|].
  intros y Hy. apply Hk. right. exact Hy.
Qed.

Lemma not_temp_name (l : list Obj) x :
  ~ In temp_obj_name (map (@ob_name _ _) l) -> In x l -> is_temp_obj x = false.
Proof.
  intros Hn Hx. unfold is_temp_obj.
  destruct (String.eqb_spec (ob_name x) temp_obj_name) as [E|E]; [|reflexivity].
  exfalso. apply Hn. rewrite <- E. now apply in_map.
Qed.

Lemma coll_remove_filter_length (keep : Obj -> bool) n (l : list Obj) :
  List.length (filter keep (coll_remove (@ob_name _ _) n l))
  <= List.length (filter keep l).
Proof.
  induction l as [|x l IH]; [reflexivity|]. cbn [coll_remove].
  destruct (String.eqb (ob_name x) n); cbn [filter];
    destruct (keep x); cbn [List.length]; lia.
Qed.

Lemma filter_filter_length (keep drop : Obj -> bool) (l : list Obj) :
  List.length (filter keep (filter drop l)) <= List.length (filter keep l).
Proof.
  induction l as [|x l IH]; [reflexivity|]. cbn [filter].
  destruct (drop x); cbn [filter]; destruct (keep x); cbn [List.length]; lia.
Qed.

Lemma remove_temp_obj_other_objects (w : World) :
  List.length (other_objects (snd (remove_temp_obj w)))
  <= List.length (other_objects w).
Proof.
  unfold other_objects, remove_temp_obj, bind, get, modify_data, modify, ret.
  cbn [fst snd].
  destruct (coll_get me_name (meshes (data w)) temp_mesh_name) as [m|];
    cbn [fst snd set_data data meshes_remove objects meshes].
  - match goal with
    | |- context [coll_get ?f ?l temp_obj_name] =>
        destruct (coll_get f l temp_obj_name)
    end; cbn [fst snd set_data data objects_remove objects meshes].
    + etransitivity; [apply coll_remove_filter_length|].
      apply filter_filter_length.
    + apply filter_filter_length.
  - destruct (coll_get (@ob_name _ _) (objects (data w)) temp_obj_name);
      cbn [fst snd set_data data objects_remove objects meshes].
    + apply coll_remove_filter_length.
    + reflexivity.
Qed.

Lemma triangulate_object_names (t : Obj) (w : World) :
  unique_names (data w) ->
  unique_name (map (@ob_name _ _) (objects (data (snd (remove_temp_obj w)))))
              (ob_name t) <> temp_obj_name ->
  exists tri w',
    triangulate_object t w = (Ok tri, w')
    /\ ob_name tri = temp_obj_name
    /\ objects (data w') = objects (data (snd (remove_temp_obj w))) ++ [tri]
    /\ ~ In temp_obj_name
         (map (@ob_name _ _) (objects (data (snd (remove_temp_obj w)))))
    /\ unique_names (data w')
    /\ self w' = self w
    /\ context w' = context w.
Proof.
  intros Hu Hn1.
  destruct (remove_temp_obj_spec w) as (_ & _ & Hself & Hctx).
  destruct (remove_temp_obj_clears w Hu) as (w1 & Hr & _ & Ho & Hu1).
  rewrite Hr in Hn1, Hself, Hctx. cbn [snd] in Hn1, Hself, Hctx.
  unfold triangulate_object. unfold bind at 1. rewrite Hr.
  cbn -[unique_name String.eqb coll_remove].
  set (O := objects (data w1)) in *.
  set (n1 := unique_name (map (@ob_name _ _) O) (ob_name t)) in *.
  assert (Hfresh : ~ In n1 (map (@ob_name _ _) O))
    by (apply unique_name_fresh).
  assert (Htemp : ~ In temp_obj_name (map (@ob_name _ _) O))
    by (apply coll_get_None; exact Ho).
  rewrite !map_app. cbn [map ob_name set_ob_data add_modifier].
  rewrite !String.eqb_refl. cbn [map ob_name set_ob_data add_modifier].
  rewrite !(fun f => @map_upd_other n1 f O Hfresh).
  rewrite (unique_name_keep (map (@ob_name _ _) O ++ [n1]) temp_obj_name).
  2:{ intros Hin. apply in_app_or in Hin. destruct Hin as [Hin|[Hin|[]]].
      - exact (Htemp Hin).
      - exact (Hn1 Hin). }
  rewrite !(fun f => @map_upd_other temp_obj_name f O Htemp).
  destruct (String.eqb_spec n1 temp_obj_name) as [E|_]; [contradiction|].
  rewrite <- (app_assoc O). cbn [app].
  rewrite (@coll_remove_app_first O); [|exact Hfresh|reflexivity].
  rewrite map_app, (fun f => @map_upd_other temp_obj_name f O Htemp).
  cbn [map ob_name set_matrix_world]. rewrite String.eqb_refl.
  eexists _, _. split; [reflexivity|].
  cbn [data set_data objects meshes self context hide_set set_matrix_world
       ob_name].
  split; [reflexivity|]. split; [reflexivity|]. split; [exact Htemp|].
  split; [|split; assumption].
  destruct Hu1 as [Hm1 Ho1]. split; cbn [meshes objects].
  - rewrite !map_app. cbn [map rename_mesh me_name].
    apply NoDup_snoc; [apply NoDup_snoc|].
    + exact Hm1.
    + apply unique_name_fresh.
    + apply unique_name_fresh.
  - rewrite map_app. cbn [map ob_name]. apply NoDup_snoc; assumption.
Qed.

Lemma startup_names (w : World) :
  unique_names (data w) ->
  (forall used,
     unique_name used (ob_name (active_object (context w))) <> temp_obj_name) ->
  exists tri w',
    startup FLOWMAP_OT_3d_viewport w = (Ok tt, w')
    /\ tri_obj (self w') = Some tri
    /\ ob_name tri = temp_obj_name
    /\ temp_objects w' = [tri]
    /\ List.length (other_objects w') <= List.length (other_objects w)
    /\ unique_names (data w')
    /\ context w' = context w.
Proof.
  intros Hu Hhost.
  destruct (@triangulate_object_names (active_object (context w)) w Hu
              (Hhost _))
    as (tri & w1 & Ht & Hn & Hobj & Htemp & Hu1 & _ & Hc).
  exists tri, (set_self (set_tri_obj (Some tri) (self w1)) w1).
  unfold startup, bind, get. rewrite Ht.
  cbn [modify_self modify fst snd set_self self data context set_tri_obj
       tri_obj].
  unfold temp_objects, other_objects.
  cbn [set_self data]. rewrite Hobj, !filter_app. cbn [filter].
  unfold is_temp_obj at 2 4. rewrite Hn, String.eqb_refl. cbn [negb].
  rewrite filter_none by (intros x Hx; exact (not_temp_name _ x Htemp Hx)).
  rewrite filter_all
    by (intros x Hx; rewrite (not_temp_name _ x Htemp Hx); reflexivity).
  rewrite app_nil_r.
  do 4 (split; [reflexivity|]). split; [|split; assumption].
  pose proof (remove_temp_obj_other_objects w) as Hle.
  unfold other_objects in Hle at 1.
  rewrite filter_all in Hle
    by (intros x Hx; rewrite (not_temp_name _ x Htemp Hx); reflexivity).
  exact Hle.
Qed.

Lemma cleanup_names (w : World) :
  unique_names (data w) ->
  exists w',
    cleanup FLOWMAP_OT_3d_viewport w = (Ok tt, w')
    /\ List.length (other_objects w') <= List.length (other_objects w)
    /\ unique_names (data w')
    /\ context w' = context w.
Proof.
  intros Hu. cbn [cleanup].
  destruct (remove_temp_obj_clears w Hu) as (w1 & Hr & _ & _ & Hu1).
  pose proof (remove_temp_obj_other_objects w) as Hle.
  destruct (remove_temp_obj_spec w) as (_ & _ & _ & Hc).
  rewrite Hr in Hle, Hc. cbn [snd] in Hle, Hc.
  exists w1. repeat split; try assumption; apply Hu1.
Qed.

Lemma bind_assoc S X Y Z (a : M S X) (f : X -> M S Y) (g : Y -> M S Z) w :
  bind (bind a f) g w = bind a (fun x => bind (f x) g) w.
Proof. unfold bind. destruct (a w) as [[x|e] w1]; reflexivity. Qed.

Lemma restart_names (c : bool) (w : World) :
  unique_names (data w) ->
  (forall used,
     unique_name used (ob_name (active_object (context w))) <> temp_obj_name) ->
  exists tri w',
    ((if c then cleanup FLOWMAP_OT_3d_viewport else ret tt) ;;
     startup FLOWMAP_OT_3d_viewport)%cmd w = (Ok tt, w')
    /\ tri_obj (self w') = Some tri
    /\ temp_objects w' = [tri]
    /\ List.length (other_objects w') <= List.length (other_objects w)
    /\ unique_names (data w')
    /\ context w' = context w.
Proof.
  intros Hu Hhost.
  assert (Hstart : forall w0,
            unique_names (data w0) -> context w0 = context w ->
            List.length (other_objects w0) <= List.length (other_objects w) ->
            exists tri w',
              startup FLOWMAP_OT_3d_viewport w0 = (Ok tt, w')
              /\ tri_obj (self w') = Some tri
              /\ temp_objects w' = [tri]
              /\ List.length (other_objects w')
                 <= List.length (other_objects w)
              /\ unique_names (data w')
              /\ context w' = context w).
  { intros w0 Hu0 Hc0 Hle0.
    assert (Hh0 : forall used,
               unique_name used (ob_name (active_object (context w0)))
               <> temp_obj_name) by (rewrite Hc0; exact Hhost).
    destruct (@startup_names w0 Hu0 Hh0)
      as (tri & w1 & Hs & Ht & _ & Htmp & Hle & Hu1 & Hc1).
    exists tri, w1. repeat split; try assumption; try apply Hu1; [lia|].
    now rewrite Hc1. }
  unfold bind. destruct c.
  - destruct (@cleanup_names w Hu) as (w0 & Hcl & Hle & Hu0 & Hc0).
    rewrite Hcl. apply Hstart; assumption.
  - cbn [ret]. apply Hstart; [assumption|reflexivity|lia].
Qed.

Lemma restarts_cons c rest w :
  restarts (c :: rest) w
  = bind ((if c then cleanup FLOWMAP_OT_3d_viewport else ret tt) ;;
          startup FLOWMAP_OT_3d_viewport)%cmd (fun _ => restarts rest) w.
Proof. rewrite bind_assoc. reflexivity. Qed.

(** X2.  The part of "temporary data does not accumulate" that holds: the
    object.  In a [bpy.data] with distinct names, and on a host that does not
    name the working copy of the active object FLOWMAP_temp_obj, any number
    of startups of the 3D operator (one at least), with or without a cleanup
    before each, ends with exactly one object named FLOWMAP_temp_obj, the one
    in [self.tri_obj], and with no more objects of other names than at the
    beginning. *)
Theorem restarts_keep_one_temp_object (c : bool) (cleanups : list bool)
  (w : World) :
  unique_names (data w) ->
  (forall used,
     unique_name used (ob_name (active_object (context w))) <> temp_obj_name) ->
  exists tri w',
    restarts (c :: cleanups) w = (Ok tt, w')
    /\ tri_obj (self w') = Some tri
    /\ temp_objects w' = [tri]
    /\ List.length (other_objects w') <= List.length (other_objects w).
Proof.
  revert c w. induction cleanups as [|c' rest IH]; intros c w Hu Hhost;
    destruct (@restart_names c w Hu Hhost)
      as (tri & w1 & Hs & Ht & Htmp & Hle & Hu1 & Hc1);
    rewrite restarts_cons; unfold bind at 1; rewrite Hs.
  - exists tri, w1. repeat split; assumption.
  - assert (Hh1 : forall used,
               unique_name used (ob_name (active_object (context w1)))
               <> temp_obj_name) by (rewrite Hc1; exact Hhost).
    destruct (IH c' w1 Hu1 Hh1) as (tri2 & w2 & Hr & Ht2 & Htmp2 & Hle2).
    exists tri2, w2. repeat split; try assumption. lia.
Qed.

End OneTempObject.

(** ** Outcomes of a bind *)

Section Monad.
Variables (S X Y : Type).

Lemma bind_Ok (c : M S X) (k : X -> M S Y) s r s' :
  bind c k s = (Ok r, s') ->
  exists a s1, c s = (Ok a, s1) /\ k a s1 = (Ok r, s').
Proof.
  unfold bind. destruct (c s) as [[a|e] s1]; [|discriminate].
  intros E. now exists a, s1.
Qed.

Lemma bind_inv (c : M S X) (k : X -> M S Y) s r s' :
  bind c k s = (r, s') ->
  (exists a s1, c s = (Ok a, s1) /\ k a s1 = (r, s'))
  \/ (exists ex, c s = (Raise ex, s') /\ r = Raise ex).
Proof.
  unfold bind. destruct (c s) as [[a|ex] s1]; intros E.
  - left. now exists a, s1.
  - right. exists ex. now injection E as <- <-.
Qed.

End Monad.

(** ** Frames for the paint commands and for whole events *)

Section PaintFrames.
Context {A : Arith} {H : Host}.
Variables (X : Type) (f : World -> X).
Hypothesis f_dot : forall d w, f (add_dot d w) = f w.
Hypothesis f_stroke : forall s w, f (add_stroke s w) = f w.

Lemma paint_a_dot_frame p e l : preserves f (paint_a_dot p e l).
Proof.
  unfold paint_a_dot.
  repeat first
    [ apply preserves_bind | apply preserves_ret | apply preserves_get
    | apply preserves_modify; intros; first [apply f_dot | apply f_stroke]
    | match goal with
      | |- preserves _ (match ?x with _ => _ end) => destruct x
      | |- forall _, _ => intro
      end ].
Qed.

Lemma substeps_frame n k prev m e l : preserves f (substeps n k prev m e l).
Proof.
  induction k as [|k IH]; cbn [substeps]; [apply preserves_ret|].
  apply preserves_bind; [apply preserves_lift|]. intros q.
  apply preserves_bind; [apply paint_a_dot_frame|]. intros _. exact IH.
Qed.

Lemma paint_dots_frame d s m e l : preserves f (paint_dots d s m e l).
Proof.
  unfold paint_dots. apply preserves_bind; [apply preserves_get|]. intros w.
  destruct (pressing (self w)); [|apply preserves_ret].
  apply preserves_bind; [apply preserves_lift|]. intros n.
  destruct (nltb _ _); [apply substeps_frame|apply paint_a_dot_frame].
Qed.

End PaintFrames.

Section EventFrames.
Context {A : Arith} {H : Host}.
Variables (X : Type) (f : World -> X).
Hypothesis f_self : forall s w, f (set_self s w) = f w.
Hypothesis f_color : forall c w, f (set_color c w) = f w.
Hypothesis f_dot : forall d w, f (add_dot d w) = f w.
Hypothesis f_stroke : forall s w, f (add_stroke s w) = f w.
Hypothesis f_handlers : forall hs n w, f (set_draw_handlers hs n w) = f w.
Hypothesis f_data : forall d w, f (set_data d w) = f w.

Ltac frame_f :=
  repeat first
    [ apply preserves_bind | apply preserves_ret | apply preserves_get
    | apply preserves_raise | apply preserves_query | apply preserves_lift
    | apply preserves_modify; intros;
      first [ apply f_self | apply f_color | apply f_dot | apply f_stroke
            | apply f_handlers | apply f_data ]
    | match goal with
      | |- preserves _ (match ?x with _ => _ end) => destruct x
      | |- preserves _ (if ?x then _ else _) => destruct x
      | |- forall _, _ => intro
      end ].

Lemma clear_cursor_frame : preserves f clear_cursor.
Proof. unfold clear_cursor, modify_self. frame_f. Qed.

Lemma redraw_cursor_frame p : preserves f (redraw_cursor p).
Proof.
  unfold redraw_cursor. apply preserves_bind; [apply clear_cursor_frame|].
  unfold modify_self. frame_f.
Qed.

Lemma remove_temp_obj_frame : preserves f remove_temp_obj.
Proof. unfold remove_temp_obj, modify_data. frame_f. Qed.

Lemma triangulate_object_frame t : preserves f (triangulate_object t).
Proof.
  unfold triangulate_object.
  apply preserves_bind; [apply remove_temp_obj_frame|].
  unfold objects_new, meshes_new, objects_update, link, modify_data.
  frame_f.
Qed.

Lemma startup_frame op : preserves f (startup op).
Proof.
  destruct op; cbn [startup]; [apply preserves_ret|].
  apply preserves_bind; [apply preserves_get|]. intros w.
  apply preserves_bind; [apply triangulate_object_frame|]. intros t.
  unfold modify_self. frame_f.
Qed.

Lemma commit_sample_frame op d s m e : preserves f (commit_sample op d s m e).
Proof.
  unfold commit_sample.
  apply preserves_bind; [unfold modify_self; frame_f|]. intros _.
  apply preserves_bind; [apply preserves_get|]. intros w1.
  apply preserves_bind; [apply preserves_query|]. intros [dc loc].
  apply preserves_bind.
  { intros w2. rewrite set_brush_color_spec.
    destruct dc as [c|]; [destruct (any_isnan c)|];
      first [reflexivity|apply f_color]. }
  intros _. apply preserves_bind; [now apply paint_dots_frame|].
  intros _. unfold modify_self. frame_f.
Qed.

Lemma modal_frame op e : preserves f (modal op e).
Proof.
  assert (Hpos : preserves f (position_update op e)).
  { unfold position_update.
    apply preserves_bind; [apply preserves_get|]. intros w.
    apply preserves_bind.
    { destruct (nleb _ _); [apply commit_sample_frame|apply preserves_ret]. }
    intros _. apply preserves_bind; [apply redraw_cursor_frame|].
    intros _. apply preserves_ret. }
  unfold modal.
  destruct (type e), (value e); try exact Hpos;
    try (unfold modify_self; frame_f; fail).
  all: apply preserves_bind; [apply preserves_modify; apply f_color|];
    intros _; apply preserves_bind; [apply clear_cursor_frame|];
    intros _; apply preserves_bind; [|intros _; apply preserves_ret];
    destruct op; [apply preserves_ret|apply remove_temp_obj_frame].
Qed.

Lemma run_frame op events : preserves f (run op events).
Proof.
  induction events as [|e rest IH]; cbn [run]; [apply preserves_ret|].
  apply preserves_bind; [apply modal_frame|].
  intros r. destruct r; first [exact IH|apply preserves_ret].
Qed.

End EventFrames.

(** ** Idle movements *)

Section Idle.
Context {A : Arith} {H : Host}.

Lemma paint_dots_idle d s m e l w :
  pressing (self w) = false -> paint_dots d s m e l w = (Ok tt, w).
Proof. intros Hp. unfold paint_dots, bind, get. rewrite Hp. reflexivity. Qed.

Lemma redraw_cursor_paint_view p : preserves paint_view (redraw_cursor p).
Proof. unfold redraw_cursor, clear_cursor. frame. Qed.

Lemma remove_temp_obj_paint_view : preserves paint_view remove_temp_obj.
Proof. unfold remove_temp_obj. frame. Qed.

Lemma commit_sample_idle op d s m e w :
  pressing (self w) = false ->
  paint_view (snd (commit_sample op d s m e w)) = paint_view w.
Proof.
  intros Hp. unfold commit_sample.
  unfold bind at 1. cbn [modify_self modify fst snd].
  unfold bind at 1. cbn [get fst snd].
  unfold bind at 1. unfold query at 1.
  destruct (get_direction_color op m _ _) as [[dc loc]|ex];
    cbn [fst snd]; [|reflexivity].
  unfold bind at 1. rewrite set_brush_color_spec.
  set (w2 := match dc with
             | Some c => if any_isnan c then _ else _
             | None => _
             end).
  assert (Hw2 : paint_view w2 = paint_view w).
  { unfold w2. destruct dc as [c|]; [destruct (any_isnan c)|]; reflexivity. }
  assert (Hp2 : pressing (self w2) = false).
  { unfold paint_view in Hw2. injection Hw2 as _ _ ->. exact Hp. }
  unfold bind at 1. rewrite (paint_dots_idle _ _ _ _ _ _ Hp2).
  cbn [modify_self modify snd]. exact Hw2.
Qed.

Lemma position_update_idle op e w :
  pressing (self w) = false ->
  paint_view (snd (position_update op e w)) = paint_view w.
Proof.
  intros Hp. unfold position_update. unfold bind at 1. cbn [get].
  rewrite bind_preserved by (intro; pose proof redraw_cursor_paint_view; frame).
  destruct (nleb _ _); [now apply commit_sample_idle|reflexivity].
Qed.

Lemma modal_idle op e w :
  pressing (self w) = false -> is_press e = false ->
  paint_view (snd (modal op e w)) = paint_view w.
Proof.
  intros Hp He. unfold modal, is_press in *.
  assert (Hesc : paint_view
                   (snd ((modify (set_color (half, half, half)) ;;
                          clear_cursor ;; cleanup op ;; ret FINISHED)%cmd w))
                 = paint_view w).
  { assert (Hpr : preserves paint_view
                    (modify (set_color (half, half, half)) ;;
                     clear_cursor ;; cleanup op ;; ret FINISHED)%cmd).
    { pose proof remove_temp_obj_paint_view.
      unfold clear_cursor, cleanup. frame. }
    apply Hpr. }
  destruct (type e), (value e); try discriminate;
    first [ now apply position_update_idle
          | exact Hesc
          | unfold paint_view; cbn; now rewrite Hp
          | reflexivity ].
Qed.

(** X3.  While the button is not held nothing is painted.  From a world
    in which [pressing] is false, a sequence of events without a press of
    the left button leaves the dots and the calls to [bpy.ops.paint] as they
    were, and [pressing] false, whatever the events are, however far the
    mouse moves and whether or not a handler raises. *)
Theorem nothing_is_painted_while_idle (op : operator) (events : list Event)
  (w : World) :
  pressing (self w) = false ->
  (forall e, In e events -> is_press e = false) ->
  dots (snd (run op events w)) = dots w
  /\ strokes (snd (run op events w)) = strokes w
  /\ pressing (self (snd (run op events w))) = false.
Proof.
  intros Hp Hev.
  assert (Hv : paint_view (snd (run op events w)) = paint_view w).
  { revert w Hp. induction events as [|e rest IH]; intros w Hp; [reflexivity|].
    cbn [run]. unfold bind.
    pose proof (@modal_idle op e w Hp (Hev e (or_introl eq_refl))) as Hm.
    destruct (modal op e w) as [[r|ex] w1]; cbn [fst snd] in *; [|exact Hm].
    assert (Hp1 : pressing (self w1) = false).
    { unfold paint_view in Hm. injection Hm as _ _ ->. exact Hp. }
    assert (Hrest : paint_view (snd (run op rest w1)) = paint_view w1).
    { apply IH; [|exact Hp1]. intros e' He'. apply Hev. now right. }
    destruct r; cbn [snd]; try exact Hm; rewrite Hrest; exact Hm. }
  unfold paint_view in Hv. injection Hv as Hd Hs Hpr.
  rewrite Hd, Hs, Hpr. auto.
Qed.

End Idle.

(** ** Answers and anchors *)

Section Answers.
Context {A : Arith} {H : Host}.

Lemma position_update_answer op e w r :
  fst (position_update op e w) = Ok r -> r = RUNNING_MODAL.
Proof.
  unfold position_update, bind, get, ret. cbn.
  match goal with
  | |- context [let (_, _) := ?T in _] => destruct T as [[[]|ex] w1]
  end; cbn; [|discriminate].
  destruct (redraw_cursor _ w1) as [[[]|ex] w2]; cbn; congruence.
Qed.

(** X4.  What [modal] answers.  An event of another type than
    [LEFTMOUSE], [MOUSEMOVE] and [ESC] is passed through with the world
    untouched.  When [modal] returns, its answer is fixed by the type of the
    event: [FINISHED] on [ESC] only, [PASS_THROUGH] on the other types only,
    [RUNNING_MODAL] on the two mouse types. *)
Theorem modal_answers_by_event_type (op : operator) (e : Event) (w : World) :
  (type e = OTHER_EVENT -> modal op e w = (Ok PASS_THROUGH, w))
  /\ (forall r, fst (modal op e w) = Ok r -> r = answer (type e)).
Proof.
  split.
  - intros He. unfold modal. rewrite He. reflexivity.
  - intros r. unfold modal.
    assert (Hesc : fst ((modify (set_color (half, half, half)) ;;
                         clear_cursor ;; cleanup op ;; ret FINISHED)%cmd w)
                   = Ok r -> r = FINISHED).
    { unfold bind, modify, ret. cbn.
      match goal with
      | |- context [let (_, _) := ?T in _] => destruct T as [[[]|ex] w1]
      end; cbn; [|discriminate].
      destruct (cleanup op w1) as [[[]|ex] w2]; cbn; congruence. }
    destruct (type e), (value e); cbn [answer];
      first [ apply position_update_answer | exact Hesc
            | cbn; congruence ].
Qed.

Lemma redraw_cursor_self_view X (g : Self -> X)
  (Hg : forall c s, g (set_cursor c s) = g s) p :
  preserves (fun w => g (self w)) (redraw_cursor p).
Proof.
  unfold redraw_cursor, clear_cursor.
  repeat first
    [ apply preserves_bind | apply preserves_ret | apply preserves_get
    | apply preserves_raise
    | apply preserves_modify; intros; cbn; first [apply Hg | reflexivity]
    | match goal with
      | |- preserves _ (match ?x with _ => _ end) => destruct x
      | |- forall _, _ => intro
      end ].
Qed.

Lemma commit_sample_furthest op d s m e w :
  furthest_position (self (snd (commit_sample op d s m e w))) = m.
Proof.
  unfold commit_sample.
  rewrite (@bind_preserved _ _ _ (fun w => furthest_position (self w)));
    [reflexivity|].
  intros _. apply preserves_bind; [apply preserves_get|]. intros w1.
  apply preserves_bind; [apply preserves_query|]. intros [dc loc].
  apply preserves_bind.
  { intros w2. rewrite set_brush_color_spec.
    destruct dc as [c|]; [destruct (any_isnan c)|]; reflexivity. }
  intros _. apply preserves_bind.
  { apply paint_dots_frame; reflexivity. }
  intros _. apply preserves_modify. reflexivity.
Qed.

Lemma commit_sample_Ok op d s m e w w' :
  commit_sample op d s m e w = (Ok tt, w') ->
  mouse_prev_position (self w') = m.
Proof.
  unfold commit_sample. intros E.
  apply bind_Ok in E. destruct E as (_ & w1 & _ & E).
  apply bind_Ok in E. destruct E as (w2 & w3 & _ & E).
  apply bind_Ok in E. destruct E as ([dc loc] & w4 & _ & E).
  apply bind_Ok in E. destruct E as (_ & w5 & _ & E).
  apply bind_Ok in E. destruct E as (_ & w6 & _ & E).
  cbn in E. injection E as <-. reflexivity.
Qed.

(** X5.  A position update below the spacing leaves [furthest_position]
    and [mouse_prev_position] as they were.  One that reaches the spacing
    moves [furthest_position] to the pointer whatever happens afterwards
    (an exception included), and [mouse_prev_position] too when the handler
    returns. *)
Theorem sample_moves_the_anchors (op : operator) (e : Event) (w : World) :
  is_position_update e = true ->
  let m := (mouse_x e, mouse_y e) in
  let w' := snd (modal op e w) in
  (reaches_spacing w e = false -> anchors w' = anchors w)
  /\ (reaches_spacing w e = true ->
      furthest_position (self w') = m
      /\ (forall r, fst (modal op e w) = Ok r ->
                    mouse_prev_position (self w') = m)).
Proof.
  intros Hpu m w'. subst w'. rewrite modal_position_update by exact Hpu.
  unfold position_update, reaches_spacing.
  assert (Hred : forall p, preserves anchors (redraw_cursor p)).
  { intros p. apply (@redraw_cursor_self_view _
      (fun s => (furthest_position s, mouse_prev_position s))).
    reflexivity. }
  split; intros Hs.
  - unfold bind at 1. cbn [get]. rewrite Hs.
    rewrite (@bind_preserved _ _ _ anchors); [reflexivity|].
    intros _. apply preserves_bind; [apply Hred|]. intros _.
    apply preserves_ret.
  - split.
    + unfold bind at 1. cbn [get]. rewrite Hs. fold m.
      rewrite (@bind_preserved _ _ _ (fun w => furthest_position (self w))).
      * apply commit_sample_furthest.
      * intros _. apply preserves_bind; [|intros _; apply preserves_ret].
        intros w1. pose proof (Hred (mouse_region_x e, mouse_region_y e) w1) as E.
        unfold anchors in E. now injection E.
    + intros r Hr.
      match type of Hr with
      | fst (?c w) = _ => destruct (c w) as [r' w2] eqn:E
      end.
      cbn [fst snd] in *. subst r'.
      apply bind_Ok in E. destruct E as (w0 & w0' & Hget & E).
      cbn in Hget. injection Hget as <- <-. rewrite Hs in E. fold m in E.
      apply bind_Ok in E. destruct E as ([] & w1 & Hc & E).
      apply bind_Ok in E. destruct E as ([] & w3 & Hrd & E).
      cbn in E. injection E as _ E2. subst w3.
      pose proof (Hred (mouse_region_x e, mouse_region_y e) w1) as Ea.
      rewrite Hrd in Ea. cbn [snd] in Ea. unfold anchors in Ea.
      injection Ea as _ ->. now apply commit_sample_Ok in Hc.
Qed.

End Answers.

Section ZeroSpacing.
#[local] Existing Instance ideal.
Context {H : Host}.
Open Scope R_scope.

Lemma distance_to_ideal (f m : pos) :
  distance_to (A:=ideal) f m = Fin (dist_R f m).
Proof. unfold distance_to, dist_R. cbn [of_Z ideal]. apply norm2_Fin. Qed.

Lemma dist_R_nonneg p q : 0 <= dist_R p q.
Proof. unfold dist_R. apply sqrt_pos. Qed.

Lemma dist_R_zero p q : dist_R p q = 0 <-> p = q.
Proof.
  unfold dist_R. destruct p as [px py], q as [qx qy]. cbn [fst snd]. split.
  - intros E. apply sqrt_eq_0 in E; [|nra].
    assert (Ex : IZR (px - qx) = 0) by nra.
    assert (Ey : IZR (py - qy) = 0) by nra.
    apply eq_IZR_R0 in Ex, Ey. f_equal; lia.
  - intros E. injection E as -> ->. rewrite !Z.sub_diag.
    replace (0 * 0 + 0 * 0) with 0 by ring. apply sqrt_0.
Qed.

Lemma paint_dots_zero_spacing d m e loc w :
  pressing (self w) = true -> 0 <= d ->
  paint_dots (Fin d) (Fin 0) m e loc w
  = (Raise (if Req_dec_T d 0 then ValueError else OverflowError), w).
Proof.
  intros Hp Hd. unfold paint_dots, bind, get, lift. rewrite Hp.
  cbn [ndiv ideal xdiv]. rewrite Rsign_zero.
  destruct (Req_dec_T d 0) as [E|E].
  - subst d. rewrite Rsign_zero. reflexivity.
  - rewrite Rsign_pos by lra. reflexivity.
Qed.

(** X8.  Brush spacing 0, which the property allows ([min=0]).  With
    the button held, a position update on which the encoder returns raises:
    [ValueError] when the pointer has not moved from [furthest_position]
    ([int] of a NaN), [OverflowError] when it has ([int] of an infinity).
    By then [furthest_position] is the pointer; no dot has been emitted,
    [mouse_prev_position] is not updated and the cursor is not redrawn. *)
Theorem zero_spacing_stroke_raises (op : operator) (e : Event) (w : World)
  (dc loc : option vec3) :
  let m := (mouse_x e, mouse_y e) in
  let w' := snd (modal op e w) in
  is_position_update e = true ->
  pressing (self w) = true ->
  flowmap_brush_spacing (context w) = Fin 0 ->
  get_direction_color op m (mouse_prev_position (self w))
    (set_self (set_furthest_position m (self w)) w) = Ok (dc, loc) ->
  (furthest_position (self w) = m -> fst (modal op e w) = Raise ValueError)
  /\ (furthest_position (self w) <> m ->
      fst (modal op e w) = Raise OverflowError)
  /\ dots w' = dots w
  /\ furthest_position (self w') = m
  /\ mouse_prev_position (self w') = mouse_prev_position (self w)
  /\ draw_handlers w' = draw_handlers w.
Proof.
  intros m w' Hpu Hp Hsp Hg. subst w'.
  set (d := dist_R (furthest_position (self w)) m).
  set (w1 := set_self (set_furthest_position m (self w)) w) in *.
  set (w2 := match dc with
             | Some c => if any_isnan c then w1 else set_color c w1
             | None => w1
             end).
  assert (Hw2 : pressing (self w2) = true /\ dots w2 = dots w
                /\ furthest_position (self w2) = m
                /\ mouse_prev_position (self w2) = mouse_prev_position (self w)
                /\ draw_handlers w2 = draw_handlers w).
  { unfold w2. destruct dc as [c|]; [destruct (any_isnan c)|]; cbn; auto. }
  destruct Hw2 as (Hp2 & Hd2 & Hf2 & Hm2 & Hh2).
  assert (E : modal op e w
              = (Raise (if Req_dec_T d 0 then ValueError else OverflowError),
                 w2)).
  { rewrite modal_position_update by exact Hpu.
    unfold position_update. unfold bind at 1. cbn [get].
    rewrite Hsp, distance_to_ideal. fold m d. cbn [nleb ideal].
    destruct (xleb_Fin 0 d) as [_ ->]; [|apply dist_R_nonneg].
    unfold bind at 1. unfold commit_sample.
    unfold bind at 1. cbn [modify_self modify]. fold w1.
    unfold bind at 1. cbn [get].
    unfold bind at 1. unfold query at 1.
    change (mouse_prev_position (self w1)) with (mouse_prev_position (self w)).
    rewrite Hg.
    unfold bind at 1. rewrite set_brush_color_spec. fold w2.
    unfold bind at 1.
    rewrite (@paint_dots_zero_spacing d m e loc w2 Hp2 (dist_R_nonneg _ _)).
    reflexivity. }
  rewrite E. cbn [fst snd].
  repeat split; try assumption.
  - intros Ef. apply dist_R_zero in Ef. fold d in Ef.
    destruct (Req_dec_T d 0); [reflexivity|contradiction].
  - intros Ef. destruct (Req_dec_T d 0) as [E0|E0]; [|reflexivity].
    exfalso. apply Ef. now apply dist_R_zero.
Qed.

End ZeroSpacing.

(** ** Dots and paint calls *)

Section Calls.
Context {A : Arith} {H : Host}.

Lemma paint_calls_settings w0 w e d :
  paint_settings w = paint_settings w0 -> paint_calls w e d = paint_calls w0 e d.
Proof.
  unfold paint_settings, paint_calls, stroke_for. intros E.
  injection E as E1 E2 E3. rewrite E1, E2, E3. reflexivity.
Qed.

Lemma paint_a_dot_calls p e l w :
  paint_a_dot p e l w
  = (Ok tt,
     fold_left (fun w s => add_stroke s w) (paint_calls w e (p, l))
               (add_dot (p, l) w)).
Proof.
  unfold paint_a_dot, paint_calls, stroke_for, bind, modify, get.
  cbn [fst snd context add_dot unified_paint_settings].
  destruct (mode (context w)); [destruct l| |]; reflexivity.
Qed.

Lemma continues_refl e w : continues e w w.
Proof.
  split; [reflexivity|]. exists []. cbn. now rewrite !app_nil_r.
Qed.

Lemma continues_trace e w0 w w' :
  paint_trace w' = paint_trace w -> continues e w0 w -> continues e w0 w'.
Proof.
  unfold paint_trace, continues. intros E.
  pose proof (f_equal (fun t => fst (fst t)) E) as E1.
  pose proof (f_equal (fun t => snd (fst t)) E) as E2.
  pose proof (f_equal snd E) as E3. cbn [fst snd] in E1, E2, E3.
  rewrite E1, E2, E3. tauto.
Qed.

Lemma paint_a_dot_continues p e l w0 w :
  continues e w0 w -> continues e w0 (snd (paint_a_dot p e l w)).
Proof.
  intros (Hs & new & Hd & Hk). rewrite paint_a_dot_calls. cbn [snd].
  rewrite (paint_calls_settings e (p, l) Hs).
  assert (Hfold : forall cs v,
            paint_settings (fold_left (fun w s => add_stroke s w) cs v)
            = paint_settings v
            /\ dots (fold_left (fun w s => add_stroke s w) cs v) = dots v
            /\ strokes (fold_left (fun w s => add_stroke s w) cs v)
               = strokes v ++ cs).
  { induction cs as [|c cs IH]; intros v; cbn [fold_left].
    - now rewrite app_nil_r.
    - destruct (IH (add_stroke c v)) as (I1 & I2 & I3).
      rewrite I1, I2, I3. cbn. now rewrite <- app_assoc. }
  destruct (Hfold (paint_calls w0 e (p, l)) (add_dot (p, l) w))
    as (F1 & F2 & F3).
  split; [rewrite F1; exact Hs|].
  exists (new ++ [(p, l)]). rewrite F2, F3. cbn [add_dot dots strokes].
  rewrite Hd, Hk, flat_map_app, <- !app_assoc. cbn [flat_map].
  now rewrite app_nil_r.
Qed.

Lemma substeps_continues n k prev m e l w0 w :
  continues e w0 w -> continues e w0 (snd (substeps n k prev m e l w)).
Proof.
  revert w. induction k as [|k IH]; intros w Hc; [exact Hc|].
  cbn [substeps]. unfold bind, lift.
  destruct (py_truediv 1 n) as [q|ex]; [|exact Hc].
  match goal with
  | |- context [paint_a_dot ?p e l w] =>
      pose proof (@paint_a_dot_continues p e l w0 w Hc) as Hp;
      rewrite paint_a_dot_calls in *
  end.
  cbn [snd] in *. now apply IH.
Qed.

Lemma paint_dots_continues d s m e l w0 w :
  continues e w0 w -> continues e w0 (snd (paint_dots d s m e l w)).
Proof.
  intros Hc. unfold paint_dots, bind, get, lift.
  destruct (pressing (self w)); [|exact Hc].
  destruct (py_int (ndiv d s)) as [n|ex]; [|exact Hc].
  destruct (nltb _ _);
    [now apply substeps_continues|now apply paint_a_dot_continues].
Qed.

Lemma commit_sample_continues op d s m e w :
  continues e w (snd (commit_sample op d s m e w)).
Proof.
  destruct (commit_sample op d s m e w) as [r w'] eqn:E. cbn [snd].
  unfold commit_sample in E.
  apply bind_inv in E. destruct E as [([] & w1 & H1 & E)|(ex & H1 & _)];
    [|discriminate].
  cbn in H1. injection H1 as <-.
  apply bind_inv in E. destruct E as [(w2 & w3 & H2 & E)|(ex & H2 & _)];
    [|discriminate].
  cbn in H2. injection H2 as <- <-.
  apply bind_inv in E. destruct E as [([dc loc] & w4 & H4 & E)|(ex & H4 & _)].
  2:{ unfold query in H4. injection H4 as _ <-.
      apply continues_trace with (w := w); [reflexivity|apply continues_refl]. }
  unfold query in H4. injection H4 as _ <-.
  apply bind_inv in E. rewrite set_brush_color_spec in E.
  destruct E as [([] & w5 & H5 & E)|(ex & H5 & _)]; [|discriminate].
  injection H5 as <-.
  match type of E with
  | bind _ _ ?v = _ => assert (Hv : continues e w v)
  end.
  { apply continues_trace with (w := w); [|apply continues_refl].
    destruct dc as [c|]; [destruct (any_isnan c)|]; reflexivity. }
  apply bind_inv in E.
  destruct E as [([] & w6 & H6 & E)|(ex & H6 & _)].
  - cbn in E. injection E as _ <-.
    pose proof (paint_dots_continues d s m loc Hv) as Hp.
    rewrite H6 in Hp. cbn [snd] in Hp.
    apply continues_trace with (w := w6); [reflexivity|exact Hp].
  - pose proof (paint_dots_continues d s m loc Hv) as Hp.
    rewrite H6 in Hp. exact Hp.
Qed.

Lemma redraw_cursor_trace p : preserves paint_trace (redraw_cursor p).
Proof. unfold redraw_cursor, clear_cursor. frame. Qed.

Lemma remove_temp_obj_trace : preserves paint_trace remove_temp_obj.
Proof. unfold remove_temp_obj. frame. Qed.

Lemma modal_continues op e w : continues e w (snd (modal op e w)).
Proof.
  assert (Hpos : continues e w (snd (position_update op e w))).
  { unfold position_update. unfold bind at 1. cbn [get].
    match goal with
    | |- continues e w (snd (bind ?c ?k w)) =>
        assert (Hc : continues e w (snd (c w)))
          by (destruct (nleb _ _);
              [apply commit_sample_continues|apply continues_refl]);
        apply continues_trace with (w := snd (c w)); [|exact Hc];
        apply (@bind_preserved _ _ _ paint_trace)
    end.
    intros _. pose proof redraw_cursor_trace. frame. }
  assert (Hesc : continues e w
                   (snd ((modify (set_color (half, half, half)) ;;
                          clear_cursor ;; cleanup op ;; ret FINISHED)%cmd w))).
  { apply continues_trace with (w := w); [|apply continues_refl].
    assert (Hpr : preserves paint_trace
                    (modify (set_color (half, half, half)) ;;
                     clear_cursor ;; cleanup op ;; ret FINISHED)%cmd).
    { pose proof remove_temp_obj_trace. unfold clear_cursor, cleanup. frame. }
    apply Hpr. }
  unfold modal.
  destruct (type e), (value e);
    first [ exact Hpos | exact Hesc
          | apply continues_trace with (w := w);
            [reflexivity|apply continues_refl] ].
Qed.

(** X9.  The calls [modal] makes to [bpy.ops.paint] are, in order, the
    calls of the dots it emits, with the settings read as they were before
    the event: one [image_paint] per dot in texture paint mode, one
    [vertex_paint] per dot that has a location in vertex paint mode, none in
    another mode. *)
Theorem every_dot_is_its_paint_calls (op : operator) (e : Event) (w : World) :
  let w' := snd (modal op e w) in
  exists new,
    dots w' = dots w ++ new
    /\ strokes w' = strokes w ++ flat_map (paint_calls w e) new
    /\ (mode (context w) = TEXTURE_PAINT ->
        List.length (strokes w') = List.length (strokes w) + List.length new)
    /\ (mode (context w) = VERTEX_PAINT ->
        List.length (strokes w')
        = List.length (strokes w) + List.length (filter has_location new))
    /\ (mode (context w) = OTHER_MODE -> strokes w' = strokes w).
Proof.
  cbv zeta. destruct (modal_continues op e w) as (_ & new & Hd & Hs).
  exists new. split; [exact Hd|]. split; [exact Hs|].
  rewrite Hs, length_app.
  assert (Hlen : forall f : vec2 * option vec3 -> bool,
            (forall d, List.length (paint_calls w e d)
                       = if f d then 1 else 0) ->
            List.length (flat_map (paint_calls w e) new)
            = List.length (filter f new)).
  { clear Hd Hs. intros f Hf. induction new as [|d new' IH]; [reflexivity|].
    cbn [flat_map filter]. rewrite length_app, Hf, IH.
    destruct (f d); reflexivity. }
  split; [|split].
  - intros Hm. f_equal.
    rewrite (Hlen (fun _ => true)).
    + clear. induction new as [|d l IH]; cbn; [reflexivity|now rewrite IH].
    + intros d. unfold paint_calls. rewrite Hm. reflexivity.
  - intros Hm. f_equal. apply Hlen.
    intros d. unfold paint_calls, has_location. rewrite Hm.
    destruct (snd d); reflexivity.
  - intros Hm.
    assert (E0 : flat_map (paint_calls w e) new = []).
    { clear Hs Hd Hlen. induction new as [|d l IH]; [reflexivity|].
      cbn [flat_map]. rewrite IH. unfold paint_calls. rewrite Hm.
      reflexivity. }
    rewrite E0. apply app_nil_r.
Qed.

End Calls.

Section Bare.
Context {A : Arith} {H : Host}.

Lemma adds_bare_refl w : adds_bare_dots w w.
Proof. exists []. split; [now rewrite app_nil_r|constructor]. Qed.

Lemma adds_bare_dots_eq w0 w w' :
  dots w' = dots w -> adds_bare_dots w0 w -> adds_bare_dots w0 w'.
Proof. unfold adds_bare_dots. intros ->. tauto. Qed.

Lemma paint_a_dot_bare p e w0 w :
  adds_bare_dots w0 w -> adds_bare_dots w0 (snd (paint_a_dot p e None w)).
Proof.
  intros (new & Hd & Hall).
  destruct (paint_a_dot_dots p e None w) as [_ E].
  exists (new ++ [(p, None)]). rewrite E, Hd, <- app_assoc. split; [reflexivity|].
  apply Forall_app. split; [exact Hall|]. repeat constructor.
Qed.

Lemma substeps_bare n k prev m e w0 w :
  adds_bare_dots w0 w ->
  adds_bare_dots w0 (snd (substeps n k prev m e None w)).
Proof.
  revert w. induction k as [|k IH]; intros w Hc; [exact Hc|].
  cbn [substeps]. unfold bind, lift.
  destruct (py_truediv 1 n) as [q|ex]; [|exact Hc].
  match goal with
  | |- context [paint_a_dot ?p e None w] =>
      pose proof (@paint_a_dot_bare p e w0 w Hc) as Hp;
      destruct (paint_a_dot_dots p e None w) as [Hf _];
      destruct (paint_a_dot p e None w) as [r w1]
  end.
  cbn [fst snd] in *. subst r. now apply IH.
Qed.

Lemma paint_dots_bare d s m e w0 w :
  adds_bare_dots w0 w ->
  adds_bare_dots w0 (snd (paint_dots d s m e None w)).
Proof.
  intros Hc. unfold paint_dots, bind, get, lift.
  destruct (pressing (self w)); [|exact Hc].
  destruct (py_int (ndiv d s)) as [n|ex]; [|exact Hc].
  destruct (nltb _ _); [now apply substeps_bare|now apply paint_a_dot_bare].
Qed.

Lemma commit_sample_bare op d s m e w :
  (forall dc l,
     get_direction_color op m (mouse_prev_position (self w))
       (set_self (set_furthest_position m (self w)) w) <> Ok (dc, Some l)) ->
  adds_bare_dots w (snd (commit_sample op d s m e w)).
Proof.
  intros Hg.
  destruct (commit_sample op d s m e w) as [r w'] eqn:E. cbn [snd].
  unfold commit_sample in E.
  apply bind_inv in E. destruct E as [([] & w1 & H1 & E)|(ex & H1 & _)];
    [|discriminate].
  cbn in H1. injection H1 as <-.
  apply bind_inv in E. destruct E as [(w2 & w3 & H2 & E)|(ex & H2 & _)];
    [|discriminate].
  cbn in H2. injection H2 as <- <-.
  apply bind_inv in E. destruct E as [([dc loc] & w4 & H4 & E)|(ex & H4 & _)].
  2:{ unfold query in H4. injection H4 as _ <-.
      apply adds_bare_dots_eq with (w := w); [reflexivity|apply adds_bare_refl]. }
  unfold query in H4. injection H4 as H4 <-.
  cbn [self set_self mouse_prev_position set_furthest_position] in H4.
  destruct loc as [l|]; [exfalso; exact (Hg dc l H4)|].
  apply bind_inv in E. rewrite set_brush_color_spec in E.
  destruct E as [([] & w5 & H5 & E)|(ex & H5 & _)]; [|discriminate].
  injection H5 as <-.
  match type of E with
  | bind _ _ ?v = _ => assert (Hv : adds_bare_dots w v)
  end.
  { apply adds_bare_dots_eq with (w := w); [|apply adds_bare_refl].
    destruct dc as [c|]; [destruct (any_isnan c)|]; reflexivity. }
  apply bind_inv in E.
  destruct E as [([] & w6 & H6 & E)|(ex & H6 & _)].
  - cbn in E. injection E as _ <-.
    pose proof (@paint_dots_bare d s m e _ _ Hv) as Hp.
    rewrite H6 in Hp. cbn [snd] in Hp.
    apply adds_bare_dots_eq with (w := w6); [reflexivity|exact Hp].
  - pose proof (@paint_dots_bare d s m e _ _ Hv) as Hp.
    rewrite H6 in Hp. exact Hp.
Qed.

Lemma remove_temp_obj_dots : preserves dots remove_temp_obj.
Proof. unfold remove_temp_obj. frame. Qed.

Lemma modal_bare op e w :
  (forall dc l,
     get_direction_color op (mouse_x e, mouse_y e)
       (mouse_prev_position (self w))
       (set_self (set_furthest_position (mouse_x e, mouse_y e) (self w)) w)
     <> Ok (dc, Some l)) ->
  adds_bare_dots w (snd (modal op e w)).
Proof.
  intros Hg.
  assert (Hpos : adds_bare_dots w (snd (position_update op e w))).
  { unfold position_update. unfold bind at 1. cbn [get].
    match goal with
    | |- adds_bare_dots w (snd (bind ?c ?k w)) =>
        assert (Hc : adds_bare_dots w (snd (c w)))
          by (destruct (nleb _ _);
              [now apply commit_sample_bare|apply adds_bare_refl]);
        apply adds_bare_dots_eq with (w := snd (c w)); [|exact Hc];
        apply (@bind_preserved _ _ _ (@dots A H))
    end.
    intros _. pose proof redraw_cursor_dots. frame. }
  assert (Hesc : adds_bare_dots w
                   (snd ((modify (set_color (half, half, half)) ;;
                          clear_cursor ;; cleanup op ;; ret FINISHED)%cmd w))).
  { apply adds_bare_dots_eq with (w := w); [|apply adds_bare_refl].
    assert (Hpr : preserves dots
                    (modify (set_color (half, half, half)) ;;
                     clear_cursor ;; cleanup op ;; ret FINISHED)%cmd).
    { pose proof remove_temp_obj_dots. unfold clear_cursor, cleanup. frame. }
    apply Hpr. }
  unfold modal.
  destruct (type e), (value e);
    first [ exact Hpos | exact Hesc
          | apply adds_bare_dots_eq with (w := w);
            [reflexivity|apply adds_bare_refl] ].
Qed.

(** X10.  In vertex paint mode nothing is painted without a location: if
    [get_direction_color] does not return a location for the event, [modal]
    makes no call to [bpy.ops.paint]. *)
Theorem no_location_no_vertex_paint (op : operator) (e : Event) (w : World) :
  let m := (mouse_x e, mouse_y e) in
  mode (context w) = VERTEX_PAINT ->
  (forall dc l,
     get_direction_color op m (mouse_prev_position (self w))
       (set_self (set_furthest_position m (self w)) w) <> Ok (dc, Some l)) ->
  strokes (snd (modal op e w)) = strokes w.
Proof.
  intros m Hm Hg.
  destruct (modal_continues op e w) as (_ & new & Hd & Hs).
  destruct (@modal_bare op e w Hg) as (new' & Hd' & Hall).
  rewrite Hd in Hd'. apply app_inv_head in Hd'. subst new'.
  rewrite Hs. rewrite <- (app_nil_r (strokes w)) at 2. f_equal.
  clear Hd Hs. induction new as [|d l IH]; [reflexivity|].
  inversion Hall as [|? ? Hd Hl]; subst.
  cbn [flat_map]. rewrite IH by exact Hl.
  unfold paint_calls. rewrite Hm, Hd. reflexivity.
Qed.

End Bare.

(** ** The cursor *)

Section Handlers.
Context {A : Arith} {H : Host}.

Lemma filter_id T (keep : T -> bool) l :
  (forall x, In x l -> keep x = true) -> filter keep l = l.
Proof.
  induction l as [|x l IH]; [reflexivity|]. intros Hk. cbn [filter].
  rewrite (Hk x (or_introl eq_refl)), IH; [reflexivity|].
  intros y Hy. apply Hk. now right.
Qed.

Lemma filter_nil T (keep : T -> bool) l :
  (forall x, In x l -> keep x = false) -> filter keep l = [].
Proof.
  induction l as [|x l IH]; [reflexivity|]. intros Hk. cbn [filter].
  rewrite (Hk x (or_introl eq_refl)), IH; [reflexivity|].
  intros y Hy. apply Hk. now right.
Qed.

Lemma NoDup_map_filter T U (g : T -> U) (keep : T -> bool) l :
  NoDup (map g l) -> NoDup (map g (filter keep l)).
Proof.
  induction l as [|x l IH]; [easy|]. cbn [map filter]. intros Hnd.
  inversion Hnd as [|? ? Hx Hl]; subst.
  destruct (keep x); [|now apply IH]. cbn [map]. constructor; [|now apply IH].
  intros Hin. apply Hx. apply in_map_iff in Hin.
  destruct Hin as (y & Hy & Hin). apply filter_In in Hin.
  apply in_map_iff. exists y. tauto.
Qed.

Lemma NoDup_handles_snoc (l : list (nat * area_kind * pos)) n k p :
  NoDup (map handle_of l) -> (forall h, In h l -> handle_of h < n) ->
  NoDup (map handle_of (l ++ [(n, k, p)])).
Proof.
  intros Hnd Hlt. rewrite map_app. cbn [map handle_of fst].
  induction l as [|x l IH]; cbn [map app].
  - constructor; [easy|constructor].
  - inversion Hnd as [|? ? Hx Hl]; subst. constructor.
    + intros Hin. apply in_app_or in Hin. destruct Hin as [Hin|[E|[]]].
      * exact (Hx Hin).
      * specialize (Hlt x (or_introl eq_refl)). lia.
    + apply IH; [exact Hl|]. intros h Hh. apply Hlt. now right.
Qed.

(** [clear_cursor] on a world whose handlers are in order. *)
Lemma clear_cursor_handlers (w : World) :
  handlers_ok w ->
  let w' := snd (clear_cursor w) in
  handlers_ok w'
  /\ foreign_handlers w' = foreign_handlers w
  /\ context w' = context w
  /\ (fst (clear_cursor w) = Ok tt ->
      cursor (self w') = None /\ draw_handlers w' = foreign_handlers w
      /\ next_handle w' = next_handle w).
Proof.
  intros Hok. pose proof Hok as (Hnd & Hlt & Hc).
  unfold clear_cursor, bind, get. cbn [fst snd].
  unfold foreign_handlers at 2 3.
  destruct (cursor (self w)) as [c|] eqn:Ec.
  - destruct (get_cursor_target w) as [k|] eqn:Ek.
    + cbn. unfold foreign_handlers, handlers_ok. cbn.
      repeat split; try reflexivity.
      * now apply NoDup_map_filter.
      * intros h Hh. apply filter_In in Hh. apply Hlt. tauto.
      * intros c0 Hc0. discriminate.
    + cbn. unfold foreign_handlers. rewrite Ec.
      split; [exact Hok|].
      split; [reflexivity|]. split; [reflexivity|]. discriminate.
  - cbn. unfold foreign_handlers. rewrite Ec.
    split; [exact Hok|]. repeat split; exact Ec.
Qed.

Lemma foreign_after_add (l : list (nat * area_kind * pos)) n k p :
  (forall h, In h l -> handle_of h < n) ->
  filter (fun h => negb (Nat.eqb (handle_of h) n)) (l ++ [(n, k, p)]) = l
  /\ filter (fun h => Nat.eqb (handle_of h) n) (l ++ [(n, k, p)]) = [(n, k, p)].
Proof.
  intros Hlt. rewrite !filter_app. cbn [filter handle_of fst].
  rewrite Nat.eqb_refl. cbn [negb]. rewrite app_nil_r. split.
  - apply filter_id. intros x Hx. specialize (Hlt x Hx).
    destruct (Nat.eqb_spec (handle_of x) n); [lia|reflexivity].
  - rewrite filter_nil; [reflexivity|]. intros x Hx. specialize (Hlt x Hx).
    destruct (Nat.eqb_spec (handle_of x) n); [lia|reflexivity].
Qed.

(** [redraw_cursor]: the old cursor goes, one new one comes, at [p]. *)
Lemma redraw_cursor_handlers (p : pos) (w : World) :
  handlers_ok w ->
  let w' := snd (redraw_cursor p w) in
  handlers_ok w'
  /\ foreign_handlers w' = foreign_handlers w
  /\ context w' = context w
  /\ (fst (redraw_cursor p w) = Ok tt ->
      exists k, get_cursor_target w = Some k
                /\ own_handlers w' = [(next_handle w, k, p)]).
Proof.
  intros Hok.
  destruct (clear_cursor_handlers Hok) as (Hok1 & Hf1 & Hc1 & Hcl).
  cbv zeta. destruct (redraw_cursor p w) as [r w'] eqn:E. cbn [fst snd].
  unfold redraw_cursor in E. unfold bind at 1 in E.
  destruct (clear_cursor w) as [[[]|ex] w1]; cbn [fst snd] in *.
  2:{ injection E as <- <-.
      split; [exact Hok1|]. split; [exact Hf1|]. split; [exact Hc1|].
      discriminate. }
  destruct (Hcl eq_refl) as (Hcur & Hdh & Hnh).
  pose proof Hok1 as (Hnd & Hlt & _).
  unfold bind at 1 in E. cbn [get] in E.
  assert (Hk : get_cursor_target w1 = get_cursor_target w)
    by (unfold get_cursor_target; now rewrite Hc1).
  rewrite Hk in E.
  destruct (get_cursor_target w) as [k|].
  2:{ cbn in E. injection E as <- <-.
      split; [exact Hok1|]. split; [exact Hf1|]. split; [exact Hc1|].
      discriminate. }
  cbn in E. injection E as <- <-.
  unfold handlers_ok, foreign_handlers, own_handlers. cbn.
  destruct (@foreign_after_add (draw_handlers w1) (next_handle w1) k p Hlt)
    as [Efor Eown].
  rewrite Efor, Eown.
  split; [split; [|split]|split; [|split]].
  - now apply NoDup_handles_snoc.
  - intros h Hh. apply in_app_or in Hh. destruct Hh as [Hh|[<-|[]]].
    + specialize (Hlt h Hh). lia.
    + cbn. lia.
  - intros c Hc. injection Hc as <-. rewrite map_app. apply in_or_app.
    right. left. reflexivity.
  - exact Hdh.
  - exact Hc1.
  - intros _. exists k. rewrite Hnh. split; reflexivity.
Qed.

Lemma cursor_view_ok (w w' : World) :
  cursor_view w' = cursor_view w ->
  (handlers_ok w -> handlers_ok w')
  /\ foreign_handlers w' = foreign_handlers w
  /\ own_handlers w' = own_handlers w
  /\ context w' = context w.
Proof.
  unfold cursor_view, handlers_ok, foreign_handlers, own_handlers.
  intros E. injection E as -> -> -> ->. tauto.
Qed.

Lemma commit_sample_cursor_view op d s m e :
  preserves cursor_view (commit_sample op d s m e).
Proof.
  unfold commit_sample.
  apply preserves_bind; [apply preserves_modify; reflexivity|]. intros _.
  apply preserves_bind; [apply preserves_get|]. intros w1.
  apply preserves_bind; [apply preserves_query|]. intros [dc loc].
  apply preserves_bind.
  { intros w2. rewrite set_brush_color_spec.
    destruct dc as [c|]; [destruct (any_isnan c)|]; reflexivity. }
  intros _. apply preserves_bind.
  { apply paint_dots_frame; reflexivity. }
  intros _. apply preserves_modify. reflexivity.
Qed.

Lemma remove_temp_obj_cursor_view : preserves cursor_view remove_temp_obj.
Proof. unfold remove_temp_obj. frame. Qed.

Lemma position_update_handlers op e w :
  handlers_ok w ->
  let w' := snd (position_update op e w) in
  handlers_ok w' /\ foreign_handlers w' = foreign_handlers w
  /\ (fst (position_update op e w) = Ok RUNNING_MODAL ->
      exists h k, own_handlers w'
                  = [(h, k, (mouse_region_x e, mouse_region_y e))]
                  /\ get_cursor_target w = Some k).
Proof.
  intros Hok. cbv zeta.
  destruct (position_update op e w) as [r w'] eqn:E. cbn [fst snd].
  unfold position_update in E. unfold bind at 1 in E. cbn [get] in E.
  apply bind_inv in E.
  match type of E with
  | context [?c w = (Ok _, _)] =>
      assert (Hcv : cursor_view (snd (c w)) = cursor_view w)
        by (destruct (nleb _ _);
            [apply commit_sample_cursor_view|reflexivity])
  end.
  destruct E as [([] & w1 & Hc & E)|(ex & Hc & ->)];
    rewrite Hc in Hcv; cbn [snd] in Hcv;
    destruct (cursor_view_ok Hcv) as (H1 & H2 & _ & H4).
  2:{ split; [now apply H1|]. split; [exact H2|]. discriminate. }
  destruct (@redraw_cursor_handlers (mouse_region_x e, mouse_region_y e) w1
              (H1 Hok)) as (Hok2 & Hf2 & Hc2 & Hown).
  apply bind_inv in E.
  destruct E as [([] & w2 & Hrd & E)|(ex & Hrd & ->)];
    rewrite Hrd in *; cbn [fst snd] in *.
  - cbn in E. injection E as <- <-.
    split; [exact Hok2|]. split; [congruence|]. intros _.
    destruct (Hown eq_refl) as (k & Hk & Ho).
    exists (next_handle w1), k. split; [exact Ho|].
    unfold get_cursor_target in *. now rewrite <- H4.
  - split; [exact Hok2|]. split; [congruence|]. discriminate.
Qed.

Lemma cancel_handlers op w :
  handlers_ok w ->
  let c := (modify (set_color (half, half, half)) ;;
            clear_cursor ;; cleanup op ;; ret FINISHED)%cmd in
  let w' := snd (c w) in
  handlers_ok w' /\ foreign_handlers w' = foreign_handlers w
  /\ (fst (c w) = Ok FINISHED ->
      draw_handlers w' = foreign_handlers w /\ cursor (self w') = None).
Proof.
  intros Hok. cbv zeta.
  match goal with
  | |- context [fst (?c w)] => destruct (c w) as [r w'] eqn:E
  end.
  cbn [fst snd]. unfold bind at 1 in E. cbn [modify] in E.
  set (w0 := set_color (half, half, half) w) in E.
  assert (Hok0 : handlers_ok w0) by exact Hok.
  destruct (clear_cursor_handlers Hok0) as (Hok1 & Hf1 & _ & Hcl).
  change (foreign_handlers w0) with (foreign_handlers w) in *.
  apply bind_inv in E.
  destruct E as [([] & w1 & Hc & E)|(ex & Hc & ->)];
    rewrite Hc in *; cbn [fst snd] in *.
  2:{ split; [exact Hok1|]. split; [exact Hf1|]. discriminate. }
  assert (Hcv : cursor_view (snd (cleanup op w1)) = cursor_view w1).
  { destruct op; [reflexivity|apply remove_temp_obj_cursor_view]. }
  apply bind_inv in E.
  destruct E as [([] & w2 & Hcu & E)|(ex & Hcu & ->)];
    rewrite Hcu in Hcv; cbn [snd] in Hcv;
    destruct (cursor_view_ok Hcv) as (H1 & H2 & _).
  2:{ split; [now apply H1|]. split; [congruence|]. discriminate. }
  cbn in E. injection E as <- <-.
  split; [now apply H1|]. split; [congruence|]. intros _.
  destruct (Hcl eq_refl) as (Hcur & Hdh & _).
  unfold cursor_view in Hcv. injection Hcv as -> _ -> _.
  split; [exact Hdh|exact Hcur].
Qed.

(** X11.  The cursor's draw handler.  On a world whose handlers are in
    order, [modal] keeps them in order and never touches a handler that is
    not its cursor.  After a position update that returns, the operator owns
    exactly one handler, registered on the space type of the area and drawing
    at the region position of the event; after a cancel that returns it owns
    none. *)
Theorem cursor_is_the_only_own_handler (op : operator) (e : Event) (w : World) :
  handlers_ok w ->
  let w' := snd (modal op e w) in
  handlers_ok w'
  /\ foreign_handlers w' = foreign_handlers w
  /\ (is_position_update e = true -> fst (modal op e w) = Ok RUNNING_MODAL ->
      exists h k, own_handlers w'
                  = [(h, k, (mouse_region_x e, mouse_region_y e))]
                  /\ get_cursor_target w = Some k)
  /\ (fst (modal op e w) = Ok FINISHED ->
      draw_handlers w' = foreign_handlers w /\ cursor (self w') = None).
Proof.
  intros Hok w'. subst w'.
  pose proof (@position_update_handlers op e w Hok) as Hpos.
  pose proof (@cancel_handlers op w Hok) as Hesc.
  cbv zeta in Hpos, Hesc.
  unfold modal, is_position_update in *.
  destruct (type e) eqn:Et, (value e) eqn:Ev;
    first
      [ destruct Hpos as (P1 & P2 & P3);
        split; [exact P1|]; split; [exact P2|]; split;
        [intros _; exact P3|];
        intros Hf; exfalso; exact (position_update_status _ _ _ Hf)
      | destruct Hesc as (P1 & P2 & P3);
        split; [exact P1|]; split; [exact P2|]; split;
        [discriminate|exact P3]
      | cbn; split; [exact Hok|]; split; [reflexivity|]; split;
        discriminate ].
Qed.

End Handlers.

Section Session.
Context {A : Arith} {H : Host}.

Lemma own_at_most_one (w : World) :
  handlers_ok w -> List.length (own_handlers w) <= 1.
Proof.
  intros (Hnd & _ & _). unfold own_handlers.
  destruct (cursor (self w)) as [c|]; [|cbn; lia].
  induction (draw_handlers w) as [|x l IH]; [cbn; lia|].
  cbn [map] in Hnd. inversion Hnd as [|? ? Hx Hl]; subst.
  cbn [filter]. destruct (Nat.eqb_spec (handle_of x) c) as [E|E];
    [|now apply IH].
  rewrite filter_nil; [cbn; lia|].
  intros y Hy. destruct (Nat.eqb_spec (handle_of y) c) as [E'|E'];
    [|reflexivity].
  exfalso. apply Hx. rewrite E, <- E'. now apply in_map.
Qed.

Lemma modal_handlers op e w :
  handlers_ok w ->
  handlers_ok (snd (modal op e w))
  /\ foreign_handlers (snd (modal op e w)) = foreign_handlers w
  /\ (fst (modal op e w) = Ok FINISHED ->
      draw_handlers (snd (modal op e w)) = foreign_handlers w
      /\ cursor (self (snd (modal op e w))) = None).
Proof.
  intros Hok.
  pose proof (@position_update_handlers _ _ op e w Hok) as Hpos.
  pose proof (@cancel_handlers _ _ op w Hok) as Hesc.
  cbv zeta in Hpos, Hesc.
  unfold modal in *.
  destruct (type e) eqn:Et, (value e) eqn:Ev;
    first
      [ destruct Hpos as (P1 & P2 & P3);
        split; [exact P1|]; split; [exact P2|];
        intros Hf; exfalso; exact (position_update_status _ _ _ Hf)
      | exact Hesc
      | cbn; split; [exact Hok|]; split; [reflexivity|]; discriminate ].
Qed.

(** X12.  Over a whole session, whatever the events: the handlers stay
    in order, the handlers of others are untouched, the operator owns one
    draw handler at most, and when the session ends with [FINISHED] it owns
    none. *)
Theorem session_keeps_one_cursor (op : operator) (events : list Event)
  (w : World) :
  handlers_ok w ->
  let w' := snd (run op events w) in
  handlers_ok w'
  /\ foreign_handlers w' = foreign_handlers w
  /\ List.length (own_handlers w') <= 1
  /\ (fst (run op events w) = Ok FINISHED ->
      draw_handlers w' = foreign_handlers w /\ cursor (self w') = None).
Proof.
  intros Hok. cbv zeta.
  enough (Hmain : handlers_ok (snd (run op events w))
                  /\ foreign_handlers (snd (run op events w))
                     = foreign_handlers w
                  /\ (fst (run op events w) = Ok FINISHED ->
                      draw_handlers (snd (run op events w))
                      = foreign_handlers w
                      /\ cursor (self (snd (run op events w))) = None)).
  { destruct Hmain as (H1 & H2 & H3).
    split; [exact H1|]. split; [exact H2|].
    split; [now apply own_at_most_one|exact H3]. }
  revert w Hok. induction events as [|e rest IH]; intros w Hok.
  - cbn. split; [exact Hok|]. split; [reflexivity|]. discriminate.
  - destruct (@modal_handlers op e w Hok) as (M1 & M2 & M4).
    destruct (run op (e :: rest) w) as [r w'] eqn:E. cbn [fst snd].
    cbn [run] in E. apply bind_inv in E.
    destruct E as [(a & w1 & Hm & E)|(ex & Hm & ->)];
      rewrite Hm in *; cbn [fst snd] in *.
    2:{ split; [exact M1|]. split; [exact M2|]. discriminate. }
    destruct (IH w1 M1) as (I1 & I2 & I3).
    destruct a.
    + rewrite E in *. cbn [fst snd] in *.
      split; [exact I1|]. split; [congruence|].
      intros Hf. rewrite <- M2. now apply I3.
    + cbn in E. injection E as <- <-.
      split; [exact M1|]. split; [exact M2|]. intros _. now apply M4.
    + rewrite E in *. cbn [fst snd] in *.
      split; [exact I1|]. split; [congruence|].
      intros Hf. rewrite <- M2. now apply I3.
Qed.

(** X13.  In an area that is neither the image editor nor the 3D view
    [get_cursor_target] returns [None], and no position update completes:
    [modal] raises on every one of them. *)
Theorem position_update_needs_a_drawable_area (op : operator) (e : Event)
  (w : World) :
  area_type (context w) = OTHER_AREA ->
  is_position_update e = true ->
  exists ex, fst (modal op e w) = Raise ex.
Proof.
  intros Ha Hpu. rewrite modal_position_update by exact Hpu.
  destruct (position_update op e w) as [r w'] eqn:E. cbn [fst].
  unfold position_update in E. unfold bind at 1 in E. cbn [get] in E.
  apply bind_inv in E.
  match type of E with
  | context [?c w = (Ok _, _)] =>
      assert (Hcv : cursor_view (snd (c w)) = cursor_view w)
        by (destruct (nleb _ _);
            [apply commit_sample_cursor_view|reflexivity])
  end.
  destruct E as [([] & w1 & Hc & E)|(ex & Hc & ->)]; [|now exists ex].
  rewrite Hc in Hcv. cbn [snd] in Hcv.
  assert (Ha1 : area_type (context w1) = OTHER_AREA).
  { unfold cursor_view in Hcv. injection Hcv as _ _ _ ->. exact Ha. }
  apply bind_inv in E. destruct E as [([] & w2 & Hrd & E)|(ex & Hrd & ->)];
    [|now exists ex].
  exfalso. unfold redraw_cursor in Hrd. apply bind_inv in Hrd.
  destruct Hrd as [([] & w3 & Hcl & Hrd)|(ex & _ & Hex)]; [|discriminate].
  assert (Ha3 : area_type (context w3) = OTHER_AREA).
  { assert (Hp : preserves context clear_cursor)
      by (unfold clear_cursor; frame).
    specialize (Hp w1). rewrite Hcl in Hp. cbn [snd] in Hp. now rewrite Hp. }
  unfold bind at 1 in Hrd. cbn [get] in Hrd.
  unfold get_cursor_target in Hrd. rewrite Ha3 in Hrd. discriminate.
Qed.

End Session.

(** ** The unified paint settings *)

Section Unified.
Context {A : Arith} {H : Host}.

(** X14.  [invoke] switches the three unified paint settings on and
    [pressing] off; no event of the session, the cancel included, switches
    them back, and the session never changes the brush size. *)
Theorem unified_settings_stay_switched_on (op : operator) (e0 : Event)
  (events : list Event) (w : World) :
  let w1 := snd (invoke op e0 w) in
  let w2 := snd (run op events w1) in
  unified_flags w1 = (true, true, true)
  /\ unified_flags w2 = (true, true, true)
  /\ brush_size w2 = brush_size w
  /\ pressing (self w1) = false.
Proof.
  cbv zeta.
  assert (Hrun : forall X (f : World -> X),
            (forall s w, f (set_self s w) = f w) ->
            (forall c w, f (set_color c w) = f w) ->
            (forall d w, f (add_dot d w) = f w) ->
            (forall s w, f (add_stroke s w) = f w) ->
            (forall hs n w, f (set_draw_handlers hs n w) = f w) ->
            (forall d w, f (set_data d w) = f w) ->
            forall v, f (snd (run op events v)) = f v).
  { intros X f H1 H2 H3 H4 H5 H6 v. now apply run_frame. }
  assert (Hstart : forall X (f : World -> X),
            (forall s w, f (set_self s w) = f w) ->
            (forall d w, f (set_data d w) = f w) ->
            f (snd (invoke op e0 w))
            = f (set_unified (set_self (set_pressing false (self w)) w))).
  { intros X f H1 H6. unfold invoke.
    unfold bind at 1. cbn [modify_self modify].
    unfold bind at 1. cbn [modify].
    rewrite (@bind_preserved _ _ _ f).
    - apply startup_frame; assumption.
    - intros _. apply preserves_ret. }
  assert (E1 : unified_flags (snd (invoke op e0 w)) = (true, true, true)).
  { rewrite (Hstart _ unified_flags); reflexivity. }
  split; [exact E1|]. split; [|split].
  - rewrite (Hrun _ unified_flags); try reflexivity. exact E1.
  - rewrite (Hrun _ brush_size); try reflexivity.
    rewrite (Hstart _ brush_size); reflexivity.
  - unfold invoke. unfold bind at 1. cbn [modify_self modify].
    unfold bind at 1. cbn [modify].
    rewrite (@bind_preserved _ _ _ (fun w => pressing (self w)))
      by (intros _; apply preserves_ret).
    destruct op; cbn [startup]; [reflexivity|].
    unfold bind at 1. cbn [get].
    match goal with
    | |- context [triangulate_object ?t] =>
        pose proof (@triangulate_object_frame _ _ _ self
                      (fun _ _ => eq_refl) t) as Ht
    end.
    unfold bind.
    match goal with
    | |- context [triangulate_object ?t ?v] =>
        specialize (Ht v); destruct (triangulate_object t v) as [[tri|ex] w1]
    end; cbn [snd] in *; [cbn|]; now rewrite Ht.
Qed.

End Unified.

(** ** The triangulated object *)

Section TriangulateResult.
Context {A : Arith} {H : Host}.

Lemma coll_get_app_last (l : list Obj) x n :
  ~ In n (map (@ob_name _ _) l) -> ob_name x = n ->
  coll_get (@ob_name _ _) (l ++ [x]) n = Some x.
Proof.
  intros Hn Hx. unfold coll_get. induction l as [|y l IH]; cbn [app find].
  - now rewrite Hx, String.eqb_refl.
  - destruct (String.eqb_spec (ob_name y) n) as [E|E].
    + exfalso. apply Hn. left. exact E.
    + apply IH. intros Hin. apply Hn. now right.
Qed.

(** X15.  What [triangulate_object] returns and leaves, in a [bpy.data]
    with distinct names, when the host does not name the working copy
    FLOWMAP_temp_obj.  The result is named FLOWMAP_temp_obj, is a mesh
    object, hidden, without modifiers, with the template's [matrix_world] and
    the geometry of the evaluated working copy [ob]: the template's type,
    matrix and geometry, one TRIANGULATE modifier added.  It is the object
    found under its name, the only object added to [bpy.data.objects], its
    mesh is in [bpy.data.meshes], it is linked to the collection and the
    working copy is not. *)
Theorem triangulate_object_result (t : Obj) (w : World) :
  unique_names (data w) ->
  unique_name (map (@ob_name _ _) (objects (data (snd (remove_temp_obj w)))))
              (ob_name t) <> temp_obj_name ->
  exists tri w' ob,
    triangulate_object t w = (Ok tri, w')
    /\ ob_name tri = temp_obj_name
    /\ ob_type tri = MESH
    /\ matrix_world tri = matrix_world t
    /\ hidden tri = true
    /\ modifiers tri = []
    /\ same_geometry (ob_data tri) (evaluated_mesh ob)
    /\ ob_type ob = ob_type t
    /\ matrix_world ob = matrix_world t
    /\ modifiers ob = modifiers t ++ [("triangulate", "TRIANGULATE")]%string
    /\ same_geometry (ob_data ob) (ob_data t)
    /\ objects (data w') = objects (data (snd (remove_temp_obj w))) ++ [tri]
    /\ coll_get (@ob_name _ _) (objects (data w')) temp_obj_name = Some tri
    /\ In (ob_data tri) (meshes (data w'))
    /\ In temp_obj_name (collection (data w'))
    /\ ~ In (ob_name ob) (collection (data w')).
Proof.
  intros Hu Hn1.
  destruct (remove_temp_obj_clears w Hu) as (w1 & Hr & _ & Ho & Hu1).
  rewrite Hr in Hn1. cbn [snd] in Hn1.
  unfold triangulate_object. unfold bind at 1. rewrite Hr.
  cbn -[unique_name String.eqb coll_remove].
  set (O := objects (data w1)) in *.
  set (n1 := unique_name (map (@ob_name _ _) O) (ob_name t)) in *.
  assert (Hfresh : ~ In n1 (map (@ob_name _ _) O))
    by (apply unique_name_fresh).
  assert (Htemp : ~ In temp_obj_name (map (@ob_name _ _) O))
    by (apply coll_get_None; exact Ho).
  rewrite !map_app. cbn [map ob_name set_ob_data add_modifier].
  rewrite !String.eqb_refl. cbn [map ob_name set_ob_data add_modifier].
  rewrite !(fun f => @map_upd_other _ _ n1 f O Hfresh).
  rewrite (unique_name_keep (map (@ob_name _ _) O ++ [n1]) temp_obj_name).
  2:{ intros Hin. apply in_app_or in Hin. destruct Hin as [Hin|[Hin|[]]].
      - exact (Htemp Hin).
      - exact (Hn1 Hin). }
  rewrite !(fun f => @map_upd_other _ _ temp_obj_name f O Htemp).
  destruct (String.eqb_spec n1 temp_obj_name) as [E|Hne]; [contradiction|].
  rewrite <- (app_assoc O). cbn [app].
  rewrite (@coll_remove_app_first _ _ O); [|exact Hfresh|reflexivity].
  rewrite map_app, (fun f => @map_upd_other _ _ temp_obj_name f O Htemp).
  cbn [map ob_name set_matrix_world]. rewrite String.eqb_refl.
  eexists _, _,
    (add_modifier "triangulate" "TRIANGULATE"
       (set_ob_data
          (rename_mesh
             (unique_name (map me_name (meshes (data w1)))
                          (me_name (ob_data t)))
             (ob_data t))
          {| ob_name := n1; ob_type := ob_type t; ob_data := ob_data t;
             matrix_world := matrix_world t; modifiers := modifiers t;
             hidden := hidden t |})).
  split; [reflexivity|].
  cbn [data set_data objects meshes collection self context hide_set
       set_matrix_world set_ob_data add_modifier ob_name ob_type ob_data
       matrix_world hidden modifiers].
  do 5 (split; [reflexivity|]).
  split; [repeat split|].
  do 3 (split; [reflexivity|]).
  split; [repeat split|].
  split; [reflexivity|].
  split; [now apply coll_get_app_last|].
  split; [apply in_or_app; right; left; reflexivity|].
  unfold unlink. split.
  - apply filter_In. split.
    + apply in_or_app. right. left. reflexivity.
    + cbn [existsb]. rewrite orb_false_r.
      destruct (String.eqb_spec temp_obj_name n1) as [E|_];
        [congruence|reflexivity].
  - intros Hin. apply filter_In in Hin. destruct Hin as [_ Hin].
    cbn [existsb] in Hin. now rewrite String.eqb_refl in Hin.
Qed.

End TriangulateResult.

Section RoundTrip.
Context {A : Arith} {H : Host}.

Lemma unlink_absent (n : string) (c : list string) :
  ~ In n c -> unlink [n] c = c.
Proof.
  intros Hn. unfold unlink. apply filter_id. intros x Hx.
  cbn [existsb]. rewrite orb_false_r.
  destruct (String.eqb_spec x n) as [E|E]; [subst x; contradiction|reflexivity].
Qed.

Lemma unlink_last (n : string) (c : list string) :
  ~ In n c -> unlink [n] (c ++ [n]) = c.
Proof.
  intros Hn. unfold unlink. rewrite filter_app. cbn [filter existsb].
  rewrite String.eqb_refl. cbn [orb negb]. rewrite app_nil_r.
  now apply unlink_absent.
Qed.

Lemma triangulate_object_store (t : Obj) (w : World) :
  coll_get me_name (meshes (data w)) temp_mesh_name = None ->
  coll_get (@ob_name _ _) (objects (data w)) temp_obj_name = None ->
  (forall used, unique_name used (ob_name t) <> temp_obj_name) ->
  incl (collection (data w)) (map (@ob_name _ _) (objects (data w))) ->
  exists tri w' m1,
    triangulate_object t w = (Ok tri, w')
    /\ ob_name tri = temp_obj_name
    /\ objects (data w') = objects (data w) ++ [tri]
    /\ meshes (data w') = meshes (data w) ++ [m1; ob_data tri]
    /\ collection (data w') = collection (data w) ++ [temp_obj_name]
    /\ self w' = self w
    /\ context w' = context w.
Proof.
  intros Hm Ho Hhost Hincl.
  pose proof (remove_temp_obj_nothing w Hm Ho) as Hr.
  unfold triangulate_object. unfold bind at 1. rewrite Hr.
  cbn -[unique_name String.eqb coll_remove unlink].
  set (O := objects (data w)) in *.
  set (n1 := unique_name (map (@ob_name _ _) O) (ob_name t)) in *.
  assert (Hn1 : n1 <> temp_obj_name) by apply Hhost.
  assert (Hfresh : ~ In n1 (map (@ob_name _ _) O))
    by (apply unique_name_fresh).
  assert (Htemp : ~ In temp_obj_name (map (@ob_name _ _) O))
    by (apply coll_get_None; exact Ho).
  rewrite !map_app. cbn [map ob_name set_ob_data add_modifier].
  rewrite !String.eqb_refl. cbn [map ob_name set_ob_data add_modifier].
  rewrite !(fun f => @map_upd_other _ _ n1 f O Hfresh).
  rewrite (unique_name_keep (map (@ob_name _ _) O ++ [n1]) temp_obj_name).
  2:{ intros Hin. apply in_app_or in Hin. destruct Hin as [Hin|[Hin|[]]].
      - exact (Htemp Hin).
      - exact (Hn1 Hin). }
  rewrite !(fun f => @map_upd_other _ _ temp_obj_name f O Htemp).
  destruct (String.eqb_spec n1 temp_obj_name) as [E|_]; [contradiction|].
  rewrite <- (app_assoc O). cbn [app].
  rewrite (@coll_remove_app_first _ _ O); [|exact Hfresh|reflexivity].
  rewrite map_app, (fun f => @map_upd_other _ _ temp_obj_name f O Htemp).
  cbn [map ob_name set_matrix_world]. rewrite String.eqb_refl.
  eexists _, _, _. split; [reflexivity|].
  cbn [data set_data objects meshes collection self context hide_set
       set_matrix_world ob_name ob_data].
  split; [reflexivity|]. split; [reflexivity|].
  split; [rewrite <- app_assoc; reflexivity|].
  split; [|split; reflexivity].
  assert (Hc : ~ In n1 (collection (data w))).
  { intros Hin. apply Hfresh. now apply Hincl. }
  unfold unlink. rewrite !filter_app. cbn [filter existsb].
  rewrite String.eqb_refl. cbn [orb negb]. rewrite app_nil_r.
  destruct (String.eqb_spec temp_obj_name n1) as [E|_]; [congruence|].
  cbn [orb negb]. f_equal. now apply unlink_absent.
Qed.

(** X25.  Startup and cleanup of the 3D operator, in a [bpy.data] that
    holds no datablock of the two temporary names, whose collection links
    objects of [bpy.data.objects] only, on a host that does not name the
    working copy FLOWMAP_temp_obj.  Both return; the startup adds two meshes;
    and unless the host has named one of them FLOWMAP_temp_mesh, the cleanup
    restores [bpy.data.objects] and the collection as they were before the
    startup and leaves the two meshes in [bpy.data.meshes]. *)
Theorem startup_then_cleanup_restores_the_objects (w : World) :
  coll_get me_name (meshes (data w)) temp_mesh_name = None ->
  coll_get (@ob_name _ _) (objects (data w)) temp_obj_name = None ->
  (forall used,
     unique_name used (ob_name (active_object (context w))) <> temp_obj_name) ->
  incl (collection (data w)) (map (@ob_name _ _) (objects (data w))) ->
  exists w1 w2 m1 m2,
    startup FLOWMAP_OT_3d_viewport w = (Ok tt, w1)
    /\ cleanup FLOWMAP_OT_3d_viewport w1 = (Ok tt, w2)
    /\ meshes (data w1) = meshes (data w) ++ [m1; m2]
    /\ (me_name m1 <> temp_mesh_name -> me_name m2 <> temp_mesh_name ->
        objects (data w2) = objects (data w)
        /\ collection (data w2) = collection (data w)
        /\ meshes (data w2) = meshes (data w) ++ [m1; m2]).
Proof.
  intros Hm Ho Hhost Hincl.
  destruct (@triangulate_object_store (active_object (context w)) w
              Hm Ho Hhost Hincl)
    as (tri & w' & m1 & Ht & Hn & Hobj & Hmesh & Hcoll & Hself & Hctx).
  set (w1 := set_self (set_tri_obj (Some tri) (self w')) w').
  exists w1.
  assert (Hs : startup FLOWMAP_OT_3d_viewport w = (Ok tt, w1)).
  { unfold startup, bind, get. rewrite Ht. reflexivity. }
  assert (Htemp : ~ In temp_obj_name (map (@ob_name _ _) (objects (data w))))
    by (apply coll_get_None; exact Ho).
  assert (Hfind : coll_get (@ob_name _ _) (objects (data w1)) temp_obj_name
                  = Some tri).
  { change (objects (data w1)) with (objects (data w')). rewrite Hobj.
    clear -Htemp Hn. unfold coll_get.
    induction (objects (data w)) as [|y l IH]; cbn [app find].
    - now rewrite Hn, String.eqb_refl.
    - destruct (String.eqb_spec (ob_name y) temp_obj_name) as [E|E].
      + exfalso. apply Htemp. left. exact E.
      + apply IH. intros Hin. apply Htemp. now right. }
  destruct (coll_get me_name (meshes (data w1)) temp_mesh_name) as [m|] eqn:Em.
  - (* the host has named one of the new meshes FLOWMAP_temp_mesh *)
    destruct (remove_temp_obj_spec w1) as (Hok & _).
    destruct (remove_temp_obj w1) as [r w2] eqn:Er. cbn [fst] in Hok. subst r.
    exists w2, m1, (ob_data tri).
    split; [exact Hs|]. split; [exact Er|]. split; [exact Hmesh|].
    intros H1 H2. exfalso.
    apply coll_get_name in Em as En.
    unfold coll_get in Em. apply find_some in Em. destruct Em as [Hin _].
    change (meshes (data w1)) with (meshes (data w')) in Hin.
    rewrite Hmesh in Hin. apply in_app_or in Hin.
    destruct Hin as [Hin|[<-|[<-|[]]]]; [|contradiction|contradiction].
    apply (proj1 (coll_get_None me_name (meshes (data w)) temp_mesh_name) Hm).
    rewrite <- En. now apply in_map.
  - exists (set_data (objects_remove tri (data w1)) w1), m1, (ob_data tri).
    split; [exact Hs|]. split.
    { unfold cleanup, remove_temp_obj, bind, get. cbn [fst snd].
      rewrite Em. cbn [ret fst snd]. rewrite Hfind. reflexivity. }
    split; [exact Hmesh|]. intros _ _.
    cbn [data set_data objects_remove objects meshes collection].
    change (objects (data w1)) with (objects (data w')).
    change (collection (data w1)) with (collection (data w')).
    change (meshes (data w1)) with (meshes (data w')).
    rewrite Hobj, Hcoll, Hmesh, Hn. split; [|split; [|reflexivity]].
    + rewrite <- (app_nil_r (objects (data w))) at 2.
      apply (@coll_remove_app_first _ _ (objects (data w)) [] temp_obj_name tri);
        assumption.
    + apply unlink_last. intros Hin. apply Htemp. now apply Hincl.
Qed.

End RoundTrip.

(** ** Rays, hits and UVs *)

Section Rays.
Context {A : Arith} {H : Host}.

Lemma obj_ray_cast_singular p t m w ex :
  inverted m = Raise ex -> obj_ray_cast p t m w = Raise ex.
Proof.
  intros E. unfold obj_ray_cast, qbind, ask, qlift. now rewrite E.
Qed.

(** X16.  When the active mesh object's [matrix_world] has no inverse,
    the exception of [matrix.inverted()] comes out of every trace and of
    every encoder of the 3D operator. *)
Theorem singular_matrix_stops_every_trace (p q : pos) (t : option Obj)
  (w : World) (ex : exn) :
  ob_type (active_object (context w)) = MESH ->
  inverted (matrix_world (active_object (context w))) = Raise ex ->
  line_trace_for_pos p t w = Raise ex
  /\ line_trace_for_uv p t w = Raise ex
  /\ get_uv_space_direction_color p q t w = Raise ex
  /\ get_obj_space_direction_color p q t w = Raise ex
  /\ get_world_space_direction_color p q t w = Raise ex
  /\ get_direction_color FLOWMAP_OT_3d_viewport p q w = Raise ex.
Proof.
  intros Hty Hinv.
  assert (Hpos : forall a u, line_trace_for_pos a u w = Raise ex).
  { intros a u. unfold line_trace_for_pos, qbind, ask. rewrite Hty.
    now rewrite (@obj_ray_cast_singular a u _ w ex Hinv). }
  assert (Huv : forall a u, line_trace_for_uv a u w = Raise ex).
  { intros a u. unfold line_trace_for_uv, qbind, ask. rewrite Hty.
    now rewrite (@obj_ray_cast_singular a u _ w ex Hinv). }
  assert (H1 : forall a b u, get_uv_space_direction_color a b u w = Raise ex).
  { intros a b u. unfold get_uv_space_direction_color, qbind.
    now rewrite Huv. }
  assert (H2 : forall a b u, get_obj_space_direction_color a b u w = Raise ex).
  { intros a b u. unfold get_obj_space_direction_color, qbind, ask.
    now rewrite Hpos. }
  assert (H3 : forall a b u,
            get_world_space_direction_color a b u w = Raise ex).
  { intros a b u. unfold get_world_space_direction_color, qbind.
    now rewrite Hpos. }
  repeat split; auto.
  unfold get_direction_color, qbind, ask.
  destruct (flowmap_space_type (context w)); auto.
Qed.

Lemma obj_ray_cast_returns p q t m w r :
  obj_ray_cast p t m w = Ok r -> exists r', obj_ray_cast q t m w = Ok r'.
Proof.
  unfold obj_ray_cast, qbind, ask, qlift, qraise, qret.
  destruct (inverted m) as [mi|ex]; [|discriminate].
  destruct t as [o|]; [|discriminate]. intros _.
  destruct (ray_cast o _ _ _) as [[[[] l] n] i]; eexists; reflexivity.
Qed.

Lemma line_trace_for_pos_miss p t w :
  ob_type (active_object (context w)) = MESH ->
  obj_ray_cast p t (matrix_world (active_object (context w))) w = Ok None ->
  line_trace_for_pos p t w = Ok (PyPair None None).
Proof.
  intros Hty E. unfold line_trace_for_pos, qbind, ask. now rewrite Hty, E.
Qed.

Lemma line_trace_for_pos_pair p t w r :
  ob_type (active_object (context w)) = MESH ->
  obj_ray_cast p t (matrix_world (active_object (context w))) w = Ok r ->
  exists a b, line_trace_for_pos p t w = Ok (PyPair a b)
              /\ (r = None -> b = None).
Proof.
  intros Hty E. unfold line_trace_for_pos, qbind, ask. rewrite Hty, E.
  destruct r as [[[hit n] i]|]; eexists _, _; split;
    try reflexivity; intros; congruence.
Qed.

(** X17.  A ray that misses the mesh.  With a mesh as active object
    the object-space and the world-space encoder return [(None, None)] as
    soon as the ray misses at the current or at the previous position, and
    the UV-space encoder when it misses at both. *)
Theorem missed_ray_gives_no_direction (p q : pos) (t : option Obj)
  (w : World) :
  let cast x := obj_ray_cast x t (matrix_world (active_object (context w))) w in
  ob_type (active_object (context w)) = MESH ->
  (cast p = Ok None /\ cast q = Ok None ->
   get_uv_space_direction_color p q t w = Ok (None, None))
  /\ (cast p = Ok None \/ cast q = Ok None ->
      get_obj_space_direction_color p q t w = Ok (None, None)
      /\ get_world_space_direction_color p q t w = Ok (None, None)).
Proof.
  intros cast Hty. split.
  - intros [Ep Eq]. unfold get_uv_space_direction_color, qbind.
    assert (Huv : forall x, cast x = Ok None ->
                            line_trace_for_uv x t w = Ok (None, None)).
    { intros x E. unfold line_trace_for_uv, qbind, ask. subst cast.
      cbn beta in E. now rewrite Hty, E. }
    now rewrite (Huv p Ep), (Huv q Eq).
  - intros Hmiss.
    assert (Hret : exists rp rq, cast p = Ok rp /\ cast q = Ok rq
                                 /\ (rp = None \/ rq = None)).
    { destruct Hmiss as [E|E].
      - destruct (@obj_ray_cast_returns p q t _ w _ E) as [rq Eq].
        exists None, rq. auto.
      - destruct (@obj_ray_cast_returns q p t _ w _ E) as [rp Ep].
        exists rp, None. auto. }
    destruct Hret as (rp & rq & Ep & Eq & Hnone).
    destruct (@line_trace_for_pos_pair p t w rp Hty Ep) as (a & b & Lp & Hb).
    destruct (@line_trace_for_pos_pair q t w rq Hty Eq) as (a' & b' & Lq & Hb').
    assert (Hbb : b = None \/ b' = None) by (destruct Hnone; auto).
    split.
    + unfold get_obj_space_direction_color, qbind, ask, qlift.
      rewrite Lp. cbn [unpack2]. rewrite Lq. cbn [unpack2].
      destruct Hbb as [-> | ->]; [reflexivity|destruct b; reflexivity].
    + unfold get_world_space_direction_color, qbind, qlift.
      rewrite Lp. cbn [unpack2]. rewrite Lq. cbn [unpack2].
      destruct Hbb as [-> | ->]; [reflexivity|destruct b; reflexivity].
Qed.

End Rays.

Section Locations.
Context {A : Arith} {H : Host}.

Lemma line_trace_for_pos_hit p t w a b :
  line_trace_for_pos p t w = Ok (PyPair a (Some b)) ->
  ob_type (active_object (context w)) = MESH
  /\ exists hit normal face,
       obj_ray_cast p t (matrix_world (active_object (context w))) w
       = Ok (Some (hit, normal, face))
       /\ a = Some hit.
Proof.
  unfold line_trace_for_pos, qbind, ask, qret.
  destruct (ob_type (active_object (context w))); [|discriminate].
  destruct (obj_ray_cast p t _ w) as [[[[hit n] i]|]|ex]; try discriminate.
  intros E. injection E as <- _. split; [reflexivity|].
  now exists hit, n, i.
Qed.

Lemma line_trace_for_uv_hit p t w uv a :
  line_trace_for_uv p t w = Ok (Some uv, a) ->
  ob_type (active_object (context w)) = MESH
  /\ exists hit normal face,
       obj_ray_cast p t (matrix_world (active_object (context w))) w
       = Ok (Some (hit, normal, face))
       /\ a = Some hit.
Proof.
  unfold line_trace_for_uv, qbind, ask, qret, qlift.
  destruct (ob_type (active_object (context w))); [|discriminate].
  destruct (obj_ray_cast p t _ w) as [[[[hit n] i]|]|ex]; try discriminate.
  destruct (pos_to_uv_co _ _ _ _); [|discriminate].
  intros E. injection E as _ <-. split; [reflexivity|].
  now exists hit, n, i.
Qed.

(** X18.  The second component of the three encoders of the 3D
    operator: without a colour there is no location, and with a colour the
    location is the hit of the ray cast at the current position, in the
    space of the triangulated object. *)
Theorem encoders_return_the_hit_as_location (p q : pos) (t : option Obj)
  (w : World) (dc loc : option vec3) :
  get_uv_space_direction_color p q t w = Ok (dc, loc)
  \/ get_obj_space_direction_color p q t w = Ok (dc, loc)
  \/ get_world_space_direction_color p q t w = Ok (dc, loc) ->
  (dc = None -> loc = None)
  /\ (dc <> None ->
      ob_type (active_object (context w)) = MESH
      /\ exists hit normal face,
           obj_ray_cast p t (matrix_world (active_object (context w))) w
           = Ok (Some (hit, normal, face))
           /\ loc = Some hit).
Proof.
  intros [E|[E|E]].
  - unfold get_uv_space_direction_color, qbind, qret in E.
    destruct (line_trace_for_uv p t w) as [[uv a]|ex] eqn:Ep; [|discriminate].
    destruct (line_trace_for_uv q t w) as [[uv' a']|ex]; [|discriminate].
    destruct uv as [[[p0 p1] p2]|].
    2:{ injection E as <- <-. split; [reflexivity|congruence]. }
    destruct uv' as [[[q0 q1] q2]|].
    2:{ injection E as <- <-. split; [reflexivity|congruence]. }
    destruct (direction_color2 _ _) as [c|];
      injection E as <- <-; (split; [try reflexivity; discriminate|]);
      [|congruence].
    intros _. exact (line_trace_for_uv_hit _ _ _ Ep).
  - unfold get_obj_space_direction_color, qbind, qret, ask, qlift in E.
    destruct (line_trace_for_pos p t w) as [[|a b]|ex] eqn:Ep;
      try discriminate.
    cbn [unpack2] in E.
    destruct (line_trace_for_pos q t w) as [[|a' b']|ex]; try discriminate.
    cbn [unpack2] in E.
    destruct b as [b|].
    2:{ injection E as <- <-. split; [reflexivity|congruence]. }
    destruct b' as [b'|].
    2:{ injection E as <- <-. split; [reflexivity|congruence]. }
    destruct (inverted _) as [mx|ex]; [|discriminate].
    destruct (direction_color3 _ _) as [c|];
      injection E as <- <-; (split; [try reflexivity; discriminate|]);
      [|congruence].
    intros _. exact (line_trace_for_pos_hit _ _ _ Ep).
  - unfold get_world_space_direction_color, qbind, qret, qlift in E.
    destruct (line_trace_for_pos p t w) as [[|a b]|ex] eqn:Ep;
      try discriminate.
    cbn [unpack2] in E.
    destruct (line_trace_for_pos q t w) as [[|a' b']|ex]; try discriminate.
    cbn [unpack2] in E.
    destruct b as [b|].
    2:{ injection E as <- <-. split; [reflexivity|congruence]. }
    destruct b' as [b'|].
    2:{ injection E as <- <-. split; [reflexivity|congruence]. }
    destruct (direction_color3 _ _) as [c|];
      injection E as <- <-; (split; [try reflexivity; discriminate|]);
      [|congruence].
    intros _. exact (line_trace_for_pos_hit _ _ _ Ep).
Qed.

End Locations.

Section UVLookup.
Context {A : Arith} {H : Host}.

Lemma face_corners_resolved obj mw uvs corners rs :
  uv_layers_active (ob_data obj) = Some uvs ->
  Forall2 (resolves obj uvs) corners rs ->
  forall fv uv,
    face_corners obj mw corners fv uv
    = Ok (fv ++ map (fun r => matmul mw (snd r)) rs,
          uv ++ map (fun r => to_3d (fst r)) rs).
Proof.
  intros Huv Hall. induction Hall as [|[v l] [u co] corners rs [Hu Hco] _ IH];
    intros fv uv.
  - cbn. now rewrite !app_nil_r.
  - cbn [face_corners]. rewrite Huv. cbn [fst snd] in Hu, Hco.
    rewrite Hu. destruct u as [u0 u1]. rewrite Hco, IH.
    cbn [map fst snd]. unfold to_3d. cbn [fst snd].
    now rewrite <- !app_assoc.
Qed.

(** X19.  [pos_to_uv_co] on a face all of whose corners resolve: the
    result is the barycentric transform of the position from the first three
    corners of the face to their UVs (at z = 0), and on a face of fewer than
    three corners it raises [IndexError]. *)
Theorem pos_to_uv_co_uses_the_first_three_corners (obj : Obj) (mw : Matrix)
  (world_pos : vec3) (face_index : Z) (face : Polygon) (uvs : list vec2)
  (rs : list (vec2 * vec3)) :
  py_index (polygons (ob_data obj)) face_index = Ok face ->
  uv_layers_active (ob_data obj) = Some uvs ->
  Forall2 (resolves obj uvs)
          (combine (face_vertices face) (loop_indices face)) rs ->
  pos_to_uv_co (Some obj) mw world_pos face_index
  = match rs with
    | r1 :: r2 :: r3 :: _ =>
        Ok (barycentric_transform world_pos
              (matmul mw (snd r1)) (matmul mw (snd r2)) (matmul mw (snd r3))
              (to_3d (fst r1)) (to_3d (fst r2)) (to_3d (fst r3)))
    | _ => Raise IndexError
    end.
Proof.
  intros Hface Huv Hall. unfold pos_to_uv_co. rewrite Hface. cbn [rbind].
  rewrite (@face_corners_resolved obj mw uvs _ rs Huv Hall). cbn [rbind app].
  destruct rs as [|r1 [|r2 [|r3 rest]]]; reflexivity.
Qed.

End UVLookup.

(** ** The panel and the registration *)

Section PanelFacts.
Context {A : Arith} {H : Host}.

(** X23.  The panel against the registration.  Whatever the area and
    the space type, the three columns of the panel get the same number of
    widgets, the brush spacing is shown, and every property shown is one of
    [PROPERTIES].  The start button is the image editor operator's in the
    image editor, the 3D operator's in the 3D view, and absent elsewhere; a
    panel drawn in the space it is declared for shows exactly one, of an
    operator in [CLASSES], in an area where [get_cursor_target] is defined. *)
Theorem panel_shows_what_is_registered (c : Context) :
  List.length (widgets_on column1 (draw c))
  = List.length (widgets_on column3 (draw c))
  /\ List.length (widgets_on column2 (draw c))
     = List.length (widgets_on column3 (draw c))
  /\ In "flowmap_brush_spacing"%string (shown_properties (draw c))
  /\ (forall n, In n (shown_properties (draw c)) ->
                In n (map fst PROPERTIES))
  /\ shown_operators (draw c)
     = match area_type c with
       | IMAGE_EDITOR => [bl_idname FLOWMAP_OT_image_editor]
       | VIEW_3D => [bl_idname FLOWMAP_OT_3d_viewport]
       | OTHER_AREA => []
       end
  /\ (forall p : panel,
        area_type c = bl_space_type p ->
        exists op,
          shown_operators (draw c) = [bl_idname op]
          /\ In (operator_class op) CLASSES
          /\ forall w, context w = c -> get_cursor_target w <> None).
Proof.
  unfold draw.
  destruct (area_type c) eqn:Ea, (flowmap_space_type c) eqn:Es;
    cbn [app widgets_on filter List.length shown_properties shown_operators
         flat_map bl_idname];
    (split; [reflexivity|]); (split; [reflexivity|]);
    (split; [cbn; tauto|]);
    (split; [intros n Hn; cbn in Hn |- *; tauto|]);
    (split; [reflexivity|]);
    intros p Hp; destruct p; try discriminate Hp;
    first [ exists FLOWMAP_OT_image_editor; split; [reflexivity|]
          | exists FLOWMAP_OT_3d_viewport; split; [reflexivity|] ];
    (split; [cbn; tauto|]);
    intros w Hw; unfold get_cursor_target; rewrite Hw, Ea; discriminate.
Qed.

End PanelFacts.

Section RegistrationFacts.
Context {R : Registrar}.

Lemma class_eqb_eq a b : class_eqb a b = true <-> a = b.
Proof.
  destruct a as [[]|[]], b as [[]|[]]; cbn; split; intros E;
    try reflexivity; try discriminate.
Qed.

Lemma py_setattr_new n v attrs :
  ~ In n (keys attrs) -> py_setattr n v attrs = attrs ++ [(n, v)].
Proof.
  induction attrs as [|[k x] rest IH]; [reflexivity|]. cbn [keys map fst].
  intros Hn. cbn [py_setattr app].
  destruct (String.eqb_spec k n) as [E|E].
  - exfalso. apply Hn. left. exact E.
  - rewrite IH; [reflexivity|]. intros Hin. apply Hn. now right.
Qed.

Lemma filter_key_absent n (attrs : list (string * property)) :
  ~ In n (keys attrs) ->
  filter (fun kv => negb (String.eqb (fst kv) n)) attrs = attrs.
Proof.
  induction attrs as [|[k x] rest IH]; [reflexivity|]. cbn [keys map fst].
  intros Hn. cbn [filter fst].
  destruct (String.eqb_spec k n) as [E|E].
  - exfalso. apply Hn. left. exact E.
  - cbn [negb]. rewrite IH; [reflexivity|]. intros Hin. apply Hn. now right.
Qed.

Lemma py_delattr_absent n attrs :
  ~ In n (keys attrs) -> py_delattr n attrs = Raise AttributeError.
Proof.
  intros Hn. unfold py_delattr.
  destruct (existsb _ attrs) eqn:E; [|reflexivity].
  apply existsb_exists in E. destruct E as ([k x] & Hin & Hk).
  apply String.eqb_eq in Hk. cbn in Hk. subst k.
  exfalso. apply Hn. apply in_map_iff. now exists (n, x).
Qed.

Lemma py_delattr_last n v attrs rest :
  ~ In n (keys attrs) -> ~ In n (keys rest) ->
  py_delattr n (attrs ++ (n, v) :: rest) = Ok (attrs ++ rest).
Proof.
  intros Ha Hr. unfold py_delattr.
  rewrite existsb_app. cbn [existsb fst]. rewrite String.eqb_refl.
  rewrite orb_true_r, filter_app. cbn [filter fst].
  rewrite String.eqb_refl. cbn [negb].
  now rewrite !filter_key_absent.
Qed.

Lemma set_all (ps : list (string * property)) :
  NoDup (keys ps) ->
  forall attrs cs,
    (forall n, In n (keys ps) -> ~ In n (keys attrs)) ->
    for_each ps (fun '(prop_name, prop_value) =>
      update_attrs (fun a => Ok (py_setattr prop_name prop_value a)))
      {| scene_attrs := attrs; registered := cs |}
    = (Ok tt, {| scene_attrs := attrs ++ ps; registered := cs |}).
Proof.
  induction ps as [|[n v] ps IH]; intros Hnd attrs cs Hfresh.
  - cbn. now rewrite app_nil_r.
  - cbn [keys map fst] in Hnd. inversion Hnd as [|? ? Hn Hps]; subst.
    cbn [for_each]. unfold bind, update_attrs at 1. cbn [scene_attrs registered].
    rewrite py_setattr_new by (apply Hfresh; now left).
    rewrite IH; [now rewrite <- app_assoc|exact Hps|].
    intros k Hk Hin. unfold keys in Hin. rewrite map_app in Hin.
    apply in_app_or in Hin. destruct Hin as [Hin|[E|[]]].
    + apply (Hfresh k); [now right|exact Hin].
    + cbn in E. subst k. exact (Hn Hk).
Qed.

Lemma del_all (ps : list (string * property)) :
  NoDup (keys ps) ->
  forall attrs cs,
    (forall n, In n (keys ps) -> ~ In n (keys attrs)) ->
    for_each ps (fun '(prop_name, prop_value) =>
      update_attrs (py_delattr prop_name))
      {| scene_attrs := attrs ++ ps; registered := cs |}
    = (Ok tt, {| scene_attrs := attrs; registered := cs |}).
Proof.
  induction ps as [|[n v] ps IH]; intros Hnd attrs cs Hfresh.
  - cbn. now rewrite app_nil_r.
  - cbn [keys map fst] in Hnd. inversion Hnd as [|? ? Hn Hps]; subst.
    cbn [for_each]. unfold bind, update_attrs at 1. cbn [scene_attrs registered].
    rewrite py_delattr_last; [|apply Hfresh; now left|exact Hn].
    apply IH; [exact Hps|]. intros k Hk. apply Hfresh. now right.
Qed.

Lemma filter_class_absent c (cs : list addon_class) :
  ~ In c cs -> filter (fun x => negb (class_eqb x c)) cs = cs.
Proof.
  induction cs as [|x cs IH]; [reflexivity|]. intros Hn. cbn [filter].
  destruct (class_eqb x c) eqn:E.
  - apply class_eqb_eq in E. exfalso. apply Hn. now left.
  - cbn [negb]. rewrite IH; [reflexivity|]. intros Hin. apply Hn. now right.
Qed.

Lemma register_all (news : list addon_class) :
  NoDup news ->
  forall attrs cs,
    (forall c, In c news -> ~ In c cs) ->
    for_each news (fun type => update_classes (register_class type))
      {| scene_attrs := attrs; registered := cs |}
    = (Ok tt, {| scene_attrs := attrs; registered := cs ++ news |}).
Proof.
  induction news as [|c news IH]; intros Hnd attrs cs Hfresh.
  - cbn. now rewrite app_nil_r.
  - inversion Hnd as [|? ? Hn Hps]; subst.
    cbn [for_each]. unfold bind, update_classes at 1.
    cbn [scene_attrs registered].
    rewrite register_class_new by (apply Hfresh; now left).
    rewrite IH; [now rewrite <- app_assoc|exact Hps|].
    intros k Hk Hin. apply in_app_or in Hin. destruct Hin as [Hin|[E|[]]].
    + apply (Hfresh k); [now right|exact Hin].
    + subst k. exact (Hn Hk).
Qed.

Lemma unregister_all (news : list addon_class) :
  NoDup news ->
  forall attrs cs,
    (forall c, In c news -> ~ In c cs) ->
    for_each news (fun type => update_classes (unregister_class type))
      {| scene_attrs := attrs; registered := cs ++ news |}
    = (Ok tt, {| scene_attrs := attrs; registered := cs |}).
Proof.
  induction news as [|c news IH]; intros Hnd attrs cs Hfresh.
  - cbn. now rewrite app_nil_r.
  - inversion Hnd as [|? ? Hn Hps]; subst.
    cbn [for_each]. unfold bind, update_classes at 1.
    cbn [scene_attrs registered].
    rewrite unregister_class_old
      by (apply in_or_app; right; left; reflexivity).
    rewrite filter_app. cbn [filter].
    assert (Ec : class_eqb c c = true) by now apply class_eqb_eq.
    rewrite Ec. cbn [negb].
    rewrite !filter_class_absent; [|exact Hn|apply Hfresh; now left].
    apply IH; [exact Hps|]. intros k Hk. apply Hfresh. now right.
Qed.

Lemma PROPERTIES_distinct : NoDup (keys PROPERTIES).
Proof.
  cbn. repeat (constructor; [cbn; intuition discriminate|]). constructor.
Qed.

Lemma CLASSES_distinct : NoDup CLASSES.
Proof.
  unfold CLASSES.
  repeat (constructor; [cbn; intuition discriminate|]). constructor.
Qed.

(** X24.  Registration round trip.  When none of the four properties is
    set on the scene type and none of the five classes is registered,
    [register] returns, having added them all; [unregister] after it returns
    and restores the registry; and [unregister] alone raises
    [AttributeError] on the first property, changing nothing. *)
Theorem unregister_undoes_register (r : Registry) :
  (forall n, In n (keys PROPERTIES) -> ~ In n (keys (scene_attrs r))) ->
  (forall c, In c CLASSES -> ~ In c (registered r)) ->
  register r
  = (Ok tt, {| scene_attrs := scene_attrs r ++ PROPERTIES;
               registered := registered r ++ CLASSES |})
  /\ unregister (snd (register r)) = (Ok tt, r)
  /\ unregister r = (Raise AttributeError, r).
Proof.
  intros Hp Hc. destruct r as [attrs cs]. cbn [scene_attrs registered] in *.
  assert (Ereg : register {| scene_attrs := attrs; registered := cs |}
                 = (Ok tt, {| scene_attrs := attrs ++ PROPERTIES;
                              registered := cs ++ CLASSES |})).
  { unfold register. unfold bind.
    rewrite (@set_all PROPERTIES PROPERTIES_distinct attrs cs Hp).
    apply (@register_all CLASSES CLASSES_distinct _ _ Hc). }
  split; [exact Ereg|]. split.
  - rewrite Ereg. cbn [snd]. unfold unregister. unfold bind.
    rewrite (@del_all PROPERTIES PROPERTIES_distinct attrs _ Hp).
    apply (@unregister_all CLASSES CLASSES_distinct _ _ Hc).
  - unfold unregister. unfold bind at 1.
    unfold PROPERTIES at 1. cbn [for_each]. unfold bind, update_attrs at 1. cbn [scene_attrs].
    rewrite py_delattr_absent; [reflexivity|].
    apply Hp. cbn. tauto.
Qed.

End RegistrationFacts.



(* ------------------------------------------------------------------ *)
(** * The theorems at concrete inputs

    On binary64 wherever the statement evaluates, on the small host. *)



(** The five dots of that jump: 52, 41.6, 31.200000000000003, 20.8, 10.4
    (the mix of the third is [1 / 5 * 3], which rounds up). *)
Example fast_jump_float64 :
  dots (snd (modal (H:=toy_host float64) FLOWMAP_OT_image_editor
               (mouse (A:=float64) MOUSEMOVE OTHER_VALUE 52 0)
               (image_stroke float64)))
  = [ ((52%float, 0%float), None);
      ((0x1.4cccccccccccdp+5%float, 0%float), None);
      ((0x1.f333333333334p+4%float, 0%float), None);
      ((0x1.4cccccccccccdp+4%float, 0%float), None);
      ((0x1.4cccccccccccdp+3%float, 0%float), None) ].
Proof. vm_compute. reflexivity. Qed.

(** C2: the screen-space encoder on two equal positions returns a colour. *)
Lemma screen_space_coincident_is_not_none :
  get_direction_color (H:=toy_host float64) FLOWMAP_OT_image_editor
    (3, 4)%Z (3, 4)%Z (image_stroke float64)
  = Ok (Some (0.5%float, 0.5%float, 0%float), None).
Proof. vm_compute. reflexivity. Qed.


(** C4: a stroke of one move and a cancel in the image editor; no channel
    of the brush colour is NaN afterwards. *)
Lemma nan_never_reaches_brush_color_witness :
  isnan (Arith:=float64) half = false
  /\ any_isnan
       (brush_color
          (snd (run (H:=toy_host float64) FLOWMAP_OT_image_editor
                  [mouse (A:=float64) MOUSEMOVE OTHER_VALUE 52 0;
                   mouse (A:=float64) ESC PRESS 52 0]
                  (image_stroke float64)))) = false.
Proof.
  split; [reflexivity|].
  apply (proj2 (proj2 (@nan_never_reaches_brush_color float64
                         (toy_host float64) FLOWMAP_OT_image_editor eq_refl))).
  reflexivity.
Defined.

(** C5: spacing 10, from the origin to (6, 0) and on to (12, 0): each move
    is 6 pixels long, and the second one emits a dot and moves
    [furthest_position]. *)
Lemma slow_consecutive_moves_emit_a_dot :
  let events := [mouse (A:=float64) MOUSEMOVE OTHER_VALUE 6 0;
                 mouse (A:=float64) MOUSEMOVE OTHER_VALUE 12 0] in
  let w := image_stroke float64 in
  let w' := snd (run (H:=toy_host float64) FLOWMAP_OT_image_editor events w) in
  consecutive_below w (furthest_position (self w)) events = true
  /\ dots w' = [((12%float, 0%float), None)]
  /\ furthest_position (self w) = (0, 0)%Z
  /\ furthest_position (self w') = (12, 0)%Z.
Proof. vm_compute. repeat split; reflexivity. Qed.

(** C5: two moves that stay within 10 pixels of the origin, where
    [furthest_position] is. *)
Lemma slow_moves_emit_nothing_witness :
  let events := [mouse (A:=float64) MOUSEMOVE OTHER_VALUE 6 0;
                 mouse (A:=float64) MOUSEMOVE OTHER_VALUE 3 (-4)] in
  let w := image_stroke float64 in
  let w' := snd (run (H:=toy_host float64) FLOWMAP_OT_image_editor events w) in
  dots w' = dots w /\ strokes w' = strokes w
  /\ furthest_position (self w') = furthest_position (self w).
Proof.
  intros events w.
  apply (@slow_moves_emit_nothing float64 (toy_host float64)
           FLOWMAP_OT_image_editor events w float64_lt_excludes_ge)
    with (k := 2%nat).
  repeat constructor.
Defined.

(** C6: a hit on the square without UV map. *)
Lemma uv_lookup_without_layer_is_not_none :
  uv_layers_active (ob_data (bare_plane float64)) = None
  /\ line_trace_for_uv (H:=toy_host float64) (3, 4)%Z
       (Some (bare_plane float64))
       (viewport (bare_plane float64) uv_space)
     = Raise AttributeError
  /\ get_uv_space_direction_color (H:=toy_host float64) (3, 4)%Z (0, 0)%Z
       (Some (bare_plane float64))
       (viewport (bare_plane float64) uv_space)
     = Raise AttributeError.
Proof. repeat split; vm_compute; reflexivity. Qed.

(** C6: the same hit, through the theorem. *)
Lemma uv_lookup_without_layer_raises_witness :
  exists e,
    line_trace_for_uv (H:=toy_host float64) (3, 4)%Z
      (Some (bare_plane float64)) (viewport (bare_plane float64) uv_space)
    = Raise e.
Proof.
  destruct (@uv_lookup_without_layer_raises float64 (toy_host float64)
              (bare_plane float64) (viewport (bare_plane float64) uv_space)
              (3, 4)%Z (0, 0)%Z eq_refl)
    as (_ & _ & Hhit & _).
  destruct (Hhit (3%float, 4%float, 0%float, (0%float, 0%float, 1%float), 0%Z)
              eq_refl eq_refl) as [e [He _]].
  exists e. exact He.
Defined.

(** C7: the 3D operator starts on the square and is cancelled. *)
Lemma cancel_keeps_triangulated_mesh_witness :
  exists tri w1,
    startup (H:=toy_host float64) FLOWMAP_OT_3d_viewport
      (viewport (plane float64) uv_space) = (Ok tt, w1)
    /\ tri_obj (self w1) = Some tri
    /\ In (ob_data tri) (meshes (data w1))
    /\ (me_name (ob_data tri) <> temp_mesh_name ->
        In (ob_data tri)
           (meshes (data (snd (modal FLOWMAP_OT_3d_viewport
                                 (mouse (A:=float64) ESC PRESS 0 0) w1)))))
    /\ List.length (other_meshes (viewport (plane float64) uv_space)) + 1
       <= List.length
            (other_meshes (snd (modal FLOWMAP_OT_3d_viewport
                                  (mouse (A:=float64) ESC PRESS 0 0) w1))).
Proof.
  apply (@cancel_keeps_triangulated_mesh float64 (toy_host float64)
           (viewport (plane float64) uv_space)
           (mouse (A:=float64) ESC PRESS 0 0)).
  reflexivity.
Defined.

(** The names in [bpy.data] after the startup and after the cancel: the
    object FLOWMAP_temp_obj goes, the copy of the mesh and the triangulated
    mesh stay. *)
Example cancel_leaves_meshes :
  let w1 := snd (invoke (H:=toy_host float64) FLOWMAP_OT_3d_viewport
                   (mouse (A:=float64) OTHER_EVENT OTHER_VALUE 0 0)
                   (viewport (plane float64) uv_space)) in
  let w2 := snd (modal (H:=toy_host float64) FLOWMAP_OT_3d_viewport
                   (mouse (A:=float64) ESC PRESS 0 0) w1) in
  map (@ob_name _ _) (objects (data w1)) = ["Plane"; "FLOWMAP_temp_obj"]%string
  /\ List.length (meshes (data w1)) = 3%nat
  /\ option_map (fun o => me_name (ob_data o)) (tri_obj (self w1))
     = nth_error (map me_name (meshes (data w1))) 2
  /\ map (@ob_name _ _) (objects (data w2)) = ["Plane"]%string
  /\ map me_name (meshes (data w2)) = map me_name (meshes (data w1))
  /\ brush_color w2 = (0.5%float, 0.5%float, 0.5%float).
Proof. vm_compute. repeat split; reflexivity. Qed.

(** C8: the button released at (7, 9) while held. *)
Lemma release_changes_only_pressing_witness :
  let w := image_stroke float64 in
  let e := mouse (A:=float64) LEFTMOUSE RELEASE 7 9 in
  pressing (self w) = true
  /\ pressing (self (snd (modal (H:=toy_host float64)
                            FLOWMAP_OT_image_editor e w))) = false
  /\ furthest_position (self (snd (modal (H:=toy_host float64)
                                     FLOWMAP_OT_image_editor e w)))
     = furthest_position (self w).
Proof.
  intros w e. split; [reflexivity|].
  destruct (@release_changes_only_pressing float64 (toy_host float64)
              FLOWMAP_OT_image_editor e w eq_refl eq_refl)
    as (_ & Hp & Hf & _).
  split; [exact Hp|exact Hf].
Defined.

(** C9: two startups, the second after a cleanup, leave five meshes where
    there was one. *)
Example two_startups_leave_four_meshes :
  let w := viewport (plane float64) uv_space in
  let w' := snd (restarts (H:=toy_host float64) [false; true] w) in
  List.length (meshes (data w)) = 1%nat
  /\ List.length (meshes (data w')) = 5%nat
  /\ map (@ob_name _ _) (objects (data w')) = ["Plane"; "FLOWMAP_temp_obj"]%string
  /\ coll_get me_name (meshes (data w')) temp_mesh_name = None.
Proof. vm_compute. repeat split; reflexivity. Qed.

(** C10: the active object is an empty. *)
Lemma non_mesh_trace_is_bare_none_witness :
  let o := sample_object (A:=float64) "Empty" OTHER_OBJECT
             (quad "PlaneMesh" None) in
  let w := viewport o world_space in
  line_trace_for_pos (H:=toy_host float64) (3, 4)%Z (Some (plane float64)) w
  = Ok PyNone
  /\ get_direction_color (H:=toy_host float64) FLOWMAP_OT_3d_viewport
       (3, 4)%Z (0, 0)%Z w = Raise TypeError.
Proof.
  intros o w.
  destruct (@non_mesh_trace_is_bare_none float64 (toy_host float64)
              (3, 4)%Z (0, 0)%Z (Some (plane float64)) w eq_refl)
    as (Hl & _ & _ & _ & _ & Hd).
  split; [exact Hl|]. apply Hd. discriminate.
Defined.

(** X1: the 3D operator started on the square, then cancelled. *)
Lemma cancel_resets_color_and_named_temp_data_witness :
  let w := snd (startup (H:=toy_host float64) FLOWMAP_OT_3d_viewport
                  (viewport (plane float64) uv_space)) in
  exists w',
    modal FLOWMAP_OT_3d_viewport (mouse (A:=float64) ESC PRESS 0 0) w
    = (Ok FINISHED, w')
    /\ brush_color w' = (0.5%float, 0.5%float, 0.5%float)
    /\ coll_get me_name (meshes (data w')) temp_mesh_name = None
    /\ coll_get (@ob_name _ _) (objects (data w')) temp_obj_name = None
    /\ remove_temp_obj w' = (Ok tt, w').
Proof.
  intros w.
  destruct (@cancel_resets_color_and_named_temp_data float64
              (toy_host float64) (mouse (A:=float64) ESC PRESS 0 0) w eq_refl)
    as [_ Hnamed].
  apply Hnamed.
  - split; vm_compute;
      repeat (constructor; [cbn; intuition discriminate|]); constructor.
  - left. reflexivity.
Defined.

(** X2: two startups on the square, the second after a cleanup. *)
Lemma restarts_keep_one_temp_object_witness :
  let w := viewport (plane float64) uv_space in
  exists tri w',
    restarts (H:=toy_host float64) [false; true] w = (Ok tt, w')
    /\ tri_obj (self w') = Some tri
    /\ temp_objects w' = [tri]
    /\ List.length (other_objects w') <= List.length (other_objects w).
Proof.
  intros w.
  apply (@restarts_keep_one_temp_object float64 (toy_host float64)
           false [true] w).
  - split; vm_compute;
      repeat (constructor; [cbn; intuition discriminate|]); constructor.
  - intros used. cbn. unfold toy_unique_name.
    destruct (existsb _ used); discriminate.
Defined.

(** X3: the pointer hovers over the image, the button up. *)
Lemma nothing_is_painted_while_idle_witness :
  let w := sample_world (plane float64) IMAGE_EDITOR TEXTURE_PAINT
             (of_Z 10) uv_space None in
  let events := [mouse (A:=float64) MOUSEMOVE OTHER_VALUE 30 0;
                 mouse (A:=float64) LEFTMOUSE RELEASE 30 0;
                 mouse (A:=float64) MOUSEMOVE OTHER_VALUE 90 40] in
  let w' := snd (run (H:=toy_host float64) FLOWMAP_OT_image_editor events w) in
  dots w' = dots w /\ strokes w' = strokes w /\ pressing (self w') = false.
Proof.
  intros w events.
  apply (@nothing_is_painted_while_idle float64 (toy_host float64)
           FLOWMAP_OT_image_editor events w); [reflexivity|].
  intros e [<-|[<-|[<-|[]]]]; reflexivity.
Defined.

(** X5: the jump of 52 pixels, spacing 10. *)
Lemma sample_moves_the_anchors_witness :
  let w := image_stroke float64 in
  let e := mouse (A:=float64) MOUSEMOVE OTHER_VALUE 52 0 in
  let w' := snd (modal (H:=toy_host float64) FLOWMAP_OT_image_editor e w) in
  furthest_position (self w') = (52, 0)%Z
  /\ mouse_prev_position (self w') = (52, 0)%Z.
Proof.
  intros w e.
  destruct (@sample_moves_the_anchors float64 (toy_host float64)
              FLOWMAP_OT_image_editor e w eq_refl) as [_ Hc].
  destruct (Hc eq_refl) as [Hf Hp].
  split; [exact Hf|]. apply (Hp RUNNING_MODAL). reflexivity.
Defined.


(** X8: spacing 0, the button held at the origin, a move to (5, 0). *)
Lemma zero_spacing_stroke_raises_witness :
  let w0 := sample_world (plane ideal) IMAGE_EDITOR TEXTURE_PAINT
              (of_Z 0) uv_space None in
  let w := set_self (set_pressing true (self w0)) w0 in
  let e := mouse (A:=ideal) MOUSEMOVE OTHER_VALUE 5 0 in
  fst (modal (H:=toy_host ideal) FLOWMAP_OT_image_editor e w)
  = Raise OverflowError
  /\ dots (snd (modal (H:=toy_host ideal) FLOWMAP_OT_image_editor e w))
     = dots w.
Proof.
  intros w0 w e.
  destruct (@image_editor_returns ideal (toy_host ideal) (5, 0)%Z (0, 0)%Z
              (set_self (set_furthest_position (5, 0)%Z (self w)) w))
    as (c & Hc).
  destruct (@zero_spacing_stroke_raises (toy_host ideal)
              FLOWMAP_OT_image_editor e w (Some c) None
              eq_refl eq_refl eq_refl Hc)
    as (_ & Hover & Hdots & _).
  split; [apply Hover; discriminate|exact Hdots].
Defined.

(** X10: the image editor's operator, which returns no location, run in
    vertex paint mode. *)
Lemma no_location_no_vertex_paint_witness :
  let w0 := sample_world (plane float64) IMAGE_EDITOR VERTEX_PAINT
              (of_Z 10) uv_space None in
  let w := set_self (set_pressing true (self w0)) w0 in
  let e := mouse (A:=float64) MOUSEMOVE OTHER_VALUE 52 0 in
  strokes (snd (modal (H:=toy_host float64) FLOWMAP_OT_image_editor e w))
  = strokes w.
Proof.
  intros w0 w e.
  apply (@no_location_no_vertex_paint float64 (toy_host float64)
           FLOWMAP_OT_image_editor e w); [reflexivity|].
  intros dc l E. vm_compute in E. discriminate E.
Defined.

(** X11: the first move of a stroke in the image editor. *)
Lemma cursor_is_the_only_own_handler_witness :
  let w := image_stroke float64 in
  let e := mouse (A:=float64) MOUSEMOVE OTHER_VALUE 52 0 in
  let w' := snd (modal (H:=toy_host float64) FLOWMAP_OT_image_editor e w) in
  handlers_ok w'
  /\ foreign_handlers w' = foreign_handlers w
  /\ exists h k, own_handlers w' = [(h, k, (52, 0)%Z)].
Proof.
  intros w e.
  assert (Hok : handlers_ok w).
  { split; [constructor|]. split; [intros h []|discriminate]. }
  destruct (@cursor_is_the_only_own_handler float64 (toy_host float64)
              FLOWMAP_OT_image_editor e w Hok) as (H1 & H2 & H3 & _).
  split; [exact H1|]. split; [exact H2|].
  destruct (H3 eq_refl eq_refl) as (h & k & Ho & _).
  exists h, k. exact Ho.
Defined.

(** X12: a stroke of two moves and a cancel. *)
Lemma session_keeps_one_cursor_witness :
  let w := image_stroke float64 in
  let events := [mouse (A:=float64) MOUSEMOVE OTHER_VALUE 52 0;
                 mouse (A:=float64) MOUSEMOVE OTHER_VALUE 60 30;
                 mouse (A:=float64) ESC PRESS 60 30] in
  let w' := snd (run (H:=toy_host float64) FLOWMAP_OT_image_editor events w) in
  handlers_ok w'
  /\ foreign_handlers w' = foreign_handlers w
  /\ List.length (own_handlers w') <= 1
  /\ draw_handlers w' = foreign_handlers w.
Proof.
  intros w events.
  assert (Hok : handlers_ok w).
  { split; [constructor|]. split; [intros h []|discriminate]. }
  destruct (@session_keeps_one_cursor float64 (toy_host float64)
              FLOWMAP_OT_image_editor events w Hok) as (H1 & H2 & H3 & H4).
  split; [exact H1|]. split; [exact H2|]. split; [exact H3|].
  apply H4. reflexivity.
Defined.

(** X13: the operator running in another area. *)
Lemma position_update_needs_a_drawable_area_witness :
  let w := sample_world (plane float64) OTHER_AREA TEXTURE_PAINT
             (of_Z 10) uv_space None in
  let e := mouse (A:=float64) MOUSEMOVE OTHER_VALUE 52 0 in
  exists ex,
    fst (modal (H:=toy_host float64) FLOWMAP_OT_image_editor e w) = Raise ex.
Proof.
  intros w e.
  apply (@position_update_needs_a_drawable_area float64 (toy_host float64)
           FLOWMAP_OT_image_editor e w); reflexivity.
Defined.

(** X15: the square, triangulated in a fresh [bpy.data]. *)
Lemma triangulate_object_result_witness :
  exists tri w',
    triangulate_object (H:=toy_host float64) (plane float64)
      (viewport (plane float64) uv_space) = (Ok tri, w')
    /\ ob_name tri = temp_obj_name
    /\ hidden tri = true
    /\ objects (data w') = [plane float64; tri]
    /\ coll_get (@ob_name _ _) (objects (data w')) temp_obj_name = Some tri.
Proof.
  destruct (@triangulate_object_result float64 (toy_host float64)
              (plane float64) (viewport (plane float64) uv_space))
    as (tri & w' & ob & Ht & Hn & _ & _ & Hh & _ & _ & _ & _ & _ & _ & Ho
        & Hg & _).
  - split; vm_compute;
      repeat (constructor; [cbn; intuition discriminate|]); constructor.
  - vm_compute. discriminate.
  - exists tri, w'. repeat split; assumption.
Defined.

(** X16: a trace on the host whose matrices have no inverse. *)
Lemma singular_matrix_stops_every_trace_witness :
  line_trace_for_pos (H:=singular_host float64) (3, 4)%Z
    (tri_obj (self (singular_world float64))) (singular_world float64)
  = Raise ValueError
  /\ get_direction_color (H:=singular_host float64) FLOWMAP_OT_3d_viewport
       (3, 4)%Z (0, 0)%Z (singular_world float64)
     = Raise ValueError.
Proof.
  destruct (@singular_matrix_stops_every_trace float64 (singular_host float64)
              (3, 4)%Z (0, 0)%Z (tri_obj (self (singular_world float64)))
              (singular_world float64) ValueError eq_refl eq_refl)
    as (H1 & _ & _ & _ & _ & H6).
  split; [exact H1|exact H6].
Defined.

(** X17: the triangulated object has no face, so every ray misses. *)
Lemma missed_ray_gives_no_direction_witness :
  let t := Some (sample_object (A:=float64) "Bare" MESH
                   {| me_name := "BareMesh"; polygons := []; vertices := [];
                      uv_layers_active := None |}) in
  let w := viewport (plane float64) world_space in
  get_world_space_direction_color (H:=toy_host float64) (3, 4)%Z (0, 0)%Z t w
  = Ok (None, None).
Proof.
  intros t w.
  destruct (@missed_ray_gives_no_direction float64 (toy_host float64)
              (3, 4)%Z (0, 0)%Z t w eq_refl) as [_ Hmiss].
  apply Hmiss. left. reflexivity.
Defined.

(** X18: the square hit at (1, 0), the previous position the origin. *)
Lemma encoders_return_the_hit_as_location_witness :
  let w := viewport (plane float64) world_space in
  exists hit normal face,
    obj_ray_cast (H:=toy_host float64) (1, 0)%Z (Some (plane float64))
      (matrix_world (active_object (context w))) w
    = Ok (Some (hit, normal, face))
    /\ Some (1%float, 0%float, 0%float) = Some hit.
Proof.
  intros w.
  destruct (@encoders_return_the_hit_as_location float64 (toy_host float64)
              (1, 0)%Z (0, 0)%Z (Some (plane float64)) w
              (Some (1%float, 0.5%float, 0.5%float))
              (Some (1%float, 0%float, 0%float))) as [_ Hhit].
  - right. right. vm_compute. reflexivity.
  - destruct (Hhit ltac:(discriminate)) as (_ & hit & n & f & Hc & Hl).
    now exists hit, n, f.
Defined.

(** X19: the first face of the square. *)
Lemma pos_to_uv_co_uses_the_first_three_corners_witness :
  pos_to_uv_co (H:=toy_host float64) (Some (plane float64)) tt
    (0.5%float, 0.25%float, 0%float) 0
  = Ok (barycentric_transform (Host:=toy_host float64)
          (0.5%float, 0.25%float, 0%float)
          (0%float, 0%float, 0%float) (1%float, 0%float, 0%float)
          (1%float, 1%float, 0%float)
          (0%float, 0%float, 0%float) (1%float, 0%float, 0%float)
          (1%float, 1%float, 0%float)).
Proof.
  apply (@pos_to_uv_co_uses_the_first_three_corners float64 (toy_host float64)
           (plane float64) tt (0.5%float, 0.25%float, 0%float) 0%Z
           {| face_vertices := [0; 1; 2]%Z; loop_indices := [0; 1; 2]%Z |}
           (quad_uv (A:=float64))
           [ ((0%float, 0%float), (0%float, 0%float, 0%float));
             ((1%float, 0%float), (1%float, 0%float, 0%float));
             ((1%float, 1%float), (1%float, 1%float, 0%float)) ]).
  - reflexivity.
  - reflexivity.
  - repeat constructor.
Defined.

(** X24: a fresh Blender. *)
Lemma unregister_undoes_register_witness :
  let r := {| scene_attrs := []; registered := [] |} in
  unregister (R:=toy_registrar) (snd (register (R:=toy_registrar) r))
  = (Ok tt, r)
  /\ unregister (R:=toy_registrar) r = (Raise AttributeError, r).
Proof.
  intros r.
  destruct (@unregister_undoes_register toy_registrar r) as (_ & H2 & H3).
  - intros n _ [].
  - intros c _ [].
  - split; [exact H2|exact H3].
Defined.

(** X25: the square, in a fresh [bpy.data]. *)
Lemma startup_then_cleanup_restores_the_objects_witness :
  let w := viewport (plane float64) uv_space in
  exists w1 w2 m1 m2,
    startup (H:=toy_host float64) FLOWMAP_OT_3d_viewport w = (Ok tt, w1)
    /\ cleanup (H:=toy_host float64) FLOWMAP_OT_3d_viewport w1 = (Ok tt, w2)
    /\ meshes (data w1) = meshes (data w) ++ [m1; m2]
    /\ (me_name m1 <> temp_mesh_name -> me_name m2 <> temp_mesh_name ->
        objects (data w2) = objects (data w)
        /\ collection (data w2) = collection (data w)
        /\ meshes (data w2) = meshes (data w) ++ [m1; m2]).
Proof.
  intros w.
  apply (@startup_then_cleanup_restores_the_objects float64
           (toy_host float64) w).
  - reflexivity.
  - reflexivity.
  - intros used. cbn. unfold toy_unique_name.
    destruct (existsb _ used); discriminate.
  - intros n [<-|[]]. left. reflexivity.
Defined.

(** The same, evaluated: the objects and the collection come back, two
    meshes stay. *)
Example startup_then_cleanup_on_the_square :
  let w := viewport (plane float64) uv_space in
  let w1 := snd (startup (H:=toy_host float64) FLOWMAP_OT_3d_viewport w) in
  let w2 := snd (cleanup (H:=toy_host float64) FLOWMAP_OT_3d_viewport w1) in
  map (@ob_name _ _) (objects (data w1)) = ["Plane"; "FLOWMAP_temp_obj"]%string
  /\ map (@ob_name _ _) (objects (data w2)) = ["Plane"]%string
  /\ collection (data w2) = collection (data w)
  /\ map me_name (meshes (data w)) = ["PlaneMesh"]%string
  /\ List.length (meshes (data w2)) = 3%nat.
Proof. vm_compute. repeat split; reflexivity. Qed.
